(** * Expense tracker API: a shallow embedding of the Django/DRF application

    Part I is the model, one module per application of the repository:

    - [Tokens]: the token service that [users/views.py] calls;
    - [Users]: [users/models.py], [users/managers.py],
      [users/serializers.py], [users/views.py];
    - [Sessions]: the events that change the state of the token service;
    - [Expenses]: [expenses/models.py], [expenses/serializers.py],
      [expenses/filters.py], [expenses/permissions.py], [expenses/views.py],
      [expenses/urls.py];
    - [Fixtures]: the data that [users/tests.py] and [expenses/tests.py] set
      up, used for closed examples;
    - [Accounts]: registration, login and change of password, the rest of
      [users/serializers.py] and [users/views.py];
    - [Ledger]: [Expense.get_category_display_custom] and the predicates on
      rows and bodies that the properties are stated with.

    Part II states and proves the properties.

    Conventions.  A database table is a finite map from primary key to row
    ([gmap Z row]); a Django [QuerySet] over a table is the finite map of the
    rows it selects.  What the database computes at a precision of its own,
    the average of a column, is a parameter ([Expenses.Database]).  A Python
    [str] is its UTF-8 encoding, and its characters are counted and
    stripped as Python does.  Money ([DecimalField] with two decimal places)
    is an integer number of cents.  A [DateField] is the day ordinal of the date, a
    [DateTimeField] a timestamp; both are integers and [timedelta(days=n)] is
    the integer [n].  A view is a function from the table and the request to
    the response and the table afterwards.  The behaviour of the framework
    (Django REST framework's generic views and model serializers) that the
    source relies on is written out next to the source declaration that
    triggers it. *)

From Stdlib Require Import ZArith QArith Qround Qabs Lqa.
From stdpp Require Import gmap strings list fin_maps pretty.

#[local] Open Scope Z_scope.

(** * Part I: the model *)

(** ** Python and framework vocabulary shared by the applications *)

(** [x or 0] for a value that is [None] or a number. *)
Definition py_or_0 (x : option Z) : Z :=
  match x with
  | Some v => if decide (v = 0) then 0 else v
  | None => 0
  end.

(** [not s] for a value that is [None] or a string. *)
Definition py_not_str (s : option string) : bool :=
  match s with
  | Some EmptyString | None => true
  | Some _ => false
  end.

(** A Python [str] is a sequence of characters; it is modelled by its UTF-8
    encoding, a [string] being a sequence of bytes.  (A [str] with a lone
    surrogate has no encoding, and no counterpart here.) *)

(** Is the byte a continuation byte of a UTF-8 sequence? *)
Definition is_continuation (b : Ascii.ascii) : bool :=
  let n := Ascii.N_of_ascii b in (128 <=? n)%N && (n <? 192)%N.

(** The characters of a string, each as its bytes. *)
Fixpoint chars (s : string) : list string :=
  match s with
  | EmptyString => []
  | String b rest =>
      match chars rest with
      | String b' c :: cs =>
          if is_continuation b' then String b (String b' c) :: cs
          else String b EmptyString :: String b' c :: cs
      | cs => String b EmptyString :: cs
      end
  end.

(** [len(s)]: the number of characters. *)
Definition py_len (s : string) : nat := length (chars s).

Fixpoint continuation_bits (acc : N) (c : string) : N :=
  match c with
  | EmptyString => acc
  | String b rest =>
      continuation_bits (acc * 64 + Ascii.N_of_ascii b mod 64)%N rest
  end.

(** The code point of a character. *)
Definition code_point (c : string) : N :=
  match c with
  | EmptyString => 0%N
  | String b rest =>
      let n := Ascii.N_of_ascii b in
      let lead :=
        if (n <? 128)%N then n
        else if (n <? 224)%N then (n mod 32)%N
        else if (n <? 240)%N then (n mod 16)%N
        else (n mod 8)%N in
      continuation_bits lead rest
  end.

(** [c.isspace()] for a character: U+0009 to U+000D, U+001C to U+0020,
    U+0085, U+00A0, U+1680, U+2000 to U+200A, U+2028, U+2029, U+202F,
    U+205F and U+3000. *)
Definition isspace (c : string) : bool :=
  let cp := code_point c in
  ((9 <=? cp) && (cp <=? 13) || (28 <=? cp) && (cp <=? 32)
   || (8192 <=? cp) && (cp <=? 8202)
   || bool_decide (cp ∈ [133; 160; 5760; 8232; 8233; 8239; 8287; 12288]))%N.

Fixpoint dropwhile {A} (p : A → bool) (l : list A) : list A :=
  match l with
  | a :: l' => if p a then dropwhile p l' else l
  | [] => []
  end.

(** [str.strip()]: without the white space at both ends. *)
Definition py_strip (s : string) : string :=
  let stripped :=
    reverse (dropwhile isspace (reverse (dropwhile isspace (chars s)))) in
  foldr String.append EmptyString stripped.

(** Does the string have the character U+0000? *)
Fixpoint has_null (s : string) : bool :=
  match s with
  | EmptyString => false
  | String b rest => (Ascii.N_of_ascii b =? 0)%N || has_null rest
  end.

(** The character U+0022, and a string between two of them. *)
Definition double_quote : string := String (Ascii.ascii_of_nat 34) EmptyString.

Definition quoted (s : string) : string := double_quote +:+ s +:+ double_quote.

Inductive Method := GET | POST | PUT | PATCH | DELETE.

#[global] Instance Method_eq_dec : EqDecision Method.
Proof. solve_decision. Defined.

(** The payload of a [ValidationError] or of an error response: key and
    message. *)
Definition Errors : Type := list (string * string).

(** A response: its status and, for some, its data. *)
Inductive Response (Data : Type) :=
  | HTTP_200_OK (data : Data)
  | HTTP_201_CREATED (data : Data)
  | HTTP_204_NO_CONTENT
  | HTTP_205_RESET_CONTENT
  | HTTP_400_BAD_REQUEST (errors : Errors)
  | HTTP_401_UNAUTHORIZED
  | HTTP_403_FORBIDDEN
  | HTTP_404_NOT_FOUND
  | HTTP_405_METHOD_NOT_ALLOWED
  | HTTP_500_INTERNAL_SERVER_ERROR.
Arguments HTTP_200_OK {Data} data.
Arguments HTTP_201_CREATED {Data} data.
Arguments HTTP_204_NO_CONTENT {Data}.
Arguments HTTP_205_RESET_CONTENT {Data}.
Arguments HTTP_400_BAD_REQUEST {Data} errors.
Arguments HTTP_401_UNAUTHORIZED {Data}.
Arguments HTTP_403_FORBIDDEN {Data}.
Arguments HTTP_404_NOT_FOUND {Data}.
Arguments HTTP_405_METHOD_NOT_ALLOWED {Data}.
Arguments HTTP_500_INTERNAL_SERVER_ERROR {Data}.

(** What a serializer field makes of its entry of the request body. *)
Inductive FieldResult (A : Type) :=
  | Omitted                  (* no entry, none required: the key stays out of attrs *)
  | Accepted (a : A)
  | Rejected (msg : string).
Arguments Omitted {A}.
Arguments Accepted {A} a.
Arguments Rejected {A} msg.

Definition errors_of {A} (name : string) (r : FieldResult A) : Errors :=
  match r with Rejected msg => [(name, msg)] | _ => [] end.

Definition value_of {A} (r : FieldResult A) : option A :=
  match r with Accepted a => Some a | _ => None end.

(** A missing entry of a required field: an error, except in a partial
    update. *)
Definition missing {A} (partial : bool) : FieldResult A :=
  if partial then Omitted else Rejected "This field is required.".

(** [ProhibitNullCharactersValidator], which every [CharField] has. *)
Definition ProhibitNullCharactersValidator (s : string) : FieldResult string :=
  if has_null s then Rejected "Null characters are not allowed." else Accepted s.

(** [MaxLengthValidator], which a [CharField] with a [max_length] has before
    the other one; it counts characters.  (When both validators refuse, the
    framework reports both messages; the first is kept here.) *)
Definition MaxLengthValidator (max_length : nat) (s : string) : FieldResult string :=
  if decide (max_length < py_len s)%nat then
    Rejected ("Ensure this field has no more than " +:+ pretty max_length
              +:+ " characters.")
  else ProhibitNullCharactersValidator s.

(** A required [CharField(max_length=n)] that may not be blank. *)
Definition char_field (max_length : nat) (partial : bool) (data : option string)
  : FieldResult string :=
  match data with
  | None => missing partial
  | Some s =>
      let s := py_strip s in
      if decide (s = "") then Rejected "This field may not be blank."
      else MaxLengthValidator max_length s
  end.

(** The primary key given to a new row: above every key of the table.  (The
    sequence of a database does not go back after a deletion; what matters
    below is that the key of a new row is the key of no row.) *)
Definition next_pk {A} (table : gmap Z A) : Z :=
  1 + map_fold (λ k _ acc, Z.max k acc) 0 table.

(** ** The token service *)

Module Tokens.

(** Modelled from the spec: a refresh token as a client presents it.  The
    repository takes its tokens from a JWT package that it configures in its
    settings; neither the package nor the settings are part of the sources.
    A presented token is either not a signed refresh token at all, or it
    carries its identifier, the identity claim and its expiry. *)
Inductive RefreshToken :=
  | Malformed
  | Signed (jti : Z) (user_id : Z) (exp : Z).

(** Modelled from the spec: an access token, stateless, with the identity
    claim and a validity window. *)
Record AccessToken := mkAccessToken {
  access_user : Z;
  access_exp : Z
}.

(** Modelled from the spec: the failures of the operations of section 4.2. *)
Inductive TokenError :=
  | MissingToken | MalformedToken | InvalidOrExpiredToken | Revoked.

(** Modelled from the spec: the durable state of the token service, the
    blacklist of revoked token identifiers (and the source of fresh
    identifiers). *)
Record State := mkState {
  blacklist : gset Z;
  next_jti : Z
}.

(** Modelled from the spec: the two validity windows, deployment settings;
    the access token's is the shorter one. *)
Record Settings := mkSettings {
  ACCESS_TOKEN_LIFETIME : Z;
  REFRESH_TOKEN_LIFETIME : Z
}.

(** Modelled from the spec: the check that every use of a presented refresh
    token starts with, [RefreshToken(raw)] in the source.  It fails for a
    token that is malformed, expired, or on the blacklist. *)
Definition verify (st : State) (now : Z) (token : RefreshToken) : option TokenError :=
  match token with
  | Malformed => Some MalformedToken
  | Signed jti _ exp =>
      if decide (exp ≤ now) then Some InvalidOrExpiredToken
      else if decide (jti ∈ blacklist st) then Some Revoked
      else None
  end.

(** Modelled from the spec: [token.blacklist()], which records the
    identifier of the token in the blacklist. *)
Definition blacklist_token (st : State) (token : RefreshToken) : State :=
  match token with
  | Malformed => st
  | Signed jti _ _ =>
      {| blacklist := {[jti]} ∪ blacklist st; next_jti := next_jti st |}
  end.

(** Modelled from the spec: [issue(user)], an access token and a refresh
    token with a fresh identifier, both with the identity of the user. *)
Definition issue (cfg : Settings) (st : State) (now : Z) (user : Z)
  : (AccessToken * RefreshToken) * State :=
  let jti := next_jti st in
  (({| access_user := user; access_exp := now + ACCESS_TOKEN_LIFETIME cfg |},
    Signed jti user (now + REFRESH_TOKEN_LIFETIME cfg)),
   {| blacklist := blacklist st; next_jti := jti + 1 |}).

(** Modelled from the spec: [refreshAccess(refreshToken)], a new access
    token, or a failure for a token that is invalid, expired or revoked. *)
Definition refreshAccess (cfg : Settings) (st : State) (now : Z)
    (token : RefreshToken) : TokenError + AccessToken :=
  match verify st now token with
  | Some MalformedToken => inl InvalidOrExpiredToken
  | Some error => inl error
  | None =>
      match token with
      | Signed _ user _ =>
          inr {| access_user := user;
                 access_exp := now + ACCESS_TOKEN_LIFETIME cfg |}
      | Malformed => inl InvalidOrExpiredToken
      end
  end.

(** Modelled from the spec: [revoke(refreshToken)], which puts the
    identifier of a usable token on the blacklist. *)
Definition revoke (st : State) (now : Z) (token : option RefreshToken)
  : TokenError + State :=
  match token with
  | None => inl MissingToken
  | Some token =>
      match verify st now token with
      | Some error => inl error
      | None => inr (blacklist_token st token)
      end
  end.

End Tokens.

(** ** The application [users] *)

Module Users.

(** *** users/models.py *)

(** A row of table [users]; the primary key is the key of the row in the
    table. *)
Record CustomUser := mkCustomUser {
  email : string;               (* unique=True *)
  password : string;            (* what [set_password] stores: a hash *)
  first_name : string;
  last_name : string;
  is_active : bool;
  is_staff : bool;
  is_superuser : bool;          (* from PermissionsMixin *)
  date_joined : Z;              (* auto_now_add=True *)
  updated_at : Z                (* auto_now=True *)
}.

#[global] Instance CustomUser_eq_dec : EqDecision CustomUser.
Proof. solve_decision. Defined.

(** [CustomUser.get_full_name]. *)
Definition get_full_name (self : CustomUser) : string :=
  py_strip (first_name self +:+ " " +:+ last_name self).

(** [CustomUser.get_short_name]. *)
Definition get_short_name (self : CustomUser) : string := first_name self.

(** Is [value] the email of a row other than [exclude]? *)
Definition email_taken (table : gmap Z CustomUser) (exclude : option Z)
    (value : string) : bool :=
  bool_decide
    (filter (λ kv, Some kv.1 ≠ exclude ∧ email kv.2 = value) table ≠ ∅).

(** *** users/managers.py *)

(** The keyword arguments [**extra_fields]: the columns that a caller of the
    manager may set, [None] for a keyword that is not passed. *)
Record ExtraFields := mkExtraFields {
  kw_first_name : option string;
  kw_last_name : option string;
  kw_is_active : option bool;
  kw_is_staff : option bool;
  kw_is_superuser : option bool
}.

(** [extra_fields.setdefault(key, value)], key by key. *)
Definition setdefault_is_staff (value : bool) (extra_fields : ExtraFields) : ExtraFields :=
  {| kw_first_name := kw_first_name extra_fields;
     kw_last_name := kw_last_name extra_fields;
     kw_is_active := kw_is_active extra_fields;
     kw_is_staff := Some (default value (kw_is_staff extra_fields));
     kw_is_superuser := kw_is_superuser extra_fields |}.

Definition setdefault_is_superuser (value : bool) (extra_fields : ExtraFields) : ExtraFields :=
  {| kw_first_name := kw_first_name extra_fields;
     kw_last_name := kw_last_name extra_fields;
     kw_is_active := kw_is_active extra_fields;
     kw_is_staff := kw_is_staff extra_fields;
     kw_is_superuser := Some (default value (kw_is_superuser extra_fields)) |}.

Definition setdefault_is_active (value : bool) (extra_fields : ExtraFields) : ExtraFields :=
  {| kw_first_name := kw_first_name extra_fields;
     kw_last_name := kw_last_name extra_fields;
     kw_is_active := Some (default value (kw_is_active extra_fields));
     kw_is_staff := kw_is_staff extra_fields;
     kw_is_superuser := kw_is_superuser extra_fields |}.

Inductive Exception :=
  | ValueError (msg : string)
  | IntegrityError.

(** [self.model(email=email, **extra_fields)]: a keyword that is not passed
    leaves the default of the column. *)
Definition model (email : string) (extra_fields : ExtraFields) : CustomUser :=
  {| email := email;
     password := "";
     first_name := default "" (kw_first_name extra_fields);
     last_name := default "" (kw_last_name extra_fields);
     is_active := default true (kw_is_active extra_fields);
     is_staff := default false (kw_is_staff extra_fields);
     is_superuser := default false (kw_is_superuser extra_fields);
     date_joined := 0;
     updated_at := 0 |}.

(** [user.save()] of a new row: the unique email is enforced, the primary
    key is allotted and both timestamps are set. *)
Definition save_new (table : gmap Z CustomUser) (now : Z) (user : CustomUser)
  : Exception + (Z * CustomUser * gmap Z CustomUser) :=
  if email_taken table None (email user) then inl IntegrityError
  else
    let user :=
      {| email := email user; password := password user;
         first_name := first_name user; last_name := last_name user;
         is_active := is_active user; is_staff := is_staff user;
         is_superuser := is_superuser user;
         date_joined := now; updated_at := now |} in
    let pk := next_pk table in
    inr (pk, user, <[pk := user]> table).

Section CustomUserManager.

(** [BaseUserManager.normalize_email], which lower-cases the domain, and the
    password hasher behind [set_password] are the framework's. *)
Variable normalize_email : string → string.
Variable make_password : string → string.

(** [user.set_password(password)]. *)
Definition set_password (user : CustomUser) (raw_password : string) : CustomUser :=
  {| email := email user; password := make_password raw_password;
     first_name := first_name user; last_name := last_name user;
     is_active := is_active user; is_staff := is_staff user;
     is_superuser := is_superuser user;
     date_joined := date_joined user; updated_at := updated_at user |}.

(** [CustomUserManager.create_user]. *)
Definition create_user (table : gmap Z CustomUser) (now : Z)
    (email : string) (password : string) (extra_fields : ExtraFields)
  : Exception + (Z * CustomUser * gmap Z CustomUser) :=
  if decide (email = "") then inl (ValueError "El email es obligatorio")
  else
    let email := normalize_email email in
    let user := model email extra_fields in
    let user := set_password user password in
    save_new table now user.

(** [CustomUserManager.create_superuser]. *)
Definition create_superuser (table : gmap Z CustomUser) (now : Z)
    (email : string) (password : string) (extra_fields : ExtraFields)
  : Exception + (Z * CustomUser * gmap Z CustomUser) :=
  let extra_fields := setdefault_is_staff true extra_fields in
  let extra_fields := setdefault_is_superuser true extra_fields in
  let extra_fields := setdefault_is_active true extra_fields in
  if negb (bool_decide (kw_is_staff extra_fields = Some true)) then
    inl (ValueError "El superusuario debe tener is_staff=True")
  else if negb (bool_decide (kw_is_superuser extra_fields = Some true)) then
    inl (ValueError "El superusuario debe tener is_superuser=True")
  else create_user table now email password extra_fields.

End CustomUserManager.

(** *** users/serializers.py: [UserSerializer] *)

(** The body of a profile update: one optional entry per field of
    [Meta.fields]. *)
Record ProfileData := mkProfileData {
  d_id : option Z;
  d_email : option string;
  d_first_name : option string;
  d_last_name : option string;
  d_full_name : option string;
  d_date_joined : option Z;
  d_is_active : option bool
}.

(** The validated data: the writable fields.  [id] and [date_joined] are in
    [read_only_fields], [full_name] is a [SerializerMethodField]; these three
    are not read from the body. *)
Record ProfileAttrs := mkProfileAttrs {
  a_email : option string;
  a_first_name : option string;
  a_last_name : option string;
  a_is_active : option bool
}.

Section UserSerializer.

(** The format check of the framework's [EmailField]. *)
Variable valid_email : string → bool.

(** [email]: an [EmailField(max_length=254)], required, with the unique
    validator that the model serializer adds for a unique column; the row
    being updated is left out of the comparison. *)
Definition email_field (table : gmap Z CustomUser) (pk : Z) (partial : bool)
    (data : option string) : FieldResult string :=
  match char_field 254 partial data with
  | Accepted s =>
      if negb (valid_email s) then Rejected "Enter a valid email address."
      else if email_taken table (Some pk) s
           then Rejected "usuario with this correo electrónico already exists."
           else Accepted s
  | other => other
  end.

(** [is_active]: a [BooleanField] that is not required, the column having a
    default. *)
Definition is_active_field (data : option bool) : FieldResult bool :=
  match data with
  | None => Omitted
  | Some b => Accepted b
  end.

(** Field-level validation of the body against the row [pk]. *)
Definition to_internal_value (table : gmap Z CustomUser) (pk : Z)
    (partial : bool) (data : ProfileData) : Errors + ProfileAttrs :=
  let email := email_field table pk partial (d_email data) in
  let first_name := char_field 150 partial (d_first_name data) in
  let last_name := char_field 150 partial (d_last_name data) in
  let is_active := is_active_field (d_is_active data) in
  let errors :=
    errors_of "email" email ++ errors_of "first_name" first_name ++
    errors_of "last_name" last_name ++ errors_of "is_active" is_active in
  match errors with
  | [] => inr {| a_email := value_of email;
                 a_first_name := value_of first_name;
                 a_last_name := value_of last_name;
                 a_is_active := value_of is_active |}
  | _ => inl errors
  end.

(** [ModelSerializer.update]: [setattr] for every key of the validated data,
    then [instance.save()], which refreshes [updated_at]. *)
Definition update_instance (instance : CustomUser) (now : Z) (attrs : ProfileAttrs)
  : CustomUser :=
  {| email := default (email instance) (a_email attrs);
     password := password instance;
     first_name := default (first_name instance) (a_first_name attrs);
     last_name := default (last_name instance) (a_last_name attrs);
     is_active := default (is_active instance) (a_is_active attrs);
     is_staff := is_staff instance;
     is_superuser := is_superuser instance;
     date_joined := date_joined instance;
     updated_at := now |}.

(** *** users/views.py *)

Record Request := mkRequest {
  req_user : option Z;          (* [request.user] when the bearer token is valid *)
  req_data : ProfileData;       (* [request.data] *)
  req_now : Z                   (* [timezone.now()] while it is served *)
}.

(** The same request with other entries for the fields that the serializer
    does not write: [id], [full_name] and [date_joined]. *)
Definition with_read_only_entries (id : option Z) (full_name : option string)
    (date_joined : option Z) (request : Request) : Request :=
  {| req_user := req_user request;
     req_data :=
       {| d_id := id;
          d_email := d_email (req_data request);
          d_first_name := d_first_name (req_data request);
          d_last_name := d_last_name (req_data request);
          d_full_name := full_name;
          d_date_joined := date_joined;
          d_is_active := d_is_active (req_data request) |};
     req_now := req_now request |}.

(** [UserProfileView.get_object]: the authenticated user. *)
Definition get_object (table : gmap Z CustomUser) (request : Request)
  : option (Z * CustomUser) :=
  pk ← req_user request;
  instance ← table !! pk;
  Some (pk, instance).

(** GET /api/auth/me/. *)
Definition retrieve (table : gmap Z CustomUser) (request : Request)
  : Response (Z * CustomUser) * gmap Z CustomUser :=
  match get_object table request with
  | None => (HTTP_401_UNAUTHORIZED, table)
  | Some (pk, instance) => (HTTP_200_OK (pk, instance), table)
  end.

(** PUT and PATCH /api/auth/me/. *)
Definition update (partial : bool) (table : gmap Z CustomUser) (request : Request)
  : Response (Z * CustomUser) * gmap Z CustomUser :=
  match get_object table request with
  | None => (HTTP_401_UNAUTHORIZED, table)
  | Some (pk, instance) =>
      match to_internal_value table pk partial (req_data request) with
      | inl errors => (HTTP_400_BAD_REQUEST errors, table)
      | inr attrs =>
          let instance := update_instance instance (req_now request) attrs in
          (HTTP_200_OK (pk, instance), <[pk := instance]> table)
      end
  end.

(** [UserProfileView], a [RetrieveUpdateAPIView]. *)
Definition UserProfileView (method : Method) (table : gmap Z CustomUser)
    (request : Request) : Response (Z * CustomUser) * gmap Z CustomUser :=
  match method with
  | GET => retrieve table request
  | PUT => update false table request
  | PATCH => update true table request
  | _ => (HTTP_405_METHOD_NOT_ALLOWED, table)
  end.

End UserSerializer.

(** The request of a logout: [refresh] is the entry of the body, [None] when
    it is missing or empty. *)
Record LogoutRequest := mkLogoutRequest {
  logout_user : option Z;
  refresh : option Tokens.RefreshToken;
  logout_now : Z
}.

(** [LogoutView.post]. *)
Definition LogoutView_post (st : Tokens.State) (request : LogoutRequest)
  : Response unit * Tokens.State :=
  match logout_user request with
  | None => (HTTP_401_UNAUTHORIZED, st)
  | Some _ =>
      match refresh request with
      | None =>
          (HTTP_400_BAD_REQUEST [("error", "Se requiere el refresh token.")], st)
      | Some refresh_token =>
          (* token = RefreshToken(refresh_token) *)
          match Tokens.verify st (logout_now request) refresh_token with
          | Some _ =>
              (* except Exception *)
              (HTTP_400_BAD_REQUEST [("error", "Token inválido o expirado.")], st)
          | None =>
              (* token.blacklist() *)
              (HTTP_205_RESET_CONTENT, Tokens.blacklist_token st refresh_token)
          end
      end
  end.

End Users.

(** ** The life of the token service *)

Module Sessions.

(** What a client can do to the state of the token service: obtain a pair of
    tokens (registration and login), ask for a new access token, log out. *)
Inductive Event :=
  | ObtainTokens (now : Z) (user : Z)
  | RefreshAccess (now : Z) (token : Tokens.RefreshToken)
  | Logout (request : Users.LogoutRequest).

Definition step (cfg : Tokens.Settings) (st : Tokens.State) (event : Event)
  : Tokens.State :=
  match event with
  | ObtainTokens now user => (Tokens.issue cfg st now user).2
  | RefreshAccess now token => st
  | Logout request => (Users.LogoutView_post st request).2
  end.

(** The state after a sequence of events, the first one first. *)
Definition run (cfg : Tokens.Settings) (st : Tokens.State) (events : list Event)
  : Tokens.State :=
  foldl (step cfg) st events.

End Sessions.

(** ** The application [expenses] *)

Module Expenses.

(** *** expenses/models.py *)

Inductive Category :=
  | GROCERIES | LEISURE | ELECTRONICS | UTILITIES | CLOTHING | HEALTH | OTHERS.

#[global] Instance Category_eq_dec : EqDecision Category.
Proof. solve_decision. Defined.

(** [Expense.CATEGORY_CHOICES]: (code, human readable name). *)
Definition CATEGORY_CHOICES : list (Category * string) :=
  [ (GROCERIES, "Comestibles");
    (LEISURE, "Entretenimiento");
    (ELECTRONICS, "Electrónicos");
    (UTILITIES, "Servicios Públicos");
    (CLOTHING, "Ropa");
    (HEALTH, "Salud");
    (OTHERS, "Otros") ].

(** The code stored in the [category] column. *)
Definition category_code (c : Category) : string :=
  match c with
  | GROCERIES => "GROCERIES"
  | LEISURE => "LEISURE"
  | ELECTRONICS => "ELECTRONICS"
  | UTILITIES => "UTILITIES"
  | CLOTHING => "CLOTHING"
  | HEALTH => "HEALTH"
  | OTHERS => "OTHERS"
  end.

(** A row of table [expenses]; the primary key [id] is the key of the row in
    the table. *)
Record Expense := mkExpense {
  user : Z;                       (* ForeignKey to the user, by primary key *)
  title : string;
  amount : Z;                     (* cents *)
  category : Category;
  description : option string;    (* blank=True, null=True *)
  date : Z;
  created_at : Z;
  updated_at : Z
}.

#[global] Instance Expense_eq_dec : EqDecision Expense.
Proof. solve_decision. Defined.

(** *** expenses/serializers.py *)

(** The body of a create or update request after parsing: one optional entry
    per key that the client may send, [None] for a key that is not in the
    body.  [d_user] is the client's value for the read-only field [user];
    for [description], [Some None] is JSON [null]. *)
Record ExpenseData := mkExpenseData {
  d_user : option Z;
  d_title : option string;
  d_amount : option Z;                      (* cents *)
  d_category : option string;
  d_description : option (option string);
  d_date : option Z
}.

(** The dictionary [attrs] of validated data: a key is present or not. *)
Record Attrs := mkAttrs {
  a_title : option string;
  a_amount : option Z;
  a_category : option Category;
  a_description : option (option string);
  a_date : option Z
}.

Definition category_of_code (code : string) : option Category :=
  fst <$> find (λ choice, bool_decide (category_code choice.1 = code))
               CATEGORY_CHOICES.

(** [MinValueValidator(0.01)] compares the decimal amount with the binary
    floating point number written [0.01], which is this rational. *)
Definition MIN_AMOUNT : Q := 5764607523034235 # 576460752303423488.

(** [ExpenseSerializer.validate_amount]. *)
Definition validate_amount (value : Z) : FieldResult Z :=
  if decide (value ≤ 0) then Rejected "El monto debe ser mayor a cero."
  else Accepted value.

(** [ExpenseSerializer.validate_date]; [today] is [timezone.now().date()]. *)
Definition validate_date (today : Z) (value : Z) : FieldResult Z :=
  if decide (value > today) then Rejected "La fecha del gasto no puede ser futura."
  else Accepted value.

(** The fields that the model serializer derives from [Expense]:
    [title] is a [CharField(max_length=200)], required and not blank. *)
Definition title_field (partial : bool) (data : option string) : FieldResult string :=
  char_field 200 partial data.

(** [amount] is a [DecimalField(max_digits=10, decimal_places=2)] with the
    minimum value of the model, followed by [validate_amount]. *)
Definition amount_field (partial : bool) (data : option Z) : FieldResult Z :=
  match data with
  | None => missing partial
  | Some a =>
      if decide (10 ^ 10 ≤ Z.abs a)
      then Rejected "Ensure that there are no more than 10 digits in total."
      else if Qlt_le_dec (a # 100) MIN_AMOUNT
           then Rejected "Ensure this value is greater than or equal to 0.01."
           else validate_amount a
  end.

(** [category] is a [ChoiceField] over [CATEGORY_CHOICES]; its message
    quotes the input. *)
Definition category_field (partial : bool) (data : option string) : FieldResult Category :=
  match data with
  | None => missing partial
  | Some code =>
      match category_of_code code with
      | Some c => Accepted c
      | None => Rejected (quoted code +:+ " is not a valid choice.")
      end
  end.

(** [description] is a [CharField] that is optional, may be null and may be
    blank. *)
Definition description_field (data : option (option string))
  : FieldResult (option string) :=
  match data with
  | None => Omitted
  | Some None => Accepted None
  | Some (Some s) =>
      let s := py_strip s in
      if decide (s = "") then Accepted (Some "")
      else match ProhibitNullCharactersValidator s with
           | Rejected msg => Rejected msg
           | _ => Accepted (Some s)
           end
  end.

(** [date] is a required [DateField], followed by [validate_date]. *)
Definition date_field (partial : bool) (today : Z) (data : option Z) : FieldResult Z :=
  match data with
  | None => missing partial
  | Some d => validate_date today d
  end.

(** Field-level validation of the framework: every writable field of
    [Meta.fields] is validated and the errors are collected; the read-only
    fields ([id], [user], [created_at], [updated_at]) are not read from the
    body. *)
Definition to_internal_value (partial : bool) (today : Z) (data : ExpenseData)
  : Errors + Attrs :=
  let title := title_field partial (d_title data) in
  let amount := amount_field partial (d_amount data) in
  let category := category_field partial (d_category data) in
  let description := description_field (d_description data) in
  let date := date_field partial today (d_date data) in
  let errors :=
    errors_of "title" title ++ errors_of "amount" amount ++
    errors_of "category" category ++ errors_of "description" description ++
    errors_of "date" date in
  match errors with
  | [] => inr {| a_title := value_of title; a_amount := value_of amount;
                 a_category := value_of category;
                 a_description := value_of description;
                 a_date := value_of date |}
  | _ => inl errors
  end.

(** One million pesos, in cents. *)
Definition LARGE_AMOUNT : Z := 1000000 * 100.

(** The error that [validate] raises. *)
Definition DESCRIPTION_REQUIRED : Errors :=
  [("description", "Los gastos mayores a $1,000,000 requieren descripción.")].

(** [ExpenseSerializer.validate]: expenses above 1,000,000 need a
    description. *)
Definition validate (attrs : Attrs) : Errors + Attrs :=
  let amount := a_amount attrs in                       (* attrs.get('amount') *)
  let description := a_description attrs ≫= id in       (* attrs.get('description') *)
  match amount with
  | Some amount =>
      if bool_decide (amount ≠ 0) && bool_decide (amount > LARGE_AMOUNT)
         && py_not_str description
      then inl DESCRIPTION_REQUIRED
      else inr attrs
  | None => inr attrs
  end.

(** [serializer.is_valid()]: the fields first, then [validate] on the
    validated data when no field failed. *)
Definition is_valid (partial : bool) (today : Z) (data : ExpenseData)
  : Errors + Attrs :=
  match to_internal_value partial today data with
  | inl errors => inl errors
  | inr attrs => validate attrs
  end.

(** [Expense.objects.create(user=user, **validated_data)]; both timestamps
    are set on creation, and a missing [description] is stored as null. *)
Definition create_instance (u : Z) (now : Z) (attrs : Attrs) : option Expense :=
  t ← a_title attrs;
  a ← a_amount attrs;
  c ← a_category attrs;
  d ← a_date attrs;
  Some {| user := u; title := t; amount := a; category := c;
          description := a_description attrs ≫= id; date := d;
          created_at := now; updated_at := now |}.

(** [ModelSerializer.update]: [setattr] for every key of the validated data,
    then [instance.save()], which refreshes [updated_at]. *)
Definition update_instance (instance : Expense) (now : Z) (attrs : Attrs) : Expense :=
  {| user := user instance;
     title := default (title instance) (a_title attrs);
     amount := default (amount instance) (a_amount attrs);
     category := default (category instance) (a_category attrs);
     description := default (description instance) (a_description attrs);
     date := default (date instance) (a_date attrs);
     created_at := created_at instance;
     updated_at := now |}.

(** *** The aggregates of the ORM over a queryset of expenses *)

(** The sum of column [amount], zero for no row. *)
Definition amount_total (qs : gmap Z Expense) : Z :=
  map_fold (λ _ e acc, amount e + acc) 0 qs.

(** [Count('id')]. *)
Definition Count (qs : gmap Z Expense) : nat := size qs.

(** [Sum('amount')]: SQL [SUM] is [NULL] over no row. *)
Definition Sum (qs : gmap Z Expense) : option Z :=
  if decide (qs = ∅) then None else Some (amount_total qs).

(** The quotient of the sum of column [amount] by the number of rows. *)
Definition amount_quotient (qs : gmap Z Expense) : Q :=
  (inject_Z (amount_total qs) / inject_Z (Z.of_nat (size qs)))%Q.

(** The database, for what the application leaves to it: SQL [AVG] over
    column [amount] of rows.  Its result is the quotient of the sum by the
    number of rows at the precision of the database, which is in no source
    file; it is taken to be within less than half a cent of the quotient. *)
Class Database := {
  AVG : gmap Z Expense → Q;
  AVG_precision (qs : gmap Z Expense) :
    qs ≠ ∅ → (Qabs (AVG qs - amount_quotient qs) < 1 # 2)%Q
}.

(** [Avg('amount')]: SQL [AVG] is [NULL] over no row. *)
Definition Avg {database : Database} (qs : gmap Z Expense) : option Q :=
  if decide (qs = ∅) then None else Some (AVG qs).

(** [qs.filter(category=code)]. *)
Definition filter_category (code : Category) (qs : gmap Z Expense) : gmap Z Expense :=
  filter (λ kv, category kv.2 = code) qs.

(** [Expense.objects.filter(user=u)]. *)
Definition filter_user (u : Z) (table : gmap Z Expense) : gmap Z Expense :=
  filter (λ kv, user kv.2 = u) table.

(** *** expenses/views.py: the statistics *)

(** The dictionary [stats] handed to [ExpenseStatsSerializer]. *)
Record Stats := mkStats {
  total_expenses : nat;
  total_amount : Z;                 (* cents *)
  average_amount : Q;               (* cents *)
  by_category : gmap string Z       (* category name -> cents *)
}.

(** The loop over [Expense.CATEGORY_CHOICES] in [ExpenseViewSet.stats]:
    [by_category[category_name] = category_total['total'] or 0]. *)
Definition stats_by_category (expenses : gmap Z Expense) : gmap string Z :=
  foldl (λ (acc : gmap string Z) choice,
           let category_code := choice.1 in
           let category_name := choice.2 in
           let category_total := Sum (filter_category category_code expenses) in
           <[category_name := py_or_0 category_total]> acc)
        ∅ CATEGORY_CHOICES.

(** The body of [ExpenseViewSet.stats] from the queryset of the caller to
    the dictionary [stats] that goes to the serializer. *)
Definition compute_stats {database : Database} (expenses : gmap Z Expense)
  : Stats :=
  let total_expenses := Count expenses in
  let total_amount := Sum expenses in
  let average_amount := Avg expenses in
  (* if stats['total_amount'] is None: stats['total_amount'] = 0 *)
  let total_amount := match total_amount with None => 0 | Some t => t end in
  (* if stats['average_amount'] is None: stats['average_amount'] = 0 *)
  let average_amount := match average_amount with None => 0%Q | Some a => a end in
  {| total_expenses := total_expenses;
     total_amount := total_amount;
     average_amount := average_amount;
     by_category := stats_by_category expenses |}.

(** The sum of the values of a [by_category] dictionary. *)
Definition sum_values (d : gmap string Z) : Z :=
  map_fold (λ _ v acc, v + acc) 0 d.

(** *** expenses/serializers.py: [ExpenseStatsSerializer] *)

(** Rounding to the nearest integer, a tie going to the even one: the
    rounding of the decimal context. *)
Definition round_half_even (q : Q) : Z :=
  let f := Qfloor q in
  match (q - inject_Z f ?= 1 # 2)%Q with
  | Lt => f
  | Gt => f + 1
  | Eq => if Z.even f then f else f + 1
  end.

(** [DecimalField(max_digits=10, decimal_places=2)] on output: the value is
    quantized to two decimal places, here to a whole number of cents, in a
    decimal context with ten digits of precision; a result with more digits
    is an [InvalidOperation] of the decimal module, [None] here. *)
Definition DecimalField_to_representation (value : Q) : option Z :=
  let cents := round_half_even value in
  if decide (Z.abs cents < 10 ^ 10) then Some cents else None.

(** [serializer.data]: what the response carries. *)
Record StatsData := mkStatsData {
  data_total_expenses : nat;
  data_total_amount : Z;            (* cents *)
  data_average_amount : Z;          (* cents *)
  data_by_category : gmap string Z  (* a [DictField]: the values as they are *)
}.

(** [ExpenseStatsSerializer(stats).data]. *)
Definition ExpenseStatsSerializer (stats : Stats) : option StatsData :=
  total ← DecimalField_to_representation (inject_Z (total_amount stats));
  average ← DecimalField_to_representation (average_amount stats);
  Some {| data_total_expenses := total_expenses stats;
          data_total_amount := total;
          data_average_amount := average;
          data_by_category := by_category stats |}.

(** *** expenses/filters.py *)

(** The query string of a request, parsed by the declared filters
    ([ChoiceFilter], [DateFilter], [NumberFilter], [CharFilter]); [None] is
    a parameter that is absent or empty.  [q_search] holds the terms of the
    [search] parameter.  A query string with a value that its filter does
    not parse has no counterpart here: the filter backend answers it with
    400, on the list and on the detail routes, before any row is selected. *)
Record QueryParams := mkQueryParams {
  q_category : option Category;
  q_start_date : option Z;
  q_end_date : option Z;
  q_min_amount : option Z;
  q_max_amount : option Z;
  q_period : option string;
  q_search : list string
}.

(** A query string with no parameter at all. *)
Definition no_params : QueryParams :=
  {| q_category := None; q_start_date := None; q_end_date := None;
     q_min_amount := None; q_max_amount := None; q_period := None;
     q_search := [] |}.


(** [ExpenseFilter.filter_by_period]; [today] is [timezone.now().date()]. *)
Definition filter_by_period (today : Z) (queryset : gmap Z Expense) (value : string)
  : gmap Z Expense :=
  if decide (value = "week") then
    let start_date := today - 7 in
    filter (λ kv, date kv.2 >= start_date) queryset
  else if decide (value = "month") then
    let start_date := today - 30 in
    filter (λ kv, date kv.2 >= start_date) queryset
  else if decide (value = "3months") then
    let start_date := today - 90 in
    filter (λ kv, date kv.2 >= start_date) queryset
  else queryset.

(** A declared filter is applied when its parameter has a value. *)
Definition apply_filter {A} (f : gmap Z Expense → A → gmap Z Expense)
    (value : option A) (queryset : gmap Z Expense) : gmap Z Expense :=
  match value with
  | Some v => f queryset v
  | None => queryset
  end.

(** [ExpenseFilter]: the declared filters, one after the other. *)
Definition ExpenseFilter (today : Z) (params : QueryParams)
    (queryset : gmap Z Expense) : gmap Z Expense :=
  let queryset :=
    apply_filter (λ qs v, filter (λ kv, category kv.2 = v) qs)
                 (q_category params) queryset in
  let queryset :=
    apply_filter (λ qs v, filter (λ kv, date kv.2 >= v) qs)        (* date__gte *)
                 (q_start_date params) queryset in
  let queryset :=
    apply_filter (λ qs v, filter (λ kv, date kv.2 ≤ v) qs)        (* date__lte *)
                 (q_end_date params) queryset in
  let queryset :=
    apply_filter (λ qs v, filter (λ kv, amount kv.2 >= v) qs)      (* amount__gte *)
                 (q_min_amount params) queryset in
  let queryset :=
    apply_filter (λ qs v, filter (λ kv, amount kv.2 ≤ v) qs)      (* amount__lte *)
                 (q_max_amount params) queryset in
  apply_filter (filter_by_period today) (q_period params) queryset.

(** *** expenses/permissions.py *)

(** [IsOwner.has_object_permission]. *)
Definition IsOwner_has_object_permission (request_user : Z) (obj : Expense) : bool :=
  bool_decide (user obj = request_user).

(** [permissions.SAFE_METHODS], among the methods above. *)
Definition SAFE_METHODS : list Method := [GET].

(** [IsOwnerOrReadOnly.has_object_permission]; no view uses it. *)
Definition IsOwnerOrReadOnly_has_object_permission
    (method : Method) (request_user : Z) (obj : Expense) : bool :=
  if bool_decide (method ∈ SAFE_METHODS) then true
  else bool_decide (user obj = request_user).

(** *** expenses/views.py *)

Record Request := mkRequest {
  req_user : option Z;          (* [request.user] when the bearer token is valid *)
  req_query : QueryParams;      (* [request.query_params] *)
  req_data : ExpenseData;       (* [request.data] *)
  req_today : Z;                (* [timezone.now().date()] while it is served *)
  req_now : Z                   (* [timezone.now()] while it is served *)
}.

Inductive Body :=
  | Detail (pk : Z) (instance : Expense)
  | Results (queryset : gmap Z Expense)
  | Statistics (data : StatsData).

Section ExpenseViewSet.

(** [icontains haystack needle]: the case-insensitive containment test of the
    database, which [SearchFilter] uses on [search_fields]. *)
Variable icontains : string → string → bool.

(** [SearchFilter] with [search_fields = ['title', 'description']]: every
    term is found in one of the fields. *)
Definition matches_search (terms : list string) (obj : Expense) : bool :=
  forallb (λ term,
             icontains (title obj) term
             || from_option (λ d, icontains d term) false (description obj))
          terms.

(** The same request with another entry for the read-only field [user]. *)
Definition with_user_entry (supplied : option Z) (request : Request) : Request :=
  {| req_user := req_user request;
     req_query := req_query request;
     req_data :=
       {| d_user := supplied;
          d_title := d_title (req_data request);
          d_amount := d_amount (req_data request);
          d_category := d_category (req_data request);
          d_description := d_description (req_data request);
          d_date := d_date (req_data request) |};
     req_today := req_today request;
     req_now := req_now request |}.

(** [ExpenseViewSet.get_queryset]. *)
Definition get_queryset (request_user : Z) (table : gmap Z Expense) : gmap Z Expense :=
  filter_user request_user table.

(** [filter_queryset] with [filter_backends = [DjangoFilterBackend,
    SearchFilter, OrderingFilter]]; ordering does not change which rows are
    selected. *)
Definition filter_queryset (request : Request) (queryset : gmap Z Expense)
  : gmap Z Expense :=
  let queryset := ExpenseFilter (req_today request) (req_query request) queryset in
  filter (λ kv, matches_search (q_search (req_query request)) kv.2 = true) queryset.

(** [get_object] of the generic view: look the key up in the filtered
    queryset of the view (404 when it is not there), then check the object
    permissions (403 when one refuses). *)
Definition get_object (table : gmap Z Expense) (request : Request)
    (request_user : Z) (pk : Z) : Response Body + Expense :=
  let queryset := filter_queryset request (get_queryset request_user table) in
  match queryset !! pk with
  | None => inl HTTP_404_NOT_FOUND
  | Some obj =>
      if IsOwner_has_object_permission request_user obj then inr obj
      else inl HTTP_403_FORBIDDEN
  end.

(** [list]: GET /api/expenses/. *)
Definition list_ (table : gmap Z Expense) (request : Request)
  : Response Body * gmap Z Expense :=
  match req_user request with
  | None => (HTTP_401_UNAUTHORIZED, table)
  | Some u =>
      (HTTP_200_OK (Results (filter_queryset request (get_queryset u table))), table)
  end.

(** [create]: POST /api/expenses/, with [perform_create] saving
    [serializer.save(user=self.request.user)]. *)
Definition create (table : gmap Z Expense) (request : Request)
  : Response Body * gmap Z Expense :=
  match req_user request with
  | None => (HTTP_401_UNAUTHORIZED, table)
  | Some u =>
      match is_valid false (req_today request) (req_data request) with
      | inl errors => (HTTP_400_BAD_REQUEST errors, table)
      | inr attrs =>
          match create_instance u (req_now request) attrs with
          | Some instance =>
              let pk := next_pk table in
              (HTTP_201_CREATED (Detail pk instance), <[pk := instance]> table)
          | None => (HTTP_500_INTERNAL_SERVER_ERROR, table)
          end
      end
  end.

(** [retrieve]: GET /api/expenses/{id}/. *)
Definition retrieve (table : gmap Z Expense) (request : Request) (pk : Z)
  : Response Body * gmap Z Expense :=
  match req_user request with
  | None => (HTTP_401_UNAUTHORIZED, table)
  | Some u =>
      match get_object table request u pk with
      | inl response => (response, table)
      | inr instance => (HTTP_200_OK (Detail pk instance), table)
      end
  end.

(** [update] and [partial_update]: PUT and PATCH /api/expenses/{id}/. *)
Definition update (partial : bool) (table : gmap Z Expense) (request : Request)
    (pk : Z) : Response Body * gmap Z Expense :=
  match req_user request with
  | None => (HTTP_401_UNAUTHORIZED, table)
  | Some u =>
      match get_object table request u pk with
      | inl response => (response, table)
      | inr instance =>
          match is_valid partial (req_today request) (req_data request) with
          | inl errors => (HTTP_400_BAD_REQUEST errors, table)
          | inr attrs =>
              let instance := update_instance instance (req_now request) attrs in
              (HTTP_200_OK (Detail pk instance), <[pk := instance]> table)
          end
      end
  end.

(** [destroy]: DELETE /api/expenses/{id}/. *)
Definition destroy (table : gmap Z Expense) (request : Request) (pk : Z)
  : Response Body * gmap Z Expense :=
  match req_user request with
  | None => (HTTP_401_UNAUTHORIZED, table)
  | Some u =>
      match get_object table request u pk with
      | inl response => (response, table)
      | inr instance => (HTTP_204_NO_CONTENT, delete pk table)
      end
  end.

(** [ExpenseViewSet.stats]: GET /api/expenses/stats/.  An exception of the
    serializer is not one that the framework turns into a response of its
    own: the server answers 500. *)
Definition stats {database : Database} (table : gmap Z Expense)
    (request : Request)
  : Response Body * gmap Z Expense :=
  match req_user request with
  | None => (HTTP_401_UNAUTHORIZED, table)
  | Some u =>
      let expenses := get_queryset u table in
      let stats := compute_stats expenses in
      match ExpenseStatsSerializer stats with
      | Some data => (HTTP_200_OK (Statistics data), table)
      | None => (HTTP_500_INTERNAL_SERVER_ERROR, table)
      end
  end.

(** expenses/urls.py: the routes that the router derives from the view set. *)
Definition expense_list (method : Method) (table : gmap Z Expense)
    (request : Request) : Response Body * gmap Z Expense :=
  match method with
  | GET => list_ table request
  | POST => create table request
  | _ => (HTTP_405_METHOD_NOT_ALLOWED, table)
  end.

Definition expense_detail (method : Method) (table : gmap Z Expense)
    (request : Request) (pk : Z) : Response Body * gmap Z Expense :=
  match method with
  | GET => retrieve table request pk
  | PUT => update false table request pk
  | PATCH => update true table request pk
  | DELETE => destroy table request pk
  | POST => (HTTP_405_METHOD_NOT_ALLOWED, table)
  end.

End ExpenseViewSet.

End Expenses.

(** ** Test data *)

(** The data that the test suites set up, with the stand-ins that closed
    examples need for the functions of the framework. *)
Module Fixtures.

(** [date.today()] and [timezone.now()] of the examples: 15 January 2024. *)
Definition today : Z := 738900.
Definition now : Z := 1705312800.

(** Case-sensitive containment, a stand-in for the containment test of the
    database. *)
Fixpoint contains (haystack needle : string) : bool :=
  String.prefix needle haystack
  || match haystack with
     | String _ rest => contains rest needle
     | EmptyString => false
     end.

(** A stand-in for the format check of [EmailField]: a name, one [@] and a
    domain with a dot. *)
Definition simple_email (s : string) : bool :=
  match String.index 0 "@" s with
  | Some (S n) =>
      let domain := String.substring (S (S n)) (String.length s) s in
      match String.index 0 "@" domain, String.index 0 "." domain with
      | None, Some (S _) => true
      | _, _ => false
      end
  | _ => false
  end.

(** ASCII lower case. *)
Definition ascii_lower (a : Ascii.ascii) : Ascii.ascii :=
  let n := Ascii.nat_of_ascii a in
  if (65 <=? n)%nat && (n <=? 90)%nat then Ascii.ascii_of_nat (n + 32) else a.

Fixpoint lower (s : string) : string :=
  match s with
  | String a rest => String (ascii_lower a) (lower rest)
  | EmptyString => EmptyString
  end.

(** The framework's [normalize_email] on ASCII: the part after the last [@]
    of the stripped address is lower-cased; an address without [@] is
    returned as it is. *)
Definition normalize_email (email : string) : string :=
  let reversed := String.rev (py_strip email) in
  match String.index 0 "@" reversed with
  | Some n =>
      let domain := String.rev (String.substring 0 n reversed) in
      let name :=
        String.rev (String.substring (S n) (String.length reversed) reversed) in
      name +:+ "@" +:+ lower domain
  | None => email
  end.

(** A stand-in for the password hasher. *)
Definition make_password (raw_password : string) : string :=
  "hashed$" +:+ raw_password.

(** A stand-in for the check of a password against a stored hash, and one
    for the password validators: at least eight characters. *)
Definition check_password_hash (raw_password hashed : string) : bool :=
  bool_decide (make_password raw_password = hashed).

Definition validate_password (raw_password : string) : bool :=
  bool_decide (8 ≤ py_len raw_password)%nat.

(** A database whose [AVG] is the quotient. *)
Lemma amount_quotient_precision (qs : gmap Z Expenses.Expense) :
  qs ≠ ∅ →
  (Qabs (Expenses.amount_quotient qs - Expenses.amount_quotient qs) < 1 # 2)%Q.
Proof.
  intros _.
  assert (Hzero : (Expenses.amount_quotient qs - Expenses.amount_quotient qs == 0)%Q)
    by apply Qplus_opp_r.
  by rewrite Hzero.
Qed.

#[global] Instance database : Expenses.Database :=
  {| Expenses.AVG := Expenses.amount_quotient;
     Expenses.AVG_precision := amount_quotient_precision |}.

(** [ExpenseViewSetTest.setUp]: two users and their expenses. *)
Definition user1 : Users.CustomUser :=
  Users.mkCustomUser "user1@example.com" (make_password "Password123!")
    "User" "One" true false false now now.

Definition user2 : Users.CustomUser :=
  Users.mkCustomUser "user2@example.com" (make_password "Password123!")
    "User" "Two" true false false now now.

Definition users : gmap Z Users.CustomUser := <[2 := user2]> (<[1 := user1]> ∅).

Definition expense1 : Expenses.Expense :=
  Expenses.mkExpense 1 "Gasto 1" 1000000 Expenses.GROCERIES None today now now.

Definition expense2 : Expenses.Expense :=
  Expenses.mkExpense 1 "Gasto 2" 2000000 Expenses.LEISURE None (today - 1) now now.

Definition expense3 : Expenses.Expense :=
  Expenses.mkExpense 2 "Gasto User 2" 3000000 Expenses.ELECTRONICS None today now now.

Definition expenses : gmap Z Expenses.Expense :=
  <[3 := expense3]> (<[2 := expense2]> (<[1 := expense1]> ∅)).

(** [ExpenseFilterTest.setUp]: three expenses of one user, dated today, five
    days ago and ten days ago. *)
Definition filter_expenses : gmap Z Expenses.Expense :=
  <[3 := Expenses.mkExpense 1 "Gasto Electrónicos" 20000000
           Expenses.ELECTRONICS None (today - 10) now now]>
  (<[2 := Expenses.mkExpense 1 "Gasto Entretenimiento" 5000000
            Expenses.LEISURE None (today - 5) now now]>
   (<[1 := Expenses.mkExpense 1 "Gasto Comestibles" 1000000
             Expenses.GROCERIES None today now now]> ∅)).

(** [ExpenseStatsTest.setUp]: 10000.00 and 20000.00 of groceries and
    30000.00 of leisure. *)
Definition stats_expenses : gmap Z Expenses.Expense :=
  <[3 := Expenses.mkExpense 1 "Gasto 3" 3000000 Expenses.LEISURE None today now now]>
  (<[2 := Expenses.mkExpense 1 "Gasto 2" 2000000 Expenses.GROCERIES None today now now]>
   (<[1 := Expenses.mkExpense 1 "Gasto 1" 1000000 Expenses.GROCERIES None today now now]> ∅)).

(** A profile update that sends a new email and a date of registration. *)
Definition new_email : Users.ProfileData :=
  Users.mkProfileData None (Some "new@example.com") None None None (Some 0) None.

(** [test_create_superuser], and the same with [is_active=False]. *)
Definition admin_fields : Users.ExtraFields :=
  Users.mkExtraFields (Some "Admin") (Some "User") None None None.

Definition inactive_admin_fields : Users.ExtraFields :=
  Users.mkExtraFields (Some "Admin") (Some "User") (Some false) None None.

(** The settings of the token service in the examples: five minutes and one
    day. *)
Definition settings : Tokens.Settings := Tokens.mkSettings 300 86400.

(** [test_logout_success]: a refresh token of the first user, and the state
    of the token service in which it was issued. *)
Definition refresh_token : Tokens.RefreshToken := Tokens.Signed 1 1 (now + 86400).

Definition issued : Tokens.State := Tokens.mkState ∅ 2.

(** A body without any entry. *)
Definition no_data : Expenses.ExpenseData :=
  Expenses.mkExpenseData None None None None None None.

(** An authenticated request. *)
Definition request_of (u : Z) (query : Expenses.QueryParams)
    (data : Expenses.ExpenseData) : Expenses.Request :=
  Expenses.mkRequest (Some u) query data today now.

(** [test_create_expense_large_amount_without_description]. *)
Definition large_without_description : Expenses.ExpenseData :=
  Expenses.mkExpenseData None (Some "Gasto Grande") (Some 200000000)
    (Some "ELECTRONICS") None (Some today).

(** [test_create_expense_success], without its description, and with an
    owner that the client made up. *)
Definition small_without_description : Expenses.ExpenseData :=
  Expenses.mkExpenseData (Some 2) (Some "Nuevo Gasto") (Some 5000000)
    (Some "UTILITIES") None (Some today).

(** An expense of the first user with a description. *)
Definition described : Expenses.Expense :=
  Expenses.mkExpense 1 "Supermercado" 5000000 Expenses.GROCERIES
    (Some "Compra del mes") today now now.

Definition described_only : gmap Z Expenses.Expense := <[1 := described]> ∅.

(** A partial update that only raises the amount. *)
Definition raise_amount : Expenses.ExpenseData :=
  Expenses.mkExpenseData None None (Some 200000000) None None None.

End Fixtures.

(** ** The application [users]: registration, login and change of password *)

(** The rest of [users/serializers.py] and [users/views.py]. *)
Module Accounts.

Import Users.

(** No two rows of table [users] have the same email: what [unique=True]
    asks of the table. *)
Definition emails_unique (table : gmap Z CustomUser) : Prop :=
  ∀ pk1 pk2 user1 user2,
    table !! pk1 = Some user1 → table !! pk2 = Some user2 →
    email user1 = email user2 → pk1 = pk2.

(** The outcome of [User.objects.get(email=value)]. *)
Inductive GetResult :=
  | DoesNotExist
  | MultipleObjectsReturned
  | Got (pk : Z) (user : CustomUser).

(** [User.objects.get(email=value)]. *)
Definition objects_get (table : gmap Z CustomUser) (value : string) : GetResult :=
  match map_to_list (filter (λ kv, email kv.2 = value) table) with
  | [] => DoesNotExist
  | [(pk, user)] => Got pk user
  | _ => MultipleObjectsReturned
  end.

(** A required [CharField] with no [max_length], which may not be blank. *)
Definition required_char_field (data : option string) : FieldResult string :=
  match data with
  | None => Rejected "This field is required."
  | Some s =>
      let s := py_strip s in
      if decide (s = "") then Rejected "This field may not be blank."
      else ProhibitNullCharactersValidator s
  end.

(** What the responses of registration and login carry: the user and the two
    tokens. *)
Record AuthData := mkAuthData {
  data_user : Z * CustomUser;
  data_refresh : Tokens.RefreshToken;
  data_access : Tokens.AccessToken
}.

(** The tables that the views of the application work on. *)
Record Database := mkDatabase {
  users : gmap Z CustomUser;
  tokens : Tokens.State
}.

(** *** users/serializers.py *)

(** The body of a registration. *)
Record RegisterData := mkRegisterData {
  r_email : option string;
  r_password : option string;
  r_password2 : option string;
  r_first_name : option string;
  r_last_name : option string
}.

(** The validated data of a registration: every field is required. *)
Record RegisterAttrs := mkRegisterAttrs {
  v_email : string;
  v_password : string;
  v_password2 : string;
  v_first_name : string;
  v_last_name : string
}.

(** The body of a login. *)
Record LoginData := mkLoginData {
  l_email : option string;
  l_password : option string
}.

(** The body of a change of password. *)
Record ChangePasswordData := mkChangePasswordData {
  c_old_password : option string;
  c_new_password : option string;
  c_new_password2 : option string
}.

Record ChangePasswordAttrs := mkChangePasswordAttrs {
  v_old_password : string;
  v_new_password : string;
  v_new_password2 : string
}.

Section Framework.

(** The framework's part: the format check of [EmailField], the password
    validators behind [validate_password], [normalize_email], the password
    hasher behind [set_password], and the check of a password against a
    stored hash behind [check_password]. *)
Variable valid_email : string → bool.
Variable validate_password : string → bool.
Variable normalize_email : string → string.
Variable make_password : string → string.
Variable check_password_hash : string → string → bool.

(** [user.check_password(raw_password)]. *)
Definition check_password (user : CustomUser) (raw_password : string) : bool :=
  check_password_hash raw_password (password user).

(** A required [EmailField]. *)
Definition required_email_field (data : option string) : FieldResult string :=
  match required_char_field data with
  | Accepted s =>
      if negb (valid_email s) then Rejected "Enter a valid email address."
      else Accepted s
  | other => other
  end.

(** [RegisterSerializer.email]: a required [EmailField] with a
    [UniqueValidator] over all users. *)
Definition register_email_field (table : gmap Z CustomUser) (data : option string)
  : FieldResult string :=
  match required_email_field data with
  | Accepted s =>
      if email_taken table None s
      then Rejected "Este correo electrónico ya está registrado."
      else Accepted s
  | other => other
  end.

(** A required [CharField] with [validators=[validate_password]]. *)
Definition new_password_field (data : option string) : FieldResult string :=
  match required_char_field data with
  | Accepted s =>
      if validate_password s then Accepted s
      else Rejected "This password is not secure enough."
  | other => other
  end.

(** Field-level validation of [RegisterSerializer]. *)
Definition register_to_internal_value (table : gmap Z CustomUser)
    (data : RegisterData) : Errors + RegisterAttrs :=
  let email := register_email_field table (r_email data) in
  let password := new_password_field (r_password data) in
  let password2 := required_char_field (r_password2 data) in
  let first_name := char_field 150 false (r_first_name data) in
  let last_name := char_field 150 false (r_last_name data) in
  match email, password, password2, first_name, last_name with
  | Accepted e, Accepted p, Accepted p2, Accepted f, Accepted l =>
      inr {| v_email := e; v_password := p; v_password2 := p2;
             v_first_name := f; v_last_name := l |}
  | _, _, _, _, _ =>
      inl (errors_of "email" email ++ errors_of "password" password ++
           errors_of "password2" password2 ++ errors_of "first_name" first_name ++
           errors_of "last_name" last_name)
  end.

(** [RegisterSerializer.validate]. *)
Definition RegisterSerializer_validate (attrs : RegisterAttrs)
  : Errors + RegisterAttrs :=
  if decide (v_password attrs ≠ v_password2 attrs) then
    inl [("password", "Las contraseñas no coinciden.")]
  else inr attrs.

(** [RegisterSerializer.create]: [password2] is dropped and the rest goes to
    [create_user] as keyword arguments. *)
Definition RegisterSerializer_create (table : gmap Z CustomUser) (now : Z)
    (validated_data : RegisterAttrs)
  : Exception + (Z * CustomUser * gmap Z CustomUser) :=
  create_user normalize_email make_password table now
    (v_email validated_data) (v_password validated_data)
    {| kw_first_name := Some (v_first_name validated_data);
       kw_last_name := Some (v_last_name validated_data);
       kw_is_active := None; kw_is_staff := None; kw_is_superuser := None |}.

(** The row that [create_user] stores for the validated data of a
    registration. *)
Definition registered (now : Z) (attrs : RegisterAttrs) : CustomUser :=
  {| email := normalize_email (v_email attrs);
     password := make_password (v_password attrs);
     first_name := v_first_name attrs;
     last_name := v_last_name attrs;
     is_active := true; is_staff := false; is_superuser := false;
     date_joined := now; updated_at := now |}.

(** Field-level validation of [LoginSerializer]. *)
Definition login_to_internal_value (data : LoginData) : Errors + (string * string) :=
  let email := required_email_field (l_email data) in
  let password := required_char_field (l_password data) in
  match email, password with
  | Accepted e, Accepted p => inr (e, p)
  | _, _ => inl (errors_of "email" email ++ errors_of "password" password)
  end.

(** Field-level validation of [ChangePasswordSerializer]. *)
Definition change_password_to_internal_value (data : ChangePasswordData)
  : Errors + ChangePasswordAttrs :=
  let old_password := required_char_field (c_old_password data) in
  let new_password := new_password_field (c_new_password data) in
  let new_password2 := required_char_field (c_new_password2 data) in
  match old_password, new_password, new_password2 with
  | Accepted o, Accepted n, Accepted n2 =>
      inr {| v_old_password := o; v_new_password := n; v_new_password2 := n2 |}
  | _, _, _ =>
      inl (errors_of "old_password" old_password ++
           errors_of "new_password" new_password ++
           errors_of "new_password2" new_password2)
  end.

(** [ChangePasswordSerializer.validate]. *)
Definition ChangePasswordSerializer_validate (attrs : ChangePasswordAttrs)
  : Errors + ChangePasswordAttrs :=
  if decide (v_new_password attrs ≠ v_new_password2 attrs) then
    inl [("new_password", "Las contraseñas no coinciden.")]
  else inr attrs.

(** *** users/views.py *)

Variable cfg : Tokens.Settings.

(** [RegisterView.create]: POST /api/auth/register/, open to anyone.  An
    exception of [serializer.save()] is not caught: the server answers 500. *)
Definition RegisterView_create (db : Database) (now : Z) (data : RegisterData)
  : Response AuthData * Database :=
  match register_to_internal_value (users db) data with
  | inl errors => (HTTP_400_BAD_REQUEST errors, db)
  | inr attrs =>
      match RegisterSerializer_validate attrs with
      | inl errors => (HTTP_400_BAD_REQUEST errors, db)
      | inr validated_data =>
          match RegisterSerializer_create (users db) now validated_data with
          | inl _ => (HTTP_500_INTERNAL_SERVER_ERROR, db)
          | inr (pk, user, table) =>
              (* refresh = RefreshToken.for_user(user) *)
              let '((access, refresh), st) := Tokens.issue cfg (tokens db) now pk in
              (HTTP_201_CREATED
                 {| data_user := (pk, user); data_refresh := refresh;
                    data_access := access |},
               {| users := table; tokens := st |})
          end
      end
  end.

(** [authenticate(request, username=email, password=password)] with the
    model backend: the user with this email, when the password is the
    user's and the user is active. *)
Definition authenticate (table : gmap Z CustomUser) (username password : string)
  : option (Z * CustomUser) :=
  match objects_get table username with
  | Got pk user =>
      if check_password user password && is_active user then Some (pk, user)
      else None
  | _ => None
  end.

(** [LoginView.post]: POST /api/auth/login/, open to anyone. *)
Definition LoginView_post (db : Database) (now : Z) (data : LoginData)
  : Response AuthData * Database :=
  match login_to_internal_value data with
  | inl errors => (HTTP_400_BAD_REQUEST errors, db)
  | inr (email, password) =>
      let inactive :=
        match objects_get (users db) email with
        | Got _ user => Some (negb (is_active user))
        | DoesNotExist => Some false
        | MultipleObjectsReturned => None   (* not caught *)
        end in
      match inactive with
      | None => (HTTP_500_INTERNAL_SERVER_ERROR, db)
      | Some true =>
          (HTTP_403_FORBIDDEN, db)
      | Some false =>
          match authenticate (users db) email password with
          | Some (pk, user) =>
              let '((access, refresh), st) := Tokens.issue cfg (tokens db) now pk in
              (HTTP_200_OK
                 {| data_user := (pk, user); data_refresh := refresh;
                    data_access := access |},
               {| users := users db; tokens := st |})
          | None => (HTTP_401_UNAUTHORIZED, db)
          end
      end
  end.

(** [ChangePasswordView.post]: POST /api/auth/change-password/, for an
    authenticated user; [request_user] is the primary key of [request.user]. *)
Definition ChangePasswordView_post (db : Database) (now : Z)
    (request_user : option Z) (data : ChangePasswordData)
  : Response unit * Database :=
  match request_user ≫= λ pk, (λ user, (pk, user)) <$> users db !! pk with
  | None => (HTTP_401_UNAUTHORIZED, db)
  | Some (pk, user) =>
      match change_password_to_internal_value data with
      | inl errors => (HTTP_400_BAD_REQUEST errors, db)
      | inr attrs =>
          match ChangePasswordSerializer_validate attrs with
          | inl errors => (HTTP_400_BAD_REQUEST errors, db)
          | inr validated_data =>
              if negb (check_password user (v_old_password validated_data)) then
                (HTTP_400_BAD_REQUEST
                   [("error", "La contraseña actual es incorrecta.")], db)
              else
                let user :=
                  set_password make_password user (v_new_password validated_data) in
                (* user.save() *)
                let user :=
                  {| email := email user; password := password user;
                     first_name := first_name user; last_name := last_name user;
                     is_active := is_active user; is_staff := is_staff user;
                     is_superuser := is_superuser user;
                     date_joined := date_joined user; updated_at := now |} in
                (HTTP_200_OK (), {| users := <[pk := user]> (users db);
                                    tokens := tokens db |})
          end
      end
  end.

End Framework.

End Accounts.

(** ** The application [expenses]: the rest of the model *)

Module Ledger.

Import Expenses.

(** [dict(self.CATEGORY_CHOICES)]: from the code to the name. *)
Definition CATEGORY_CHOICES_dict : list (string * string) :=
  (λ choice, (category_code choice.1, choice.2)) <$> CATEGORY_CHOICES.

(** [dict(self.CATEGORY_CHOICES).get(code, code)] for a value [code] of
    column [category]: the name of the code, and the value itself when it
    is not the code of a choice. *)
Definition category_display (code : string) : string :=
  default code
    (snd <$> find (λ entry, bool_decide (entry.1 = code)) CATEGORY_CHOICES_dict).

(** [Expense.get_category_display_custom]. *)
Definition get_category_display_custom (self : Expense) : string :=
  category_display (category_code (category self)).

(** What the validation lets into a row: a title that is not empty and has
    at most 200 characters, an amount from 0.02 to 99,999,999.99, a date
    that is not after [today], and a description when the amount is above
    1,000,000. *)
Definition well_formed (today : Z) (e : Expense) : Prop :=
  title e ≠ "" ∧ (py_len (title e) ≤ 200)%nat
  ∧ 2 ≤ amount e < 10 ^ 10
  ∧ date e ≤ today
  ∧ (amount e > LARGE_AMOUNT → py_not_str (description e) = false).

(** The errors that the fields of [ExpenseSerializer] raise, in the order of
    [Meta.fields]. *)
Definition field_errors (partial : bool) (today : Z) (data : ExpenseData) : Errors :=
  errors_of "title" (title_field partial (d_title data))
  ++ errors_of "amount" (amount_field partial (d_amount data))
  ++ errors_of "category" (category_field partial (d_category data))
  ++ errors_of "description" (description_field (d_description data))
  ++ errors_of "date" (date_field partial today (d_date data)).

(** A body that creation accepts: a title that is not blank and has at most
    200 characters once stripped, none of them U+0000; an amount from 0.02
    to 99,999,999.99 that comes with a description when it is above
    1,000,000; the code of a category; a description, when there is one,
    without U+0000; and a date that is not after [today]. *)
Definition acceptable (today : Z) (data : ExpenseData) : Prop :=
  (∃ t, d_title data = Some t ∧ py_strip t ≠ ""
        ∧ (py_len (py_strip t) ≤ 200)%nat ∧ has_null (py_strip t) = false)
  ∧ (∃ a, d_amount data = Some a ∧ 2 ≤ a < 10 ^ 10
          ∧ (a > LARGE_AMOUNT →
             ∃ d, d_description data = Some (Some d) ∧ py_strip d ≠ ""))
  ∧ (∃ c, d_category data = Some (category_code c))
  ∧ (∀ d, d_description data = Some (Some d) → has_null (py_strip d) = false)
  ∧ (∃ d, d_date data = Some d ∧ d ≤ today).

End Ledger.

(** * Part II: properties *)

(** ** Primary keys *)

Section PrimaryKeys.

Context {A : Type}.

(** The primary key of a new row is not in use. *)
Lemma next_pk_above (table : gmap Z A) pk :
  is_Some (table !! pk) → pk < next_pk table.
Proof.
  unfold next_pk.
  induction table as [| k e table Hk Hfold IH] using map_first_key_ind.
  - intros [? Habs]. by rewrite lookup_empty in Habs.
  - rewrite map_fold_insert_first_key by done. intros [x Hx].
    destruct (decide (k = pk)) as [-> | Hne]; [lia |].
    rewrite lookup_insert_ne in Hx by done.
    assert (pk < 1 + map_fold (λ k _ acc, Z.max k acc) 0 table)
      by (apply IH; eauto).
    lia.
Qed.

Lemma next_pk_fresh (table : gmap Z A) : table !! next_pk table = None.
Proof.
  destruct (table !! next_pk table) eqn:Hlook; [| done].
  assert (next_pk table < next_pk table) by (apply next_pk_above; eauto). lia.
Qed.

End PrimaryKeys.

(** ** The application [expenses]: aggregates and querysets *)

Section ExpenseQuerysets.

Import Expenses.

Lemma amount_total_empty : amount_total ∅ = 0.
Proof. unfold amount_total. by rewrite map_fold_empty. Qed.

Lemma amount_total_insert (qs : gmap Z Expense) k e :
  qs !! k = None → amount_total (<[k:=e]> qs) = amount e + amount_total qs.
Proof.
  intros Hk. unfold amount_total.
  rewrite map_fold_insert_L; [done | intros; lia | done].
Qed.

Lemma py_or_0_Sum (qs : gmap Z Expense) : py_or_0 (Sum qs) = amount_total qs.
Proof.
  unfold Sum. destruct (decide (qs = ∅)) as [-> | _]; simpl.
  - by rewrite amount_total_empty.
  - by case_decide.
Qed.

Lemma filter_category_insert (qs : gmap Z Expense) c k e :
  qs !! k = None →
  filter_category c (<[k:=e]> qs) =
    if decide (category e = c) then <[k:=e]> (filter_category c qs)
    else filter_category c qs.
Proof.
  intros Hk. unfold filter_category. case_decide.
  - by rewrite map_filter_insert_True.
  - rewrite map_filter_insert_False; [| done]. by rewrite delete_id.
Qed.

Lemma filter_category_lookup_None (qs : gmap Z Expense) c k :
  qs !! k = None → filter_category c qs !! k = None.
Proof. intros Hk. unfold filter_category. by apply map_lookup_filter_None_2; left. Qed.

(** Every row is counted in exactly one category. *)
Lemma amount_total_split (qs : gmap Z Expense) :
  foldr (λ choice acc, amount_total (filter_category choice.1 qs) + acc)
        0 CATEGORY_CHOICES
  = amount_total qs.
Proof.
  induction qs as [| k e qs Hk IH] using map_ind.
  - simpl. unfold filter_category. rewrite !map_filter_empty.
    rewrite amount_total_empty. lia.
  - rewrite amount_total_insert by done. rewrite <- IH. simpl.
    rewrite !filter_category_insert by done.
    destruct (category e); simpl;
      rewrite amount_total_insert by (by apply filter_category_lookup_None); lia.
Qed.

(** Filling a dictionary in a loop with distinct fresh keys adds up the
    inserted values. *)
Lemma sum_values_insert (d : gmap string Z) k v :
  d !! k = None → sum_values (<[k:=v]> d) = v + sum_values d.
Proof.
  intros Hk. unfold sum_values.
  rewrite map_fold_insert_L; [done | intros; lia | done].
Qed.

Lemma sum_values_foldl {A} (name : A → string) (val : A → Z) (l : list A) :
  ∀ acc : gmap string Z,
    NoDup (name <$> l) →
    (∀ a, a ∈ l → acc !! name a = None) →
    sum_values (foldl (λ acc a, <[name a := val a]> acc) acc l)
    = sum_values acc + foldr (λ a s, val a + s) 0 l.
Proof.
  induction l as [| a l IH]; intros acc Hnd Hfresh; simpl.
  - lia.
  - apply NoDup_cons in Hnd as [Hnotin Hnd].
    rewrite IH.
    + rewrite sum_values_insert; [lia |]. apply Hfresh. left.
    + done.
    + intros b Hb. rewrite lookup_insert_ne.
      * apply Hfresh. by right.
      * intros Heq. apply Hnotin. rewrite Heq. by apply list_elem_of_fmap_2.
Qed.

Lemma CATEGORY_CHOICES_names_NoDup : NoDup (snd <$> CATEGORY_CHOICES).
Proof. apply (bool_decide_unpack _). by vm_compute. Qed.

Lemma CATEGORY_CHOICES_complete (c : Category) :
  ∃ name, (c, name) ∈ CATEGORY_CHOICES.
Proof. destruct c; eexists; unfold CATEGORY_CHOICES; repeat constructor. Qed.

Lemma sum_values_stats_by_category (expenses : gmap Z Expense) :
  sum_values (stats_by_category expenses) = amount_total expenses.
Proof.
  unfold stats_by_category.
  rewrite (sum_values_foldl snd
             (λ choice, py_or_0 (Sum (filter_category choice.1 expenses)))).
  - unfold sum_values at 1. rewrite map_fold_empty.
    rewrite <- (amount_total_split expenses). simpl.
    rewrite !py_or_0_Sum. lia.
  - apply CATEGORY_CHOICES_names_NoDup.
  - intros. apply lookup_empty.
Qed.

Lemma filter_user_lookup (table : gmap Z Expense) u pk e :
  filter_user u table !! pk = Some e ↔ table !! pk = Some e ∧ user e = u.
Proof. unfold filter_user. by rewrite map_lookup_filter_Some. Qed.

Lemma filter_user_empty (table : gmap Z Expense) u :
  (∀ pk e, table !! pk = Some e → user e ≠ u) → filter_user u table = ∅.
Proof.
  intros Hnone. apply map_eq. intros pk. rewrite lookup_empty.
  destruct (filter_user u table !! pk) as [e |] eqn:Hlook; [| done].
  apply filter_user_lookup in Hlook as [Hin Hu]. by destruct (Hnone pk e).
Qed.

Lemma filter_by_period_subseteq today (queryset : gmap Z Expense) value :
  filter_by_period today queryset value ⊆ queryset.
Proof.
  unfold filter_by_period.
  repeat case_decide; try apply map_filter_subseteq; done.
Qed.

Lemma apply_filter_subseteq {A} (f : gmap Z Expense → A → gmap Z Expense) value :
  (∀ qs v, f qs v ⊆ qs) → ∀ qs, apply_filter f value qs ⊆ qs.
Proof. intros Hf qs. destruct value; simpl; [apply Hf | done]. Qed.

Lemma ExpenseFilter_subseteq today params (queryset : gmap Z Expense) :
  ExpenseFilter today params queryset ⊆ queryset.
Proof.
  unfold ExpenseFilter.
  repeat (etrans; [apply apply_filter_subseteq |]);
    try (intros; apply map_filter_subseteq);
    try (intros; apply filter_by_period_subseteq); done.
Qed.

Lemma filter_by_period_lookup today (queryset : gmap Z Expense) value pk e :
  filter_by_period today queryset value !! pk = Some e ↔
  queryset !! pk = Some e ∧
  (value = "week" → today - date e ≤ 7) ∧
  (value = "month" → today - date e ≤ 30) ∧
  (value = "3months" → today - date e ≤ 90).
Proof.
  unfold filter_by_period.
  repeat case_decide; subst; rewrite ?map_lookup_filter_Some; simpl;
    intuition (try discriminate; try lia).
Qed.

End ExpenseQuerysets.

(** ** The application [expenses]: ownership *)

Section Ownership.

Import Expenses.

Variable icontains : string → string → bool.

Lemma filter_queryset_lookup request (queryset : gmap Z Expense) pk e :
  filter_queryset icontains request queryset !! pk = Some e →
  queryset !! pk = Some e.
Proof.
  unfold filter_queryset. intros Hlook.
  apply map_lookup_filter_Some in Hlook as [Hlook _].
  eapply lookup_weaken; [done | apply ExpenseFilter_subseteq].
Qed.

(** A row of somebody else is not found: the queryset has been narrowed to
    the caller before the key is looked up. *)
Lemma get_object_not_owner table request u pk e :
  table !! pk = Some e → user e ≠ u →
  get_object icontains table request u pk = inl HTTP_404_NOT_FOUND.
Proof.
  intros Hin Hne. unfold get_object.
  destruct (filter_queryset _ _ _ !! pk) as [obj |] eqn:Hlook; [| done].
  apply filter_queryset_lookup, filter_user_lookup in Hlook as [Hobj Hu].
  congruence.
Qed.

(** [get_object] has two outcomes, and 403 is not one of them: what it finds
    is a row of the caller, which [IsOwner] lets through. *)
Lemma get_object_cases table request u pk :
  get_object icontains table request u pk = inl HTTP_404_NOT_FOUND
  ∨ ∃ instance, get_object icontains table request u pk = inr instance
                ∧ table !! pk = Some instance ∧ user instance = u.
Proof.
  unfold get_object.
  destruct (filter_queryset _ _ _ !! pk) as [obj |] eqn:Hlook; [| by left].
  apply filter_queryset_lookup, filter_user_lookup in Hlook as [Hobj Hu].
  right. exists obj. unfold IsOwner_has_object_permission.
  by rewrite bool_decide_eq_true_2.
Qed.

(** C1.  For an authenticated requester [r] and an expense [e] stored under
    [pk] whose owner is not [r], GET, PUT, PATCH and DELETE on
    /expenses/pk/ answer 404 (so not 403, and with no content of [e]) and
    leave the table as it is.  Moreover every operation of [r] stays within
    the rows that [r] owns: a listing only has rows of [r], a detail
    response only shows a row of [r], and whatever the operation does, the
    rows of other owners are still stored unchanged. *)
Theorem non_owner_access_is_not_found table request r :
  req_user request = Some r →
  (∀ pk e method,
     table !! pk = Some e → user e ≠ r → method ∈ [GET; PUT; PATCH; DELETE] →
     expense_detail icontains method table request pk = (HTTP_404_NOT_FOUND, table))
  ∧ (∀ results table',
       list_ icontains table request = (HTTP_200_OK (Results results), table') →
       table' = table ∧
       ∀ pk e, results !! pk = Some e → table !! pk = Some e ∧ user e = r)
  ∧ (∀ method pk response table',
       expense_detail icontains method table request pk = (response, table') →
       response ≠ HTTP_403_FORBIDDEN
       ∧ (∀ k e, response = HTTP_200_OK (Detail k e) → user e = r)
       ∧ (∀ k e, table !! k = Some e → user e ≠ r → table' !! k = Some e)).
Proof.
  intros Hauth. split; [| split].
  - intros pk e method Hin Hne Hmethod.
    destruct method; simpl;
      try (unfold retrieve, update, destroy; rewrite Hauth;
           by erewrite get_object_not_owner).
    exfalso.
    repeat (apply elem_of_cons in Hmethod as [Heq | Hmethod]; [discriminate |]).
    by apply elem_of_nil in Hmethod.
  - unfold list_. rewrite Hauth. intros results table' [= <- <-].
    split; [done |]. intros pk e Hlook.
    by apply filter_queryset_lookup, filter_user_lookup in Hlook.
  - intros method pk response table'.
    destruct method; simpl; unfold retrieve, update, destroy; rewrite ?Hauth.
    all: try (destruct (get_object_cases table request r pk)
                as [-> | (instance & -> & Hstored & Howner)]).
    all: try (destruct (is_valid _ _ _) as [errors | attrs]).
    all: intros [= <- <-]; (split; [done |]); split;
      try (by intros k e [= <- <-]); try done.
    all: intros k e Hk Hne; rewrite ?lookup_insert_ne, ?lookup_delete_ne;
      [done | congruence ..].
Qed.

End Ownership.

(** The second user's expense, asked for by the first user
    ([test_retrieve_expense_other_user], [test_update_expense_other_user],
    [test_delete_expense_other_user]). *)
Lemma non_owner_access_is_not_found_witness :
  let request := Fixtures.request_of 1 Expenses.no_params Fixtures.no_data in
  Expenses.req_user request = Some 1
  ∧ Fixtures.expenses !! 3 = Some Fixtures.expense3
  ∧ Expenses.user Fixtures.expense3 ≠ 1
  ∧ ∀ method, method ∈ [GET; PUT; PATCH; DELETE] →
      Expenses.expense_detail Fixtures.contains method Fixtures.expenses request 3
      = (HTTP_404_NOT_FOUND, Fixtures.expenses).
Proof.
  intros request. split; [reflexivity |]. split; [reflexivity |].
  split; [discriminate |]. intros method Hmethod.
  destruct (non_owner_access_is_not_found Fixtures.contains Fixtures.expenses
              request 1 eq_refl) as [Hdetail _].
  apply (Hdetail 3 Fixtures.expense3 method); [reflexivity | discriminate | exact Hmethod].
Defined.

(** ** The application [expenses]: the period filter *)

Section Period.

Import Expenses.

Variable icontains : string → string → bool.


End Period.


(** ** The application [expenses]: validation of the body of a request *)

Section Validation.

Import Expenses.

Lemma amount_field_Some partial a :
  amount_field partial (Some a) = Rejected "Ensure that there are no more than 10 digits in total."
  ∨ amount_field partial (Some a) = Rejected "Ensure this value is greater than or equal to 0.01."
  ∨ amount_field partial (Some a) = Rejected "El monto debe ser mayor a cero."
  ∨ amount_field partial (Some a) = Accepted a.
Proof.
  unfold amount_field, validate_amount.
  case_decide; [by left |].
  destruct (Qlt_le_dec _ _); [by right; left |].
  case_decide; [by right; right; left | by right; right; right].
Qed.

(** The validated data keeps the amount of the body as it is. *)
Lemma to_internal_value_amount partial today data attrs a :
  to_internal_value partial today data = inr attrs →
  d_amount data = Some a → a_amount attrs = Some a.
Proof.
  unfold to_internal_value. intros Hattrs Ha. rewrite Ha in Hattrs.
  destruct (amount_field_Some partial a) as [Hr | [Hr | [Hr | Hr]]];
    rewrite Hr in Hattrs; simpl in Hattrs;
    destruct (title_field _ _), (category_field _ _), (description_field _),
      (date_field _ _ _); simpl in Hattrs; try discriminate;
    by injection Hattrs as <-.
Qed.

(** A description that the field lets through is the description of the
    body, stripped. *)
Lemma description_field_value data :
  (∀ msg, description_field data ≠ Rejected msg) →
  value_of (description_field data)
  = (fmap py_strip : option string → option string) <$> data.
Proof.
  unfold description_field, ProhibitNullCharactersValidator.
  destruct data as [[s |] |]; [| done | done]. cbv zeta.
  case_decide as Heq; [simpl; by rewrite Heq |].
  destruct (has_null _); [| done]. intros Hnot. by edestruct Hnot.
Qed.

Lemma to_internal_value_description partial today data attrs :
  to_internal_value partial today data = inr attrs →
  a_description attrs
  = (fmap py_strip : option string → option string) <$> d_description data.
Proof.
  unfold to_internal_value. intros Hattrs.
  rewrite <- description_field_value.
  - destruct (title_field _ _), (amount_field _ _), (category_field _ _),
      (description_field _), (date_field _ _ _); simpl in Hattrs;
      try discriminate; by injection Hattrs as <-.
  - intros msg Hmsg. rewrite Hmsg in Hattrs.
    destruct (title_field _ _), (amount_field _ _), (category_field _ _),
      (date_field _ _ _); simpl in Hattrs; discriminate.
Qed.

(** After the validation of a full body, every column of the new row has a
    value: creation does not end in a server error. *)
Lemma to_internal_value_create today data attrs u now :
  to_internal_value false today data = inr attrs →
  ∃ instance, create_instance u now attrs = Some instance ∧ user instance = u.
Proof.
  unfold to_internal_value, create_instance. intros Hattrs.
  destruct (title_field false (d_title data)) as [| t |] eqn:Ht;
    [ unfold title_field, char_field, MaxLengthValidator,
        ProhibitNullCharactersValidator, missing in Ht;
      repeat case_match; discriminate | |
      simpl in Hattrs; discriminate].
  destruct (amount_field false (d_amount data)) as [| a |] eqn:Ha;
    [ unfold amount_field, validate_amount, missing in Ha;
      repeat case_match; discriminate | | simpl in Hattrs; discriminate].
  destruct (category_field false (d_category data)) as [| c |] eqn:Hc;
    [ unfold category_field, missing in Hc; repeat case_match; discriminate | |
      simpl in Hattrs; discriminate].
  destruct (date_field false today (d_date data)) as [| d |] eqn:Hd;
    [ unfold date_field, validate_date, missing in Hd;
      repeat case_match; discriminate | |
      destruct (description_field _); simpl in Hattrs; discriminate].
  destruct (description_field _); simpl in Hattrs; try discriminate;
    injection Hattrs as <-; simpl; eauto.
Qed.

Lemma validate_large attrs a :
  a_amount attrs = Some a → a > LARGE_AMOUNT →
  py_not_str (a_description attrs ≫= id) = true →
  validate attrs = inl DESCRIPTION_REQUIRED.
Proof.
  unfold validate, LARGE_AMOUNT. intros -> Hlarge ->.
  rewrite !bool_decide_eq_true_2; [done | done | lia].
Qed.

Lemma validate_not_large attrs a :
  a_amount attrs = Some a → a ≤ LARGE_AMOUNT → validate attrs = inr attrs.
Proof.
  unfold validate. intros -> Hle.
  rewrite (bool_decide_eq_false_2 (a > LARGE_AMOUNT)) by lia.
  by rewrite andb_false_r.
Qed.

(** C5.  Take a creation request of an authenticated caller whose amount
    [a] is above 1,000,000 and whose description is absent, null or empty.
    Creation fails with status 400 and stores nothing, whatever else the
    body holds.  The rule that refuses it, [validate], answers with the error
    on field [description] for all validated data with such an amount and
    description; the framework calls it when the fields of the body are
    valid one by one (it reports field errors first), and then the response
    carries that error.  With an amount of at most 1,000,000 and fields
    that are valid one by one, the expense is created and stored, with or
    without a description. *)
Theorem large_amount_requires_description table request r a :
  req_user request = Some r →
  d_amount (req_data request) = Some a →
  (a > LARGE_AMOUNT →
   d_description (req_data request) ∈ [None; Some None; Some (Some "")] →
   (∀ attrs,
      a_amount attrs = Some a →
      a_description attrs ∈ [None; Some None; Some (Some "")] →
      validate attrs = inl DESCRIPTION_REQUIRED)
   ∧ (∃ errors, create table request = (HTTP_400_BAD_REQUEST errors, table))
   ∧ (∀ attrs,
        to_internal_value false (req_today request) (req_data request) = inr attrs →
        create table request = (HTTP_400_BAD_REQUEST DESCRIPTION_REQUIRED, table)))
  ∧ (a ≤ LARGE_AMOUNT →
     ∀ attrs,
       to_internal_value false (req_today request) (req_data request) = inr attrs →
       ∃ instance,
         create table request =
           (HTTP_201_CREATED (Detail (next_pk table) instance),
            <[next_pk table := instance]> table)
         ∧ user instance = r
         ∧ description instance = d_description (req_data request) ≫= fmap py_strip).
Proof.
  intros Hauth Ha. unfold create, is_valid. rewrite Hauth. split.
  - intros Hlarge Hdesc.
    assert (Hrule : ∀ attrs,
      a_amount attrs = Some a →
      a_description attrs ∈ [None; Some None; Some (Some "")] →
      validate attrs = inl DESCRIPTION_REQUIRED).
    { intros attrs Hamount Hempty. apply (validate_large attrs a); [done | done |].
      repeat (apply elem_of_cons in Hempty as [-> | Hempty]); try done.
      by apply elem_of_nil in Hempty. }
    assert (Hfail : ∀ attrs,
      to_internal_value false (req_today request) (req_data request) = inr attrs →
      validate attrs = inl DESCRIPTION_REQUIRED).
    { intros attrs Hattrs. apply Hrule; [by eapply to_internal_value_amount |].
      rewrite (to_internal_value_description _ _ _ _ Hattrs).
      repeat (apply elem_of_cons in Hdesc as [-> | Hdesc]); simpl.
      - apply list_elem_of_here.
      - apply list_elem_of_further, list_elem_of_here.
      - do 2 apply list_elem_of_further. apply list_elem_of_here.
      - by apply elem_of_nil in Hdesc. }
    split; [exact Hrule |]. split.
    + destruct (to_internal_value _ _ _) as [errors | attrs]; [by eexists |].
      rewrite Hfail by done. by eexists.
    + intros attrs Hattrs. rewrite Hattrs. by rewrite Hfail.
  - intros Hle attrs Hattrs. rewrite Hattrs.
    rewrite (validate_not_large attrs a);
      [| by eapply to_internal_value_amount | done].
    destruct (to_internal_value_create _ _ _ r (req_now request) Hattrs)
      as (instance & Hinstance & Huser).
    rewrite Hinstance. exists instance. split; [done |]. split; [done |].
    unfold create_instance in Hinstance.
    destruct (a_title attrs), (a_amount attrs), (a_category attrs),
      (a_date attrs); simpl in Hinstance; try discriminate.
    injection Hinstance as <-. simpl.
    rewrite (to_internal_value_description _ _ _ _ Hattrs).
    by destruct (d_description (req_data request)) as [[] |].
Qed.

(** C7.  The expense that a creation request of caller [c] stores has owner
    [c], and the value that the body gives for [user] plays no part: the
    request has the same outcome with any other value, or none, in its
    place. *)
Theorem create_stamps_caller table request c :
  req_user request = Some c →
  (∀ supplied, create table (with_user_entry supplied request) = create table request)
  ∧ (∀ pk instance table',
       create table request = (HTTP_201_CREATED (Detail pk instance), table') →
       user instance = c ∧ table' !! pk = Some instance
       ∧ table !! pk = None).
Proof.
  intros Hauth. split.
  - intros supplied. by unfold create, is_valid, to_internal_value.
  - intros pk instance table'. unfold create. rewrite Hauth.
    destruct (is_valid _ _ _) as [errors | attrs]; [done |].
    destruct (create_instance _ _ _) as [new |] eqn:Hnew; [| done].
    intros [= <- <- <-]. split; [| split].
    + unfold create_instance in Hnew.
      destruct (a_title attrs), (a_amount attrs), (a_category attrs),
        (a_date attrs); simpl in Hnew; try discriminate.
      by injection Hnew as <-.
    + apply lookup_insert_eq.
    + apply next_pk_fresh.
Qed.

End Validation.

(** [test_create_expense_large_amount_without_description], and
    [test_create_expense_success] without its description. *)
Lemma large_amount_requires_description_witness :
  let large := Fixtures.request_of 1 Expenses.no_params
                 Fixtures.large_without_description in
  let small := Fixtures.request_of 1 Expenses.no_params
                 Fixtures.small_without_description in
  (Expenses.req_user large = Some 1
   ∧ Expenses.d_amount (Expenses.req_data large) = Some 200000000
   ∧ Expenses.create Fixtures.expenses large
     = (HTTP_400_BAD_REQUEST Expenses.DESCRIPTION_REQUIRED, Fixtures.expenses))
  ∧ (Expenses.req_user small = Some 1
     ∧ Expenses.d_amount (Expenses.req_data small) = Some 5000000
     ∧ ∃ instance,
         Expenses.create Fixtures.expenses small
         = (HTTP_201_CREATED (Expenses.Detail 4 instance),
            <[4 := instance]> Fixtures.expenses)).
Proof.
  intros large small. split.
  - split; [reflexivity |]. split; [reflexivity |].
    destruct (large_amount_requires_description Fixtures.expenses large 1
                200000000 eq_refl eq_refl) as [Hlarge _].
    destruct Hlarge as (_ & _ & Hdescription).
    + reflexivity.
    + apply list_elem_of_here.
    + eapply Hdescription. vm_compute. reflexivity.
  - split; [reflexivity |]. split; [reflexivity |].
    destruct (large_amount_requires_description Fixtures.expenses small 1
                5000000 eq_refl eq_refl) as [_ Hsmall].
    destruct (Hsmall ltac:(vm_compute; discriminate) _ eq_refl)
      as (instance & Hcreate & _).
    exists instance. exact Hcreate.
Defined.

(** [test_create_expense_success]: the expense is stored for the caller,
    user 1, although the body names user 2. *)
Lemma create_stamps_caller_witness :
  let request := Fixtures.request_of 1 Expenses.no_params
                   Fixtures.small_without_description in
  let instance := Expenses.mkExpense 1 "Nuevo Gasto" 5000000 Expenses.UTILITIES
                    None Fixtures.today Fixtures.now Fixtures.now in
  Expenses.req_user request = Some 1
  ∧ Expenses.d_user (Expenses.req_data request) = Some 2
  ∧ Expenses.create Fixtures.expenses request
    = (HTTP_201_CREATED (Expenses.Detail 4 instance),
       <[4 := instance]> Fixtures.expenses)
  ∧ Expenses.user instance = 1
  ∧ (<[4 := instance]> Fixtures.expenses) !! 4 = Some instance
  ∧ Fixtures.expenses !! 4 = None.
Proof.
  intros request instance. split; [reflexivity |]. split; [reflexivity |].
  assert (Hcreate : Expenses.create Fixtures.expenses request
                    = (HTTP_201_CREATED (Expenses.Detail 4 instance),
                       <[4 := instance]> Fixtures.expenses))
    by (vm_compute; reflexivity).
  split; [exact Hcreate |].
  destruct (create_stamps_caller Fixtures.expenses request 1 eq_refl)
    as [_ Hstored].
  exact (Hstored 4 instance _ Hcreate).
Defined.

(** ** The application [expenses]: what is written has a date in the past *)

Section Dates.

Import Expenses.

Variable icontains : string → string → bool.

Lemma is_valid_date partial today data attrs d :
  is_valid partial today data = inr attrs → a_date attrs = Some d → d ≤ today.
Proof.
  unfold is_valid, to_internal_value.
  destruct (date_field partial today (d_date data)) as [| d' | msg] eqn:Hdate.
  - destruct (title_field _ _), (amount_field _ _), (category_field _ _),
      (description_field _); simpl; try discriminate;
      unfold validate; simpl; repeat case_match; intros [= <-]; discriminate.
  - assert (d' ≤ today).
    { unfold date_field, validate_date, missing in Hdate.
      repeat case_match; try discriminate. injection Hdate as <-. lia. }
    destruct (title_field _ _), (amount_field _ _), (category_field _ _),
      (description_field _); simpl; try discriminate;
      unfold validate; simpl; repeat case_match; intros [= <-] [= <-]; done.
  - destruct (title_field _ _), (amount_field _ _), (category_field _ _),
      (description_field _); simpl; discriminate.
Qed.

(** No request through the routes of the view set leaves an expense dated
    after the day on which it is served, if there was none before. *)
Lemma writes_keep_dates_in_the_past table request :
  (∀ pk e, table !! pk = Some e → date e ≤ req_today request) →
  (∀ method response table',
     expense_list icontains method table request = (response, table') →
     ∀ pk e, table' !! pk = Some e → date e ≤ req_today request)
  ∧ (∀ method key response table',
       expense_detail icontains method table request key = (response, table') →
       ∀ pk e, table' !! pk = Some e → date e ≤ req_today request).
Proof.
  intros Hpast. split.
  - intros method response table'.
    destruct method; simpl; try (intros [= <- <-]; exact Hpast).
    + unfold list_. destruct (req_user request); intros [= <- <-]; exact Hpast.
    + unfold create. destruct (req_user request) as [u |];
        [| intros [= <- <-]; exact Hpast].
      destruct (is_valid _ _ _) as [errors | attrs] eqn:Hvalid;
        [intros [= <- <-]; exact Hpast |].
      destruct (create_instance _ _ _) as [instance |] eqn:Hnew;
        [| intros [= <- <-]; exact Hpast].
      intros [= <- <-] pk e Hlook.
      apply lookup_insert_Some in Hlook as [[_ <-] | [_ Hlook]];
        [| by eapply Hpast].
      unfold create_instance in Hnew.
      destruct (a_title attrs), (a_amount attrs), (a_category attrs),
        (a_date attrs) as [d |] eqn:Hd; simpl in Hnew; try discriminate.
      injection Hnew as <-. simpl. by eapply is_valid_date.
  - intros method key response table'.
    destruct method; simpl; unfold retrieve, update, destroy;
      try (intros [= <- <-]; exact Hpast);
      (destruct (req_user request) as [u |]; [| intros [= <- <-]; exact Hpast]);
      (destruct (get_object_cases icontains table request u key)
         as [-> | (instance & -> & Hstored & _)];
       [intros [= <- <-]; exact Hpast |]).
    + intros [= <- <-]. exact Hpast.
    + destruct (is_valid _ _ _) as [errors | attrs] eqn:Hvalid;
        intros [= <- <-]; [exact Hpast |]. intros pk e Hlook.
      apply lookup_insert_Some in Hlook as [[_ <-] | [_ Hlook]];
        [| by eapply Hpast]. simpl.
      destruct (a_date attrs) as [d |] eqn:Hd; simpl;
        [by eapply is_valid_date | by eapply Hpast].
    + destruct (is_valid _ _ _) as [errors | attrs] eqn:Hvalid;
        intros [= <- <-]; [exact Hpast |]. intros pk e Hlook.
      apply lookup_insert_Some in Hlook as [[_ <-] | [_ Hlook]];
        [| by eapply Hpast]. simpl.
      destruct (a_date attrs) as [d |] eqn:Hd; simpl;
        [by eapply is_valid_date | by eapply Hpast].
    + intros [= <- <-] pk e Hlook.
      apply lookup_delete_Some in Hlook as [_ Hlook]. by eapply Hpast.
Qed.

End Dates.

Section PartialUpdate.

Import Expenses.

Variable icontains : string → string → bool.

Lemma get_object_no_params table request u pk e :
  req_query request = no_params →
  table !! pk = Some e → user e = u →
  get_object icontains table request u pk = inr e.
Proof.
  intros Hquery Hin Hu. unfold get_object, filter_queryset, ExpenseFilter.
  rewrite Hquery. simpl.
  rewrite (proj2 (map_lookup_filter_Some _ _ pk e)).
  - unfold IsOwner_has_object_permission. by rewrite bool_decide_eq_true_2.
  - split; [| done]. unfold get_queryset. by apply filter_user_lookup.
Qed.

(** C10.  The rule on large amounts looks at the body of the request only.
    Let [e] be a stored expense of the caller with a non-empty description.
    A PATCH whose body sets the amount above 1,000,000, does not have key
    [description] and is valid field by field, is refused with status 400
    and the error on field [description]; the row is left as it was,
    although the row with the new amount and the stored description would
    have a description. *)
Theorem partial_update_ignores_stored_description table request r pk e a d :
  req_user request = Some r →
  req_query request = no_params →
  table !! pk = Some e → user e = r →
  description e = Some d → d ≠ "" →
  d_amount (req_data request) = Some a → a > LARGE_AMOUNT →
  d_description (req_data request) = None →
  ∀ attrs,
    to_internal_value true (req_today request) (req_data request) = inr attrs →
    expense_detail icontains PATCH table request pk
      = (HTTP_400_BAD_REQUEST DESCRIPTION_REQUIRED, table)
    ∧ py_not_str (description (update_instance e (req_now request) attrs)) = false.
Proof.
  intros Hauth Hquery Hin Hu Hdesc Hd Ha Hlarge Hnone attrs Hattrs.
  pose proof (to_internal_value_description _ _ _ _ Hattrs) as Hadesc.
  rewrite Hnone in Hadesc. simpl in Hadesc.
  split.
  - simpl. unfold update. rewrite Hauth.
    rewrite (get_object_no_params table request r pk e) by done.
    unfold is_valid. rewrite Hattrs.
    rewrite (validate_large attrs a); [done | | done |].
    + by eapply to_internal_value_amount.
    + by rewrite Hadesc.
  - simpl. rewrite Hadesc, Hdesc. simpl. by destruct d.
Qed.

End PartialUpdate.

(** A PATCH that raises the amount of an expense with a description. *)
Lemma partial_update_ignores_stored_description_witness :
  let request := Fixtures.request_of 1 Expenses.no_params Fixtures.raise_amount in
  Expenses.req_user request = Some 1
  ∧ Expenses.req_query request = Expenses.no_params
  ∧ Fixtures.described_only !! 1 = Some Fixtures.described
  ∧ Expenses.user Fixtures.described = 1
  ∧ Expenses.description Fixtures.described = Some "Compra del mes"
  ∧ "Compra del mes" ≠ ""
  ∧ Expenses.d_amount (Expenses.req_data request) = Some 200000000
  ∧ 200000000 > Expenses.LARGE_AMOUNT
  ∧ Expenses.d_description (Expenses.req_data request) = None
  ∧ Expenses.to_internal_value true (Expenses.req_today request)
      (Expenses.req_data request)
    = inr (Expenses.mkAttrs None (Some 200000000) None None None)
  ∧ Expenses.expense_detail Fixtures.contains PATCH Fixtures.described_only request 1
    = (HTTP_400_BAD_REQUEST Expenses.DESCRIPTION_REQUIRED, Fixtures.described_only).
Proof.
  intros request.
  assert (Hattrs : Expenses.to_internal_value true (Expenses.req_today request)
                     (Expenses.req_data request)
                   = inr (Expenses.mkAttrs None (Some 200000000) None None None))
    by (vm_compute; reflexivity).
  repeat (split; [first [reflexivity | discriminate | exact Hattrs] |]).
  eapply proj1.
  apply (partial_update_ignores_stored_description Fixtures.contains
           Fixtures.described_only request 1 1 Fixtures.described 200000000
           "Compra del mes");
    first [reflexivity | discriminate | exact Hattrs].
Defined.

(** ** The application [expenses]: the statistics *)

Section Statistics.

Import Expenses.

Context {database : Database}.

Lemma compute_stats_empty :
  compute_stats ∅ =
    {| total_expenses := 0; total_amount := 0; average_amount := 0%Q;
       by_category := stats_by_category ∅ |}.
Proof. done. Qed.

Lemma stats_by_category_lookup (expenses : gmap Z Expense) c name :
  (c, name) ∈ CATEGORY_CHOICES →
  stats_by_category expenses !! name
    = Some (amount_total (filter_category c expenses)).
Proof.
  intros Hin. unfold stats_by_category. simpl. rewrite !py_or_0_Sum.
  repeat (apply elem_of_cons in Hin as [[= -> ->] | Hin];
          [by simplify_map_eq |]).
  by apply elem_of_nil in Hin.
Qed.

Lemma stats_by_category_size (expenses : gmap Z Expense) :
  size (stats_by_category expenses) = 7%nat.
Proof.
  unfold stats_by_category. simpl.
  repeat (rewrite map_size_insert_None; [| by simplify_map_eq]).
  by rewrite map_size_empty.
Qed.

(** A whole number of cents is rendered as it is, up to ten digits. *)
Lemma round_half_even_inject_Z z : round_half_even (inject_Z z) = z.
Proof.
  unfold round_half_even. rewrite Qfloor_Z.
  assert (Hlt : (inject_Z z - inject_Z z < 1 # 2)%Q).
  { unfold Qlt, Qminus, Qplus, Qopp, inject_Z. simpl. lia. }
  by rewrite (proj1 (Qlt_alt _ _) Hlt).
Qed.

Lemma DecimalField_to_representation_inject_Z z :
  Z.abs z < 10 ^ 10 → DecimalField_to_representation (inject_Z z) = Some z.
Proof.
  intros Hz. unfold DecimalField_to_representation.
  rewrite round_half_even_inject_Z. by rewrite decide_True.
Qed.

Lemma DecimalField_to_representation_Some value cents :
  DecimalField_to_representation value = Some cents →
  cents = round_half_even value.
Proof. unfold DecimalField_to_representation. case_decide; congruence. Qed.

(** Rounding moves a value by at most a half. *)
Lemma round_half_even_near q :
  (q - (1 # 2) <= inject_Z (round_half_even q))%Q
  ∧ (inject_Z (round_half_even q) <= q + (1 # 2))%Q.
Proof.
  unfold round_half_even.
  pose proof (Qfloor_le q) as Hlow. pose proof (Qlt_floor q) as Hhigh.
  rewrite inject_Z_plus in Hhigh. change (inject_Z 1) with 1%Q in Hhigh.
  destruct (Qcompare_spec (q - inject_Z (Qfloor q)) (1 # 2)) as [Heq | Hlt | Hgt].
  - destruct (Z.even _); rewrite ?inject_Z_plus;
      change (inject_Z 1) with 1%Q; split; lra.
  - split; lra.
  - rewrite inject_Z_plus. change (inject_Z 1) with 1%Q. split; lra.
Qed.

(** Rounding keeps a value between two whole numbers that bound it, up to
    less than a half. *)
Lemma round_half_even_between q t :
  (- (1 # 2) < q)%Q → (q < inject_Z t + (1 # 2))%Q → 0 ≤ round_half_even q ≤ t.
Proof.
  intros Hlow Hhigh. destruct (round_half_even_near q) as [Hnear1 Hnear2].
  assert (H1 : (inject_Z (-1) < inject_Z (round_half_even q))%Q)
    by (change (inject_Z (-1)) with (-1)%Q; lra).
  assert (H2 : (inject_Z (round_half_even q) < inject_Z (t + 1))%Q)
    by (rewrite inject_Z_plus; change (inject_Z 1) with 1%Q; lra).
  rewrite <- Zlt_Qlt in H1, H2. lia.
Qed.

(** A value within less than a half of a whole number is rounded to it. *)
Lemma round_half_even_nearest q k :
  (Qabs (q - inject_Z k) < 1 # 2)%Q → round_half_even q = k.
Proof.
  intros Hnear. apply Qabs_Qlt_condition in Hnear as [Hlow Hhigh].
  destruct (round_half_even_near q) as [Hnear1 Hnear2].
  assert (H1 : (inject_Z (k - 1) < inject_Z (round_half_even q))%Q).
  { unfold Z.sub. rewrite inject_Z_plus, inject_Z_opp.
    change (inject_Z 1) with 1%Q. lra. }
  assert (H2 : (inject_Z (round_half_even q) < inject_Z (k + 1))%Q)
    by (rewrite inject_Z_plus; change (inject_Z 1) with 1%Q; lra).
  rewrite <- Zlt_Qlt in H1, H2. lia.
Qed.

(** A value within less than half a cent of the quotient of [total] by [n]
    is rendered within less than a cent of it, and as the quotient itself
    exactly when [n] divides [total]. *)
Lemma round_half_even_quotient value total n :
  0 < n →
  (Qabs (value - inject_Z total / inject_Z n) < 1 # 2)%Q →
  Z.abs (round_half_even value * n - total) < n
  ∧ (round_half_even value * n = total ↔ (n | total)).
Proof.
  intros Hn Hnear.
  assert (HnQ : (0 < inject_Z n)%Q)
    by (change 0%Q with (inject_Z 0); by rewrite <- Zlt_Qlt).
  assert (Hquot : (inject_Z total / inject_Z n * inject_Z n == inject_Z total)%Q).
  { rewrite Qmult_comm. apply Qmult_div_r. lra. }
  split.
  - apply Qabs_Qlt_condition in Hnear as [Hlow Hhigh].
    destruct (round_half_even_near value) as [Hnear1 Hnear2].
    set (a := round_half_even value) in *.
    set (e := (inject_Z total / inject_Z n)%Q) in *.
    assert (H1 : ((e - 1) * inject_Z n < inject_Z a * inject_Z n)%Q)
      by (apply Qmult_lt_compat_r; lra).
    assert (H2 : (inject_Z a * inject_Z n < (e + 1) * inject_Z n)%Q)
      by (apply Qmult_lt_compat_r; lra).
    assert (H3 : (inject_Z (total - n) < inject_Z (a * n))%Q).
    { unfold Z.sub. rewrite inject_Z_plus, inject_Z_opp, inject_Z_mult. lra. }
    assert (H4 : (inject_Z (a * n) < inject_Z (total + n))%Q).
    { rewrite inject_Z_plus, inject_Z_mult. lra. }
    rewrite <- Zlt_Qlt in H3, H4. lia.
  - split.
    + intros <-. by exists (round_half_even value).
    + intros [k ->]. f_equal. apply round_half_even_nearest.
      assert (Hk : (inject_Z (k * n) / inject_Z n == inject_Z k)%Q).
      { rewrite inject_Z_mult. apply Qdiv_mult_l. lra. }
      by rewrite <- Hk.
Qed.

Lemma amount_total_nonneg (qs : gmap Z Expense) :
  (∀ pk e, qs !! pk = Some e → 0 ≤ amount e) → 0 ≤ amount_total qs.
Proof.
  induction qs as [| k e qs Hk IH] using map_ind; intros Hrows.
  - by rewrite amount_total_empty.
  - rewrite amount_total_insert by done.
    assert (0 ≤ amount e) by (apply (Hrows k); apply lookup_insert_eq).
    assert (0 ≤ amount_total qs).
    { apply IH. intros pk e' Hpk. apply (Hrows pk).
      rewrite lookup_insert_ne; [done |]. congruence. }
    lia.
Qed.

Lemma compute_stats_total (qs : gmap Z Expense) :
  total_amount (compute_stats qs) = amount_total qs.
Proof.
  unfold compute_stats, Sum. simpl.
  destruct (decide (qs = ∅)) as [-> | _]; [by rewrite amount_total_empty | done].
Qed.

(** The average of the dictionary: zero for no row, and otherwise the
    average of the database, within less than half a cent of the
    quotient. *)
Lemma compute_stats_average (qs : gmap Z Expense) :
  (qs = ∅ → average_amount (compute_stats qs) = 0%Q)
  ∧ (qs ≠ ∅ →
     (Qabs (average_amount (compute_stats qs)
            - inject_Z (amount_total qs) / inject_Z (Z.of_nat (size qs))) < 1 # 2)%Q).
Proof.
  unfold compute_stats, Avg. simpl. split.
  - intros ->. by rewrite decide_True.
  - intros Hne. rewrite decide_False by done. by apply AVG_precision.
Qed.

(** The average lies between zero and the total, up to less than half a
    cent, when no amount is negative. *)
Lemma compute_stats_average_bounds (qs : gmap Z Expense) :
  0 ≤ amount_total qs →
  (- (1 # 2) < average_amount (compute_stats qs))%Q
  ∧ (average_amount (compute_stats qs) < inject_Z (amount_total qs) + (1 # 2))%Q.
Proof.
  intros Htotal. destruct (compute_stats_average qs) as [Hempty Hrows].
  destruct (decide (qs = ∅)) as [Heq | Hne].
  - rewrite (Hempty Heq).
    assert (Hlow : (inject_Z 0 <= inject_Z (amount_total qs))%Q)
      by (by rewrite <- Zle_Qle).
    change (inject_Z 0) with 0%Q in Hlow. split; lra.
  - specialize (Hrows Hne). apply Qabs_Qlt_condition in Hrows as [Hlow Hhigh].
    assert (Hsize : 0 < Z.of_nat (size qs)).
    { destruct (size qs) eqn:Hn; [| lia].
      by apply map_size_empty_iff in Hn. }
    assert (Hpos : (0 < inject_Z (Z.of_nat (size qs)))%Q)
      by (change 0%Q with (inject_Z 0); by rewrite <- Zlt_Qlt).
    assert (Hquot_low :
      (0 <= inject_Z (amount_total qs) / inject_Z (Z.of_nat (size qs)))%Q).
    { apply Qle_shift_div_l; [done |]. rewrite Qmult_0_l.
      change 0%Q with (inject_Z 0). by rewrite <- Zle_Qle. }
    assert (Hquot_high :
      (inject_Z (amount_total qs) / inject_Z (Z.of_nat (size qs))
       <= inject_Z (amount_total qs))%Q).
    { apply Qle_shift_div_r; [done |]. rewrite <- inject_Z_mult, <- Zle_Qle. nia. }
    split; lra.
Qed.

(** What the response of [stats] carries, when it is a 200: the count, the
    total and the dictionary by category of [stats] as they are, and the
    average rounded to the cent. *)
Lemma stats_response table request r data table' :
  req_user request = Some r →
  stats table request = (HTTP_200_OK (Statistics data), table') →
  let s := compute_stats (get_queryset r table) in
  table' = table
  ∧ data_total_expenses data = total_expenses s
  ∧ data_total_amount data = total_amount s
  ∧ data_by_category data = by_category s
  ∧ data_average_amount data = round_half_even (average_amount s).
Proof.
  intros Hauth. unfold stats, ExpenseStatsSerializer. rewrite Hauth.
  destruct (DecimalField_to_representation (inject_Z _)) as [total |] eqn:Htotal;
    [| done].
  destruct (DecimalField_to_representation (average_amount _)) as [average |]
    eqn:Haverage; [| done].
  simpl. intros [= <- <-]. simpl.
  apply DecimalField_to_representation_Some in Htotal, Haverage.
  rewrite round_half_even_inject_Z in Htotal. done.
Qed.

(** The statistics can be rendered when no amount is negative and the total
    has at most ten digits. *)
Lemma stats_renders table request r :
  req_user request = Some r →
  (∀ pk e, table !! pk = Some e → user e = r → 0 ≤ amount e) →
  amount_total (get_queryset r table) < 10 ^ 10 →
  ∃ data, stats table request = (HTTP_200_OK (Statistics data), table)
          ∧ data_total_amount data = amount_total (get_queryset r table)
          ∧ 0 ≤ data_average_amount data ≤ amount_total (get_queryset r table).
Proof.
  intros Hauth Hrows Hsmall.
  assert (Htotal : 0 ≤ amount_total (get_queryset r table)).
  { apply amount_total_nonneg. intros pk e Hlook.
    apply filter_user_lookup in Hlook as [Hstored Howner]. eauto. }
  unfold stats, ExpenseStatsSerializer. rewrite Hauth, compute_stats_total.
  rewrite DecimalField_to_representation_inject_Z by lia.
  destruct (compute_stats_average_bounds (get_queryset r table) Htotal)
    as [Hlow Hhigh].
  pose proof (round_half_even_between _ _ Hlow Hhigh) as Hround.
  assert (Haverage :
    DecimalField_to_representation
      (average_amount (compute_stats (get_queryset r table)))
    = Some (round_half_even
              (average_amount (compute_stats (get_queryset r table))))).
  { unfold DecimalField_to_representation. by rewrite decide_True by lia. }
  rewrite Haverage. eexists. split; [reflexivity |].
  split; [reflexivity | exact Hround].
Qed.

(** C8.  For a caller who owns no expense, the statistics are: count 0,
    total amount 0, average amount 0 (a number, not null), and a
    [by_category] dictionary with the seven names of [CATEGORY_CHOICES] as
    its keys (one for every category), each with value 0.  This is so for
    the dictionary that the view computes and for the response. *)
Theorem stats_of_no_expenses table request r :
  req_user request = Some r →
  (∀ pk e, table !! pk = Some e → user e ≠ r) →
  let s := compute_stats (get_queryset r table) in
  (total_expenses s = 0%nat
   ∧ total_amount s = 0
   ∧ average_amount s = 0%Q
   ∧ (∀ c, ∃ name, (c, name) ∈ CATEGORY_CHOICES ∧ by_category s !! name = Some 0)
   ∧ (∀ c name, (c, name) ∈ CATEGORY_CHOICES → by_category s !! name = Some 0)
   ∧ size (by_category s) = 7%nat)
  ∧ stats table request
    = (HTTP_200_OK
         (Statistics {| data_total_expenses := 0; data_total_amount := 0;
                        data_average_amount := 0;
                        data_by_category := by_category s |}),
       table).
Proof.
  intros Hauth Hnone. unfold stats. rewrite Hauth.
  unfold get_queryset. rewrite (filter_user_empty table r Hnone).
  rewrite compute_stats_empty. simpl.
  assert (Hzero : ∀ c name, (c, name) ∈ CATEGORY_CHOICES →
                            stats_by_category ∅ !! name = Some 0).
  { intros c name Hin. rewrite (stats_by_category_lookup ∅ c name Hin).
    unfold filter_category. by rewrite map_filter_empty, amount_total_empty. }
  split; [| done].
  repeat split; try done.
  intros c. destruct (CATEGORY_CHOICES_complete c) as [name Hin]. eauto.
Qed.

(** C9, as the code has it.  The values of [by_category] add up to the
    total amount, which is the sum of the amounts of the caller's expenses;
    the count is their number; the average is 0 when the count is 0.  With
    expenses, the average of the response is the average of the database
    rendered to the cent: it is within less than a cent of the total
    divided by the count, and it is that quotient (the average times the
    count is the total) exactly when the count divides the total in
    cents. *)
Theorem stats_are_consistent table request r :
  req_user request = Some r →
  let s := compute_stats (get_queryset r table) in
  (sum_values (by_category s) = total_amount s
   ∧ total_amount s = amount_total (filter_user r table)
   ∧ total_expenses s = size (filter_user r table)
   ∧ (total_expenses s = 0%nat → average_amount s = 0%Q))
  ∧ ∀ data table',
      stats table request = (HTTP_200_OK (Statistics data), table') →
      let count := Z.of_nat (data_total_expenses data) in
      sum_values (data_by_category data) = data_total_amount data
      ∧ data_total_amount data = amount_total (filter_user r table)
      ∧ data_total_expenses data = size (filter_user r table)
      ∧ data_average_amount data = round_half_even (average_amount s)
      ∧ (count = 0 → data_average_amount data = 0)
      ∧ (count ≠ 0 →
         Z.abs (data_average_amount data * count - data_total_amount data) < count
         ∧ (data_average_amount data * count = data_total_amount data
            ↔ (count | data_total_amount data))).
Proof.
  intros Hauth s. subst s.
  set (qs := get_queryset r table).
  assert (Hsum : sum_values (by_category (compute_stats qs))
                 = total_amount (compute_stats qs)).
  { rewrite compute_stats_total. unfold compute_stats. simpl.
    apply sum_values_stats_by_category. }
  pose proof (compute_stats_total qs) as Htotal.
  assert (Hcount : total_expenses (compute_stats qs) = size qs) by reflexivity.
  destruct (compute_stats_average qs) as [Hempty Hrows].
  split.
  - split; [exact Hsum |]. split; [exact Htotal |]. split; [exact Hcount |].
    intros Hzero. apply Hempty. apply map_size_empty_iff. by rewrite <- Hcount.
  - intros data table' Hstats count.
    destruct (stats_response table request r data table' Hauth Hstats)
      as (_ & Hn & Ht & Hby & Ha).
    fold qs in Hn, Ht, Hby, Ha. subst count. rewrite Hn, Ht, Hby, Ha.
    split; [exact Hsum |]. split; [exact Htotal |]. split; [exact Hcount |].
    split; [reflexivity |]. split.
    + intros Hzero. rewrite Hempty.
      * apply (round_half_even_inject_Z 0).
      * apply map_size_empty_iff. rewrite <- Hcount. lia.
    + intros Hsome. rewrite Htotal, Hcount.
      apply round_half_even_quotient; [lia |].
      apply Hrows. intros Hnone. apply Hsome.
      by rewrite Hcount, Hnone, map_size_empty.
Qed.

End Statistics.

(** [test_stats_empty]: a user without expenses. *)
Lemma stats_of_no_expenses_witness :
  let request := Fixtures.request_of 5 Expenses.no_params Fixtures.no_data in
  Expenses.req_user request = Some 5
  ∧ (∀ pk e, Fixtures.expenses !! pk = Some e → Expenses.user e ≠ 5)
  ∧ ∃ by_category,
      Expenses.stats Fixtures.expenses request
      = (HTTP_200_OK (Expenses.Statistics (Expenses.mkStatsData 0 0 0 by_category)),
         Fixtures.expenses)
      ∧ by_category !! "Comestibles" = Some 0
      ∧ size by_category = 7%nat.
Proof.
  intros request.
  assert (Hnone : ∀ pk e, Fixtures.expenses !! pk = Some e → Expenses.user e ≠ 5).
  { apply (bool_decide_unpack
             (map_Forall (λ _ e, Expenses.user e ≠ 5) Fixtures.expenses)).
    vm_compute. exact I. }
  split; [reflexivity |]. split; [exact Hnone |].
  destruct (stats_of_no_expenses Fixtures.expenses request 5 eq_refl Hnone)
    as [(_ & _ & _ & _ & Hzero & Hsize) Hstats].
  eexists. split; [exact Hstats |]. split; [| exact Hsize].
  apply (Hzero Expenses.GROCERIES). apply list_elem_of_here.
Defined.

(** [test_stats_endpoint]: three expenses, total 60000.00, average 20000.00,
    30000.00 of groceries and 30000.00 of leisure. *)
Example test_stats_endpoint :
  ∃ by_category,
    Expenses.stats Fixtures.stats_expenses
      (Fixtures.request_of 1 Expenses.no_params Fixtures.no_data)
    = (HTTP_200_OK
         (Expenses.Statistics (Expenses.mkStatsData 3 6000000 2000000 by_category)),
       Fixtures.stats_expenses)
    ∧ by_category !! "Comestibles" = Some 3000000
    ∧ by_category !! "Entretenimiento" = Some 3000000
    ∧ Expenses.sum_values by_category = 6000000.
Proof. eexists. split; [vm_compute; reflexivity |]. repeat split. Qed.

(** Two expenses of 60,000,000.00: their total has eleven digits, which the
    [DecimalField(max_digits=10)] of the serializer does not render. *)
Example stats_total_of_eleven_digits :
  let expense := Expenses.mkExpense 1 "Apartamento" 6000000000 Expenses.OTHERS
                   (Some "Cuota") Fixtures.today Fixtures.now Fixtures.now in
  let table : gmap Z Expenses.Expense := <[2 := expense]> (<[1 := expense]> ∅) in
  Expenses.total_amount (Expenses.compute_stats (Expenses.get_queryset 1 table))
  = 12000000000
  ∧ Expenses.stats table (Fixtures.request_of 1 Expenses.no_params Fixtures.no_data)
    = (HTTP_500_INTERNAL_SERVER_ERROR, table).
Proof. split; vm_compute; reflexivity. Qed.

(** Three expenses of 0.02, 0.02 and 0.03, with the database of the
    examples: the average of the dictionary is 7/3 of a cent, the response
    carries 0.02. *)
Example stats_average_is_rendered_to_the_cent :
  let expense amount := Expenses.mkExpense 1 "Dulce" amount Expenses.GROCERIES
                          None Fixtures.today Fixtures.now Fixtures.now in
  let table : gmap Z Expenses.Expense :=
    <[3 := expense 3]> (<[2 := expense 2]> (<[1 := expense 2]> ∅)) in
  (Expenses.average_amount (Expenses.compute_stats (Expenses.get_queryset 1 table))
   == 7 # 3)%Q
  ∧ ∃ by_category,
      Expenses.stats table (Fixtures.request_of 1 Expenses.no_params Fixtures.no_data)
      = (HTTP_200_OK (Expenses.Statistics (Expenses.mkStatsData 3 7 2 by_category)),
         table).
Proof. split; [vm_compute; reflexivity | eexists; vm_compute; reflexivity]. Qed.

(** [test_stats_endpoint]: 10000.00, 20000.00 and 30000.00 have an average
    of 20000.00, a whole number of cents. *)
Lemma stats_are_consistent_witness :
  let request := Fixtures.request_of 1 Expenses.no_params Fixtures.no_data in
  Expenses.req_user request = Some 1
  ∧ ∃ data,
      Expenses.stats Fixtures.stats_expenses request
      = (HTTP_200_OK (Expenses.Statistics data), Fixtures.stats_expenses)
      ∧ Expenses.data_total_expenses data = 3%nat
      ∧ Expenses.sum_values (Expenses.data_by_category data)
        = Expenses.data_total_amount data
      ∧ Z.abs (Expenses.data_average_amount data * 3
               - Expenses.data_total_amount data) < 3.
Proof.
  intros request. split; [reflexivity |].
  destruct (Expenses.stats Fixtures.stats_expenses request) as [response table']
    eqn:Hstats.
  assert (Hdata : ∃ data, response = HTTP_200_OK (Expenses.Statistics data)
                          ∧ table' = Fixtures.stats_expenses
                          ∧ Expenses.data_total_expenses data = 3%nat).
  { vm_compute in Hstats. injection Hstats as <- <-. by eexists. }
  destruct Hdata as (data & -> & -> & Hcount). exists data.
  split; [reflexivity |]. split; [exact Hcount |].
  destruct (proj2 (stats_are_consistent Fixtures.stats_expenses request 1 eq_refl)
              data Fixtures.stats_expenses Hstats)
    as (Hsum & _ & _ & _ & _ & Haverage).
  split; [exact Hsum |]. rewrite Hcount in Haverage.
  exact (proj1 (Haverage ltac:(discriminate))).
Defined.

(** C9, as the specification has it, fails for the average: three expenses
    of 0.02, 0.02 and 0.03 have a total of 0.07, and whatever the database
    answers for their average, the average of the response is a whole
    number of cents, which times 3 is not 0.07.  With a database that
    divides exactly, the response carries 0.02. *)
Lemma stats_average_is_not_the_quotient :
  let expense amount := Expenses.mkExpense 1 "Dulce" amount Expenses.GROCERIES
                          None Fixtures.today Fixtures.now Fixtures.now in
  let table : gmap Z Expenses.Expense :=
    <[3 := expense 3]> (<[2 := expense 2]> (<[1 := expense 2]> ∅)) in
  let request := Fixtures.request_of 1 Expenses.no_params Fixtures.no_data in
  (∀ database : Expenses.Database,
     ∃ data,
       Expenses.stats table request
       = (HTTP_200_OK (Expenses.Statistics data), table)
       ∧ Expenses.data_total_expenses data = 3%nat
       ∧ Expenses.data_total_amount data = 7
       ∧ Expenses.data_average_amount data * 3 ≠ Expenses.data_total_amount data)
  ∧ ∃ by_category,
      Expenses.stats (database := Fixtures.database) table request
      = (HTTP_200_OK (Expenses.Statistics (Expenses.mkStatsData 3 7 2 by_category)),
         table).
Proof.
  intros expense table request. split.
  - intros database.
    assert (Hrows : ∀ pk e, table !! pk = Some e → Expenses.user e = 1 →
                            0 ≤ Expenses.amount e).
    { intros pk e Hlook _. revert pk e Hlook.
      apply (bool_decide_unpack (map_Forall (λ _ e, 0 ≤ Expenses.amount e) table)).
      vm_compute. exact I. }
    assert (Htotal : Expenses.amount_total (Expenses.get_queryset 1 table) = 7)
      by (vm_compute; reflexivity).
    destruct (stats_renders table request 1 eq_refl Hrows) as (data & Hstats & Ht & _).
    { rewrite Htotal. lia. }
    exists data. split; [exact Hstats |].
    destruct (stats_response table request 1 data table eq_refl Hstats)
      as (_ & Hn & _).
    split; [exact Hn |]. rewrite Ht, Htotal. split; [reflexivity | lia].
  - eexists. vm_compute. reflexivity.
Qed.

(** ** The application [users]: the manager *)

Section CustomUserManager.

Import Users.

Variable normalize_email : string → string.
Variable make_password : string → string.

(** What the three [setdefault] calls of [create_superuser] leave in
    [extra_fields]. *)
Lemma setdefaults_superuser extra_fields :
  setdefault_is_active true
    (setdefault_is_superuser true (setdefault_is_staff true extra_fields))
  = {| kw_first_name := kw_first_name extra_fields;
       kw_last_name := kw_last_name extra_fields;
       kw_is_active := Some (default true (kw_is_active extra_fields));
       kw_is_staff := Some (default true (kw_is_staff extra_fields));
       kw_is_superuser := Some (default true (kw_is_superuser extra_fields)) |}.
Proof. reflexivity. Qed.

(** The row that [create_user] stores has the flags of the keywords. *)
Lemma create_user_flags table now email password extra_fields pk user table' :
  create_user normalize_email make_password table now email password extra_fields
  = inr (pk, user, table') →
  is_active user = default true (kw_is_active extra_fields)
  ∧ is_staff user = default false (kw_is_staff extra_fields)
  ∧ is_superuser user = default false (kw_is_superuser extra_fields)
  ∧ table' !! pk = Some user.
Proof.
  unfold create_user, save_new. case_decide; [done |].
  destruct (email_taken _ _ _); [done |]. intros [= <- <- <-]. simpl.
  repeat split; try done. apply lookup_insert_eq.
Qed.

(** C3, as the code has it.  [create_superuser] is [create_user] on the
    keywords with [is_staff], [is_superuser] and [is_active] defaulting to
    true, except that it raises [ValueError], storing nothing, when
    [is_staff=False] or [is_superuser=False] is passed.  So a superuser that
    is created has [is_staff] and [is_superuser] true; [is_active] is true
    unless [is_active=False] was passed, which is accepted and stored. *)
Theorem create_superuser_defaults_and_checks table now email password extra_fields :
  create_superuser normalize_email make_password table now email password extra_fields
  = (if bool_decide (kw_is_staff extra_fields = Some false) then
       inl (ValueError "El superusuario debe tener is_staff=True")
     else if bool_decide (kw_is_superuser extra_fields = Some false) then
       inl (ValueError "El superusuario debe tener is_superuser=True")
     else
       create_user normalize_email make_password table now email password
         {| kw_first_name := kw_first_name extra_fields;
            kw_last_name := kw_last_name extra_fields;
            kw_is_active := Some (default true (kw_is_active extra_fields));
            kw_is_staff := Some true;
            kw_is_superuser := Some true |})
  ∧ (∀ pk user table',
       create_superuser normalize_email make_password table now email password
         extra_fields = inr (pk, user, table') →
       is_staff user = true ∧ is_superuser user = true
       ∧ is_active user = default true (kw_is_active extra_fields)
       ∧ table' !! pk = Some user).
Proof.
  assert (Heq :
    create_superuser normalize_email make_password table now email password
      extra_fields
    = (if bool_decide (kw_is_staff extra_fields = Some false) then
         inl (ValueError "El superusuario debe tener is_staff=True")
       else if bool_decide (kw_is_superuser extra_fields = Some false) then
         inl (ValueError "El superusuario debe tener is_superuser=True")
       else
         create_user normalize_email make_password table now email password
           {| kw_first_name := kw_first_name extra_fields;
              kw_last_name := kw_last_name extra_fields;
              kw_is_active := Some (default true (kw_is_active extra_fields));
              kw_is_staff := Some true;
              kw_is_superuser := Some true |})).
  { unfold create_superuser. rewrite setdefaults_superuser. simpl.
    destruct (kw_is_staff extra_fields) as [[] |],
             (kw_is_superuser extra_fields) as [[] |]; reflexivity. }
  split; [exact Heq |].
  intros pk user table'. rewrite Heq.
  repeat case_bool_decide; try done.
  intros Hcreate. apply create_user_flags in Hcreate. simpl in Hcreate.
  destruct Hcreate as (-> & -> & -> & ->). done.
Qed.

End CustomUserManager.

(** [test_create_superuser]. *)
Example test_create_superuser :
  ∃ user,
    Users.create_superuser Fixtures.normalize_email Fixtures.make_password
      ∅ Fixtures.now "admin@example.com" "AdminPassword123!" Fixtures.admin_fields
    = inr (1, user, {[ 1 := user ]})
    ∧ Users.is_staff user = true ∧ Users.is_superuser user = true
    ∧ Users.is_active user = true.
Proof. eexists. split; [vm_compute; reflexivity | done]. Qed.

(** [test_email_normalization]. *)
Example test_email_normalization :
  Fixtures.normalize_email "TEST@EXAMPLE.COM" = "TEST@example.com".
Proof. reflexivity. Qed.

(** C3, as the specification has it, fails for [is_active]: with [is_active=False]
    the call does not fail, and the superuser it stores is not active. *)
Lemma create_superuser_accepts_is_active_false :
  let user :=
    Users.mkCustomUser "admin@example.com"
      (Fixtures.make_password "AdminPassword123!") "Admin" "User"
      false true true Fixtures.now Fixtures.now in
  Users.kw_is_active Fixtures.inactive_admin_fields = Some false
  ∧ Users.create_superuser Fixtures.normalize_email Fixtures.make_password
      ∅ Fixtures.now "admin@example.com" "AdminPassword123!"
      Fixtures.inactive_admin_fields
    = inr (1, user, {[ 1 := user ]})
  ∧ Users.is_active user = false.
Proof. split; [reflexivity | split; [vm_compute; reflexivity | reflexivity]]. Qed.

(** ** The application [users]: the profile *)

Section UserProfile.

Import Users.

Variable valid_email : string → bool.

Lemma char_field_accepted max_length partial data v :
  char_field max_length partial data = Accepted v →
  ∃ s, data = Some s ∧ v = py_strip s.
Proof.
  unfold char_field, MaxLengthValidator, ProhibitNullCharactersValidator, missing.
  destruct data as [s |].
  - repeat case_decide; try done. destruct (has_null _); [done |].
    intros [= <-]. eauto.
  - by destruct partial.
Qed.

Lemma char_field_omitted max_length partial data :
  char_field max_length partial data = Omitted → data = None.
Proof.
  unfold char_field, MaxLengthValidator, ProhibitNullCharactersValidator, missing.
  destruct data as [s |]; [| done].
  repeat case_decide; try done. by destruct (has_null _).
Qed.

(** The validated email is the email of the body, stripped; without an
    entry in the body there is none in the validated data. *)
Lemma to_internal_value_email table pk partial data attrs :
  to_internal_value valid_email table pk partial data = inr attrs →
  a_email attrs = py_strip <$> d_email data.
Proof.
  unfold to_internal_value, email_field. intros Hattrs.
  destruct (char_field 254 partial (d_email data)) as [| v | msg] eqn:Hemail.
  - apply char_field_omitted in Hemail as ->.
    destruct (char_field 150 _ (d_first_name data)),
      (char_field 150 _ (d_last_name data)), (is_active_field _);
      simpl in Hattrs; try discriminate; by injection Hattrs as <-.
  - apply char_field_accepted in Hemail as (s & -> & ->).
    destruct (valid_email _), (email_taken _ _ _),
      (char_field 150 _ (d_first_name data)),
      (char_field 150 _ (d_last_name data)), (is_active_field _);
      simpl in Hattrs; try discriminate; by injection Hattrs as <-.
  - simpl in Hattrs. discriminate.
Qed.

(** C2, as the code has it.  In a PUT or PATCH of the profile, [date_joined]
    (as [id] and [full_name]) is not read from the body: the request has the
    same outcome whatever the body gives for these fields, and the stored
    [date_joined] is unchanged.  [email] is a writable field: when the
    request succeeds and the body has an email, the stored email is the
    email of the body (stripped of surrounding white space).  A request
    that does not succeed changes nothing. *)
Theorem profile_update_keeps_date_joined table request method pk me :
  method ∈ [PUT; PATCH] →
  req_user request = Some pk →
  table !! pk = Some me →
  (∀ id full_name date_joined,
     UserProfileView valid_email method table
       (with_read_only_entries id full_name date_joined request)
     = UserProfileView valid_email method table request)
  ∧ ∃ response table' me',
      UserProfileView valid_email method table request = (response, table')
      ∧ table' !! pk = Some me'
      ∧ date_joined me' = date_joined me
      ∧ (∀ k, k ≠ pk → table' !! k = table !! k)
      ∧ ((∃ data, response = HTTP_200_OK data) →
         email me' = from_option py_strip (email me) (d_email (req_data request)))
      ∧ ((∀ data, response ≠ HTTP_200_OK data) → table' = table).
Proof.
  intros Hmethod Hauth Hme.
  assert (Hupdate : ∀ partial,
    ∃ response table' me',
      update valid_email partial table request = (response, table')
      ∧ table' !! pk = Some me'
      ∧ date_joined me' = date_joined me
      ∧ (∀ k, k ≠ pk → table' !! k = table !! k)
      ∧ ((∃ data, response = HTTP_200_OK data) →
         email me' = from_option py_strip (email me) (d_email (req_data request)))
      ∧ ((∀ data, response ≠ HTTP_200_OK data) → table' = table)).
  { intros partial. unfold update, get_object. rewrite Hauth. simpl.
    rewrite Hme. simpl.
    destruct (to_internal_value _ _ _ _ _) as [errors | attrs] eqn:Hattrs.
    - exists (HTTP_400_BAD_REQUEST errors), table, me.
      repeat split; try done. by intros [data Hdata].
    - eexists _, _, _. split; [done |].
      split; [apply lookup_insert_eq |]. split; [done |].
      split; [by intros k Hk; apply lookup_insert_ne |].
      split.
      + intros _. simpl.
        rewrite (to_internal_value_email _ _ _ _ _ Hattrs).
        by destruct (d_email (req_data request)).
      + intros Hnot. by destruct (Hnot (pk, update_instance me (req_now request) attrs)). }
  split.
  - intros id full_name dj. by destruct method.
  - apply elem_of_cons in Hmethod as [-> | Hmethod]; [apply Hupdate |].
    apply elem_of_cons in Hmethod as [-> | Hmethod]; [apply Hupdate |].
    by apply elem_of_nil in Hmethod.
Qed.

End UserProfile.

(** A PATCH of the first user's profile with a new email and a date of
    registration: the email is stored, the date is not. *)
Lemma profile_update_keeps_date_joined_witness :
  let request := Users.mkRequest (Some 1) Fixtures.new_email (Fixtures.now + 60) in
  PATCH ∈ [PUT; PATCH]
  ∧ Users.req_user request = Some 1
  ∧ Fixtures.users !! 1 = Some Fixtures.user1
  ∧ ∃ response table' me',
      Users.UserProfileView Fixtures.simple_email PATCH Fixtures.users request
      = (response, table')
      ∧ table' !! 1 = Some me'
      ∧ Users.date_joined me' = Fixtures.now
      ∧ Users.email me' = "new@example.com".
Proof.
  intros request.
  assert (Hmethod : PATCH ∈ [PUT; PATCH]) by (apply list_elem_of_further, list_elem_of_here).
  split; [exact Hmethod |]. split; [reflexivity |]. split; [reflexivity |].
  destruct (profile_update_keeps_date_joined Fixtures.simple_email Fixtures.users
              request PATCH 1 Fixtures.user1 Hmethod eq_refl eq_refl)
    as (_ & response & table' & me' & Hview & Hstored & Hjoined & _ & Hemail & _).
  exists response, table', me'.
  split; [exact Hview |]. split; [exact Hstored |]. split; [exact Hjoined |].
  apply Hemail. vm_compute in Hview. injection Hview as <- _. eexists. reflexivity.
Defined.

(** C2, as the specification has it, fails for [email]: after this PATCH the email
    of the first user is the one of the body, not the one that was stored. *)
Lemma profile_update_changes_email :
  let request := Users.mkRequest (Some 1) Fixtures.new_email (Fixtures.now + 60) in
  let outcome :=
    Users.UserProfileView Fixtures.simple_email PATCH Fixtures.users request in
  Users.d_email (Users.req_data request) = Some "new@example.com"
  ∧ Users.email <$> Fixtures.users !! 1 = Some "user1@example.com"
  ∧ Users.email <$> outcome.2 !! 1 = Some "new@example.com"
  ∧ Users.date_joined <$> outcome.2 !! 1 = Users.date_joined <$> Fixtures.users !! 1.
Proof. repeat split; vm_compute; reflexivity. Qed.

(** ** The token service: a revoked token stays revoked *)

Section Revocation.

Import Tokens Users Sessions.

Variable cfg : Settings.

(** A token on the blacklist does not pass the check. *)
Lemma verify_blacklisted st now jti user exp :
  jti ∈ blacklist st →
  verify st now (Signed jti user exp)
  = Some (if decide (exp ≤ now) then InvalidOrExpiredToken else Revoked).
Proof.
  intros Hin. unfold verify. case_decide; [done |]. by case_decide.
Qed.

Lemma blacklist_token_grows st token : blacklist st ⊆ blacklist (blacklist_token st token).
Proof. destruct token; simpl; set_solver. Qed.

(** A logout that answers 205 is a revocation of the token of the body. *)
Lemma logout_revokes st request st' :
  LogoutView_post st request = (HTTP_205_RESET_CONTENT, st') →
  revoke st (logout_now request) (refresh request) = inr st'
  ∧ ∃ jti user exp,
      refresh request = Some (Signed jti user exp) ∧ jti ∈ blacklist st'.
Proof.
  unfold LogoutView_post, revoke.
  destruct (logout_user request); [| done].
  destruct (refresh request) as [token |]; [| done].
  destruct (verify st (logout_now request) token) eqn:Hverify; [done |].
  intros [= <-]. split; [done |].
  destruct token as [| jti user exp]; [done |].
  exists jti, user, exp. split; [done |]. simpl. set_solver.
Qed.

(** No event takes an identifier off the blacklist. *)
Lemma step_blacklist_grows st event : blacklist st ⊆ blacklist (step cfg st event).
Proof.
  destruct event as [now user | now token | request]; simpl; [done | done |].
  unfold LogoutView_post.
  destruct (logout_user request); [| done].
  destruct (refresh request) as [token |]; [| done].
  destruct (verify st (logout_now request) token); [done |].
  apply blacklist_token_grows.
Qed.

Lemma run_blacklist_grows events :
  ∀ st, blacklist st ⊆ blacklist (run cfg st events).
Proof.
  induction events as [| event events IH]; intros st; simpl; [done |].
  etrans; [apply step_blacklist_grows | apply IH].
Qed.

(** C6.  Once a logout with refresh token [token] has answered 205, then
    after any sequence of later events (tokens issued, refreshes, logouts)
    and at any time, the request for a new access token with [token] fails:
    with [Revoked], or with [InvalidOrExpiredToken] when the token has
    expired by then.  No access token is minted. *)
Theorem revoked_refresh_token_is_rejected st request token st' :
  refresh request = Some token →
  LogoutView_post st request = (HTTP_205_RESET_CONTENT, st') →
  ∀ events now,
    ∃ error,
      refreshAccess cfg (run cfg st' events) now token = inl error
      ∧ (error = Revoked ∨ error = InvalidOrExpiredToken)
      ∧ ∀ jti user exp, token = Signed jti user exp → now < exp → error = Revoked.
Proof.
  intros Htoken Hlogout events now.
  apply logout_revokes in Hlogout as [_ (jti & user & exp & Hsigned & Hin)].
  rewrite Htoken in Hsigned. injection Hsigned as ->.
  assert (Hlater : jti ∈ blacklist (run cfg st' events))
    by (by apply (run_blacklist_grows events st')).
  unfold refreshAccess. rewrite (verify_blacklisted _ now jti user exp Hlater).
  case_decide.
  - exists InvalidOrExpiredToken. split; [done |]. split; [by right |].
    intros ? ? ? [= <- <- <-] ?. lia.
  - exists Revoked. split; [done |]. split; [by left | done].
Qed.

End Revocation.

(** [test_logout_success], followed by a login, a second logout with the same
    token and the passing of a minute: the token is refused. *)
Lemma revoked_refresh_token_is_rejected_witness :
  let request :=
    Users.mkLogoutRequest (Some 1) (Some Fixtures.refresh_token) Fixtures.now in
  let st' := Tokens.blacklist_token Fixtures.issued Fixtures.refresh_token in
  let events :=
    [Sessions.ObtainTokens (Fixtures.now + 10) 1;
     Sessions.Logout request;
     Sessions.RefreshAccess (Fixtures.now + 20) Fixtures.refresh_token] in
  Users.refresh request = Some Fixtures.refresh_token
  ∧ Users.LogoutView_post Fixtures.issued request = (HTTP_205_RESET_CONTENT, st')
  ∧ Tokens.refreshAccess Fixtures.settings
      (Sessions.run Fixtures.settings st' events) (Fixtures.now + 60)
      Fixtures.refresh_token
    = inl Tokens.Revoked.
Proof.
  intros request st' events.
  assert (Hlogout : Users.LogoutView_post Fixtures.issued request
                    = (HTTP_205_RESET_CONTENT, st'))
    by (vm_compute; reflexivity).
  split; [reflexivity |]. split; [exact Hlogout |].
  destruct (revoked_refresh_token_is_rejected Fixtures.settings Fixtures.issued
              request Fixtures.refresh_token st' eq_refl Hlogout events
              (Fixtures.now + 60))
    as (error & Hrefresh & _ & Hrevoked).
  rewrite Hrefresh. f_equal.
  apply (Hrevoked 1 1 (Fixtures.now + 86400)); [reflexivity | reflexivity].
Defined.

(** Before the logout the same token does mint an access token. *)
Example refresh_before_logout :
  Tokens.refreshAccess Fixtures.settings Fixtures.issued (Fixtures.now + 60)
    Fixtures.refresh_token
  = inr (Tokens.mkAccessToken 1 (Fixtures.now + 60 + 300)).
Proof. vm_compute. reflexivity. Qed.

(** * Part II, continued: further properties of the code *)

(** ** The application [expenses]: the filters together *)

Section Filters.

Import Expenses.

Variable icontains : string → string → bool.

(** The bound that a period name puts on the date. *)
Lemma filter_by_period_bound today (queryset : gmap Z Expense) value pk e :
  filter_by_period today queryset value !! pk = Some e ↔
  queryset !! pk = Some e
  ∧ ∀ n, (value, n) ∈ [("week", 7); ("month", 30); ("3months", 90)] →
         date e >= today - n.
Proof.
  rewrite filter_by_period_lookup. split.
  - intros (Hin & Hweek & Hmonth & H3months). split; [done |].
    intros n Hn.
    repeat (apply elem_of_cons in Hn as [[= -> ->] | Hn]);
      [specialize (Hweek eq_refl) | specialize (Hmonth eq_refl)
       | specialize (H3months eq_refl) | by apply elem_of_nil in Hn]; lia.
  - intros (Hin & Hbound). split; [done |].
    repeat split; intros ->.
    + specialize (Hbound 7 (list_elem_of_here _ _)). lia.
    + specialize (Hbound 30 (list_elem_of_further _ _ _ (list_elem_of_here _ _))). lia.
    + specialize (Hbound 90 (list_elem_of_further _ _ _
                               (list_elem_of_further _ _ _ (list_elem_of_here _ _)))).
      lia.
Qed.

(** What [ExpenseFilter] selects: the rows that pass every filter whose
    parameter has a value. *)
Lemma ExpenseFilter_lookup today params (queryset : gmap Z Expense) pk e :
  ExpenseFilter today params queryset !! pk = Some e ↔
  queryset !! pk = Some e
  ∧ (∀ c, q_category params = Some c → category e = c)
  ∧ (∀ d, q_start_date params = Some d → date e >= d)
  ∧ (∀ d, q_end_date params = Some d → date e ≤ d)
  ∧ (∀ a, q_min_amount params = Some a → amount e >= a)
  ∧ (∀ a, q_max_amount params = Some a → amount e ≤ a)
  ∧ (∀ value n, q_period params = Some value →
       (value, n) ∈ [("week", 7); ("month", 30); ("3months", 90)] →
       date e >= today - n).
Proof.
  unfold ExpenseFilter, apply_filter.
  destruct (q_period params) as [value |];
    [rewrite filter_by_period_bound |];
    destruct (q_max_amount params), (q_min_amount params), (q_end_date params),
      (q_start_date params), (q_category params);
    rewrite ?map_lookup_filter_Some; simpl;
    (split;
     [ intros H; repeat split; intros; simplify_eq; try tauto;
       try (by apply H)
     | intros (Hin & Hc & Hs & He & Hmin & Hmax & Hp);
       repeat split; eauto ]).
Qed.

(** What [filter_queryset] selects: the rows that [ExpenseFilter] selects
    and that have every term of the search. *)
Lemma filter_queryset_selects request (queryset : gmap Z Expense) pk e :
  filter_queryset icontains request queryset !! pk = Some e ↔
  queryset !! pk = Some e
  ∧ (∀ c, q_category (req_query request) = Some c → category e = c)
  ∧ (∀ d, q_start_date (req_query request) = Some d → date e >= d)
  ∧ (∀ d, q_end_date (req_query request) = Some d → date e ≤ d)
  ∧ (∀ a, q_min_amount (req_query request) = Some a → amount e >= a)
  ∧ (∀ a, q_max_amount (req_query request) = Some a → amount e ≤ a)
  ∧ (∀ value n, q_period (req_query request) = Some value →
       (value, n) ∈ [("week", 7); ("month", 30); ("3months", 90)] →
       date e >= req_today request - n)
  ∧ (∀ term, term ∈ q_search (req_query request) →
       icontains (title e) term = true
       ∨ ∃ d, description e = Some d ∧ icontains d term = true).
Proof.
  unfold filter_queryset.
  rewrite map_lookup_filter_Some, ExpenseFilter_lookup. simpl.
  assert (Hsearch :
    matches_search icontains (q_search (req_query request)) e = true ↔
    ∀ term, term ∈ q_search (req_query request) →
      icontains (title e) term = true
      ∨ ∃ d, description e = Some d ∧ icontains d term = true).
  { unfold matches_search. rewrite forallb_forall. split.
    - intros H term Hterm. apply list_elem_of_In in Hterm.
      specialize (H term Hterm). apply orb_true_iff in H as [H | H]; [by left |].
      right. destruct (description e) as [d |]; [eauto | done].
    - intros H term Hterm. apply list_elem_of_In in Hterm.
      apply orb_true_iff. destruct (H term Hterm) as [Ht | (d & Hd & Ht)];
        [by left | right]. by rewrite Hd. }
  rewrite Hsearch. tauto.
Qed.


(** X2.  A period does not replace [start_date]: with both in the query, the
    later of the two days is the lower bound of the dates listed. *)
Theorem period_and_start_date_combine table request r start value n :
  req_user request = Some r →
  q_start_date (req_query request) = Some start →
  q_period (req_query request) = Some value →
  (value, n) ∈ [("week", 7); ("month", 30); ("3months", 90)] →
  ∃ results,
    list_ icontains table request = (HTTP_200_OK (Results results), table)
    ∧ ∀ pk e, results !! pk = Some e →
              date e >= Z.max start (req_today request - n).
Proof.
  intros Hauth Hstart Hperiod Hn. unfold list_. rewrite Hauth.
  eexists. split; [done |]. intros pk e Hlook.
  apply filter_queryset_selects in Hlook
    as (_ & _ & Hs & _ & _ & _ & Hp & _).
  specialize (Hs start Hstart). specialize (Hp value n Hperiod Hn). lia.
Qed.

(** X3.  Bounds that contradict each other are not an error: with
    [start_date] after [end_date], or [min_amount] above [max_amount], the
    answer is 200 with an empty listing. *)
Theorem contradictory_bounds_list_nothing table request r :
  req_user request = Some r →
  (∃ s e, q_start_date (req_query request) = Some s
          ∧ q_end_date (req_query request) = Some e ∧ s > e)
  ∨ (∃ a b, q_min_amount (req_query request) = Some a
            ∧ q_max_amount (req_query request) = Some b ∧ a > b) →
  list_ icontains table request = (HTTP_200_OK (Results ∅), table).
Proof.
  intros Hauth Hbounds. unfold list_. rewrite Hauth. do 2 f_equal. f_equal.
  apply map_eq. intros pk. rewrite lookup_empty.
  destruct (filter_queryset _ _ _ !! pk) as [e |] eqn:Hlook; [| done].
  apply filter_queryset_selects in Hlook
    as (_ & _ & Hs & He & Hmin & Hmax & _).
  destruct Hbounds as [(s & e' & Hs' & He' & Hlt) | (a & b & Ha & Hb & Hlt)].
  - specialize (Hs s Hs'). specialize (He e' He'). lia.
  - specialize (Hmin a Ha). specialize (Hmax b Hb). lia.
Qed.

End Filters.


(** A week that starts three days ago. *)
Lemma period_and_start_date_combine_witness :
  let query := Expenses.mkQueryParams None (Some (Fixtures.today - 3)) None
                 None None (Some "week") [] in
  let request := Fixtures.request_of 1 query Fixtures.no_data in
  Expenses.req_user request = Some 1
  ∧ Expenses.q_start_date (Expenses.req_query request) = Some (Fixtures.today - 3)
  ∧ Expenses.q_period (Expenses.req_query request) = Some "week"
  ∧ ("week", 7) ∈ [("week", 7); ("month", 30); ("3months", 90)]
  ∧ ∃ results,
      Expenses.list_ Fixtures.contains Fixtures.filter_expenses request
      = (HTTP_200_OK (Expenses.Results results), Fixtures.filter_expenses)
      ∧ ∀ pk e, results !! pk = Some e →
                Expenses.date e >= Z.max (Fixtures.today - 3) (Fixtures.today - 7).
Proof.
  intros query request.
  assert (Hweek : ("week", 7) ∈ [("week", 7); ("month", 30); ("3months", 90)])
    by apply list_elem_of_here.
  split; [reflexivity |]. split; [reflexivity |]. split; [reflexivity |].
  split; [exact Hweek |].
  exact (period_and_start_date_combine Fixtures.contains Fixtures.filter_expenses
           request 1 (Fixtures.today - 3) "week" 7 eq_refl eq_refl eq_refl Hweek).
Defined.

(** An amount from 1000.00 up to 500.00. *)
Lemma contradictory_bounds_list_nothing_witness :
  let query := Expenses.mkQueryParams None None None (Some 100000) (Some 50000)
                 None [] in
  let request := Fixtures.request_of 1 query Fixtures.no_data in
  Expenses.req_user request = Some 1
  ∧ Expenses.q_min_amount (Expenses.req_query request) = Some 100000
  ∧ Expenses.q_max_amount (Expenses.req_query request) = Some 50000
  ∧ 100000 > 50000
  ∧ Expenses.list_ Fixtures.contains Fixtures.filter_expenses request
    = (HTTP_200_OK (Expenses.Results ∅), Fixtures.filter_expenses).
Proof.
  intros query request.
  split; [reflexivity |]. split; [reflexivity |]. split; [reflexivity |].
  split; [reflexivity |].
  apply (contradictory_bounds_list_nothing Fixtures.contains
           Fixtures.filter_expenses request 1 eq_refl).
  right. exists 100000, 50000. repeat split.
Defined.

(** ** The application [expenses]: what the serializer accepts *)

Section Bodies.

Import Expenses Ledger.

(** The codes of the categories are pairwise different, so a code names one
    category. *)
Lemma category_of_code_Some code c :
  category_of_code code = Some c ↔ code = category_code c.
Proof.
  split.
  - unfold category_of_code. simpl.
    repeat (case_bool_decide; [simpl; intros [= <-]; by subst |]).
    done.
  - intros ->. by destruct c.
Qed.

(** X4.  [category] takes exactly the seven codes of [CATEGORY_CHOICES], as
    they are written there, and reads each as its category; every other
    string is refused with a message that quotes it, in a full and in a
    partial body. *)
Theorem category_field_takes_the_codes partial code :
  (∀ c, category_field partial (Some code) = Accepted c ↔
        (code, c) ∈ [("GROCERIES", GROCERIES); ("LEISURE", LEISURE);
                     ("ELECTRONICS", ELECTRONICS); ("UTILITIES", UTILITIES);
                     ("CLOTHING", CLOTHING); ("HEALTH", HEALTH);
                     ("OTHERS", OTHERS)])
  ∧ (code ∉ ["GROCERIES"; "LEISURE"; "ELECTRONICS"; "UTILITIES"; "CLOTHING";
             "HEALTH"; "OTHERS"] →
     category_field partial (Some code)
     = Rejected (quoted code +:+ " is not a valid choice.")).
Proof.
  split.
  - intros c. split.
    + unfold category_field.
      destruct (category_of_code code) as [c' |] eqn:Hcode; [| done].
      intros [= <-]. apply category_of_code_Some in Hcode as ->.
      destruct c'; simpl; rewrite !elem_of_cons; auto 10.
    + intros Hin.
      repeat (apply elem_of_cons in Hin as [[= -> ->] | Hin]; [reflexivity |]).
      by apply elem_of_nil in Hin.
  - intros Hnot. unfold category_field.
    destruct (category_of_code code) as [c |] eqn:Hcode; [| done].
    exfalso. apply Hnot. apply category_of_code_Some in Hcode as ->.
    destruct c; simpl; rewrite !elem_of_cons; auto 10.
Qed.

Lemma amount_field_accepted partial a :
  2 ≤ a < 10 ^ 10 → amount_field partial (Some a) = Accepted a.
Proof.
  intros Ha. unfold amount_field, validate_amount.
  rewrite decide_False by lia.
  destruct (Qlt_le_dec _ _) as [Hlt | _].
  - exfalso. unfold Qlt, MIN_AMOUNT in Hlt. simpl in Hlt. lia.
  - by rewrite decide_False by lia.
Qed.

Lemma amount_field_rejected partial a :
  ¬ (2 ≤ a < 10 ^ 10) → ∃ msg, amount_field partial (Some a) = Rejected msg.
Proof.
  intros Ha. unfold amount_field, validate_amount.
  case_decide; [by eexists |].
  destruct (Qlt_le_dec _ _) as [_ | Hle]; [by eexists |].
  exfalso. unfold Qle, MIN_AMOUNT in Hle. simpl in Hle. lia.
Qed.

(** X5.  The amounts that the serializer accepts are those from 0.02 to
    99,999,999.99: more than ten digits are refused, and so is everything
    below the floating point number 0.01 of the model's minimum, which is a
    little more than the decimal 0.01, so that 0.01 itself is refused. *)
Theorem amount_bounds partial a :
  (amount_field partial (Some a) = Accepted a ↔ 2 ≤ a < 10 ^ 10)
  ∧ (¬ (2 ≤ a < 10 ^ 10) → ∃ msg, amount_field partial (Some a) = Rejected msg)
  ∧ amount_field partial (Some 1)
    = Rejected "Ensure this value is greater than or equal to 0.01.".
Proof.
  split; [| split].
  - split; [| apply amount_field_accepted].
    intros Hacc. destruct (decide (2 ≤ a < 10 ^ 10)) as [| Hno]; [done |].
    destruct (amount_field_rejected partial a Hno) as [msg Hmsg]. congruence.
  - apply amount_field_rejected.
  - reflexivity.
Qed.

(** What a field that does not refuse its entry hands on. *)
Lemma char_field_Some max_length partial s v :
  char_field max_length partial (Some s) = Accepted v ↔
  v = py_strip s ∧ py_strip s ≠ "" ∧ (py_len (py_strip s) ≤ max_length)%nat
  ∧ has_null (py_strip s) = false.
Proof.
  unfold char_field, MaxLengthValidator, ProhibitNullCharactersValidator.
  destruct (decide (py_strip s = "")) as [Hblank | Hblank];
    [split; [done | by intros (_ & ? & _)] |].
  destruct (decide (max_length < py_len (py_strip s))%nat) as [Hlong | Hlong];
    [split; [done | intros (_ & _ & ? & _); lia] |].
  destruct (has_null (py_strip s)) eqn:Hnull;
    [split; [done | by intros (_ & _ & _ & ?)] |].
  split; [intros [= <-]; split_and!; [done | done | lia | done] | by intros [-> _]].
Qed.

Lemma char_field_value max_length partial data :
  (∀ msg, char_field max_length partial data ≠ Rejected msg) →
  value_of (char_field max_length partial data) = py_strip <$> data.
Proof.
  intros Hnot. destruct data as [s |].
  - destruct (char_field max_length partial (Some s)) as [| v | msg] eqn:Hfield.
    + apply char_field_omitted in Hfield. discriminate.
    + by apply char_field_Some in Hfield as [-> _].
    + by destruct (Hnot msg).
  - unfold char_field, missing in *. destruct partial; [done |].
    by edestruct Hnot.
Qed.

Lemma amount_field_value partial data :
  (∀ msg, amount_field partial data ≠ Rejected msg) →
  value_of (amount_field partial data) = data.
Proof.
  intros Hnot. destruct data as [a |].
  - destruct (amount_field_Some partial a) as [Hr | [Hr | [Hr | Hr]]];
      rewrite Hr in *; try done; by edestruct Hnot.
  - unfold amount_field, missing in *. destruct partial; [done |].
    by edestruct Hnot.
Qed.

Lemma category_field_value partial data :
  (∀ msg, category_field partial data ≠ Rejected msg) →
  value_of (category_field partial data) = data ≫= category_of_code.
Proof.
  intros Hnot. unfold category_field, missing in *. destruct data as [code |].
  - simpl. destruct (category_of_code code); [done |]. by edestruct Hnot.
  - destruct partial; [done |]. by edestruct Hnot.
Qed.

Lemma date_field_value partial today data :
  (∀ msg, date_field partial today data ≠ Rejected msg) →
  value_of (date_field partial today data) = data.
Proof.
  intros Hnot. unfold date_field, validate_date, missing in *.
  destruct data as [d |].
  - case_decide; [by edestruct Hnot | done].
  - destruct partial; [done |]. by edestruct Hnot.
Qed.

(** A description that the field lets through has no U+0000. *)
Lemma description_field_null data d :
  (∀ msg, description_field data ≠ Rejected msg) →
  data = Some (Some d) → has_null (py_strip d) = false.
Proof.
  intros Hnot ->. unfold description_field, ProhibitNullCharactersValidator in Hnot.
  cbv zeta in Hnot. case_decide as Heq; [by rewrite Heq |].
  destruct (has_null _); [by edestruct Hnot | done].
Qed.

(** The validated data is made of what the fields hand on, and there is
    one when no field refuses its entry. *)
Lemma to_internal_value_fields partial today data attrs :
  to_internal_value partial today data = inr attrs →
  attrs = {| a_title := value_of (title_field partial (d_title data));
             a_amount := value_of (amount_field partial (d_amount data));
             a_category := value_of (category_field partial (d_category data));
             a_description := value_of (description_field (d_description data));
             a_date := value_of (date_field partial today (d_date data)) |}
  ∧ (∀ msg, title_field partial (d_title data) ≠ Rejected msg)
  ∧ (∀ msg, amount_field partial (d_amount data) ≠ Rejected msg)
  ∧ (∀ msg, category_field partial (d_category data) ≠ Rejected msg)
  ∧ (∀ msg, description_field (d_description data) ≠ Rejected msg)
  ∧ (∀ msg, date_field partial today (d_date data) ≠ Rejected msg).
Proof.
  unfold to_internal_value. intros Hattrs.
  destruct (title_field _ _), (amount_field _ _), (category_field _ _),
    (description_field _), (date_field _ _ _); simpl in Hattrs;
    try discriminate; injection Hattrs as <-; by split_and!.
Qed.

(** The validated data, when there is no field error, is the body with its
    strings stripped and its code read. *)
Lemma to_internal_value_attrs partial today data attrs :
  to_internal_value partial today data = inr attrs →
  attrs = {| a_title := py_strip <$> d_title data;
             a_amount := d_amount data;
             a_category := d_category data ≫= category_of_code;
             a_description :=
               (fmap py_strip : option string → option string)
                 <$> d_description data;
             a_date := d_date data |}.
Proof.
  intros Hattrs.
  apply to_internal_value_fields in Hattrs as (-> & Ht & Ha & Hc & Hd & Hdt).
  unfold title_field in *.
  by rewrite char_field_value, amount_field_value, category_field_value,
    description_field_value, date_field_value.
Qed.

Lemma is_valid_attrs partial today data attrs :
  is_valid partial today data = inr attrs →
  to_internal_value partial today data = inr attrs ∧ validate attrs = inr attrs.
Proof.
  unfold is_valid. destruct (to_internal_value _ _ _) as [| attrs']; [done |].
  intros Hrule.
  assert (attrs' = attrs)
    by (unfold validate in Hrule; repeat case_match; congruence).
  by subst.
Qed.

Lemma validate_inr attrs :
  validate attrs = inr attrs →
  ∀ a, a_amount attrs = Some a → a > LARGE_AMOUNT →
       ∃ d, a_description attrs = Some (Some d) ∧ d ≠ "".
Proof.
  unfold validate. intros Hvalid a Ha Hlarge. rewrite Ha in Hvalid.
  assert (Hnz : a ≠ 0) by (unfold LARGE_AMOUNT in Hlarge; lia).
  rewrite !bool_decide_eq_true_2 in Hvalid by done. simpl in Hvalid.
  destruct (a_description attrs) as [[d |] |]; simpl in Hvalid; try done.
  destruct d; [done |]. eauto.
Qed.

(** A body that is accepted for creation is acceptable. *)
Lemma is_valid_acceptable today data attrs :
  is_valid false today data = inr attrs → acceptable today data.
Proof.
  intros Hvalid. apply is_valid_attrs in Hvalid as [Hattrs Hrule].
  pose proof (to_internal_value_attrs _ _ _ _ Hattrs) as Hshape.
  pose proof (validate_inr attrs Hrule) as Hdesc.
  apply to_internal_value_fields in Hattrs as (_ & Ht & Ha & Hc & Hd & Hdt).
  unfold acceptable. split_and!.
  - unfold title_field in Ht. destruct (d_title data) as [t0 |].
    + destruct (char_field 200 false (Some t0)) as [| v | msg] eqn:Hfield.
      * apply char_field_omitted in Hfield. discriminate.
      * apply char_field_Some in Hfield as (_ & ? & ? & ?). eauto.
      * by destruct (Ht msg).
    + by edestruct Ht.
  - destruct (d_amount data) as [a0 |] eqn:Ha0; [| by edestruct Ha].
    exists a0. split; [done |].
    assert (Hrange : 2 ≤ a0 < 10 ^ 10).
    { destruct (decide (2 ≤ a0 < 10 ^ 10)) as [| Hno]; [done |].
      destruct (amount_field_rejected false a0 Hno) as [msg Hmsg].
      by destruct (Ha msg). }
    split; [done |]. intros Hlarge.
    destruct (Hdesc a0) as (d' & Hd' & Hne); [by rewrite Hshape | done |].
    rewrite Hshape in Hd'. simpl in Hd'.
    destruct (d_description data) as [[d0 |] |]; simplify_eq/=. eauto.
  - unfold category_field in Hc. destruct (d_category data) as [code |].
    + destruct (category_of_code code) as [c' |] eqn:Hcode; [| by edestruct Hc].
      apply category_of_code_Some in Hcode as ->. eauto.
    + by edestruct Hc.
  - intros d. by apply description_field_null.
  - unfold date_field, validate_date in Hdt.
    destruct (d_date data) as [d0 |]; [| by edestruct Hdt].
    case_decide; [by edestruct Hdt |]. exists d0. split; [done | lia].
Qed.

(** An acceptable body is accepted, and the validated data is the body with
    its strings stripped. *)
Lemma acceptable_is_valid today data :
  acceptable today data →
  ∃ t a c d,
    d_title data = Some t ∧ d_amount data = Some a
    ∧ d_category data = Some (category_code c) ∧ d_date data = Some d
    ∧ is_valid false today data
      = inr {| a_title := Some (py_strip t); a_amount := Some a;
               a_category := Some c;
               a_description :=
                 (fmap py_strip : option string → option string)
                   <$> d_description data;
               a_date := Some d |}.
Proof.
  intros ((t & Ht & Htne & Htlen & Htnull) & (a & Ha & Hrange & Hdesc) & (c & Hc)
          & Hnull & (d & Hd & Hdle)).
  exists t, a, c, d. repeat (split; [done |]).
  unfold is_valid, to_internal_value. rewrite Ht, Ha, Hc, Hd.
  unfold title_field.
  rewrite (proj2 (char_field_Some 200 false t (py_strip t))) by done.
  rewrite amount_field_accepted by done.
  unfold category_field. rewrite (proj2 (category_of_code_Some _ c) eq_refl).
  unfold date_field, validate_date. rewrite decide_False by lia.
  assert (Hfield : ∃ r, description_field (d_description data) = r
                        ∧ errors_of "description" r = []
                        ∧ value_of r = (fmap py_strip : option string → option string)
                                         <$> d_description data).
  { assert (Hnot : ∀ msg, description_field (d_description data) ≠ Rejected msg).
    { intros msg. unfold description_field, ProhibitNullCharactersValidator.
      destruct (d_description data) as [[d0 |] |]; [| done | done].
      cbv zeta. case_decide; [done |]. by rewrite (Hnull d0 eq_refl). }
    eexists. split; [reflexivity |]. split; [| by apply description_field_value].
    destruct (description_field _) as [| ? | msg]; [done | done |].
    by destruct (Hnot msg). }
  destruct Hfield as (r & -> & Herr & Hval).
  simpl. rewrite Herr, Hval. simpl.
  unfold validate. simpl.
  destruct (decide (a > LARGE_AMOUNT)) as [Hlarge | Hsmall].
  - destruct (Hdesc Hlarge) as (d0 & -> & Hne). simpl.
    destruct (py_strip d0); [done |]. simpl. by rewrite !andb_false_r.
  - rewrite (bool_decide_eq_false_2 (a > LARGE_AMOUNT)) by done.
    by rewrite andb_false_r.
Qed.

(** X6.  Creation answers 201 exactly for the acceptable bodies, and 400
    with some error for all the others; it never ends in a server error.
    The row that it stores under a new key has the caller as its owner, the
    title and the description of the body stripped of surrounding white
    space, the amount, the category and the date of the body, and the time
    of the request as both timestamps. *)
Theorem create_accepts_exactly table request r :
  req_user request = Some r →
  (acceptable (req_today request) (req_data request) →
   ∃ t a c d,
     d_title (req_data request) = Some t
     ∧ d_amount (req_data request) = Some a
     ∧ d_category (req_data request) = Some (category_code c)
     ∧ d_date (req_data request) = Some d
     ∧ let instance :=
         {| user := r; title := py_strip t; amount := a; category := c;
            description := d_description (req_data request) ≫= fmap py_strip;
            date := d; created_at := req_now request;
            updated_at := req_now request |} in
       create table request
       = (HTTP_201_CREATED (Detail (next_pk table) instance),
          <[next_pk table := instance]> table))
  ∧ (¬ acceptable (req_today request) (req_data request) →
     ∃ error errors,
       create table request = (HTTP_400_BAD_REQUEST (error :: errors), table)).
Proof.
  intros Hauth. unfold create. rewrite Hauth. split.
  - intros Hok. destruct (acceptable_is_valid _ _ Hok)
      as (t & a & c & d & Ht & Ha & Hc & Hd & ->).
    exists t, a, c, d. repeat (split; [done |]). simpl.
    by destruct (d_description (req_data request)) as [[] |].
  - intros Hno.
    destruct (is_valid false _ _) as [errors | attrs] eqn:Hvalid.
    + destruct errors as [| error errors]; [| by eauto].
      exfalso. unfold is_valid in Hvalid.
      destruct (to_internal_value _ _ _) as [errors | attrs] eqn:Hattrs.
      * injection Hvalid as ->. unfold to_internal_value in Hattrs.
        by destruct (_ ++ _).
      * unfold validate, DESCRIPTION_REQUIRED in Hvalid.
        repeat case_match; discriminate.
    + by apply is_valid_acceptable in Hvalid.
Qed.

End Bodies.

(** [test_create_expense_success], and [test_create_expense_with_future_date]. *)
Lemma create_accepts_exactly_witness :
  let good := Fixtures.request_of 1 Expenses.no_params
                (Expenses.mkExpenseData None (Some "  Nuevo Gasto ") (Some 5000000)
                   (Some "UTILITIES") (Some (Some "Pago de servicios"))
                   (Some Fixtures.today)) in
  let bad := Fixtures.request_of 1 Expenses.no_params
               (Expenses.mkExpenseData None (Some "Gasto Futuro") (Some 1000000)
                  (Some "GROCERIES") None (Some (Fixtures.today + 1))) in
  (Expenses.req_user good = Some 1
   ∧ Ledger.acceptable (Expenses.req_today good) (Expenses.req_data good)
   ∧ Expenses.create Fixtures.expenses good
     = (HTTP_201_CREATED
          (Expenses.Detail 4
             (Expenses.mkExpense 1 "Nuevo Gasto" 5000000 Expenses.UTILITIES
                (Some "Pago de servicios") Fixtures.today Fixtures.now Fixtures.now)),
        <[4 := Expenses.mkExpense 1 "Nuevo Gasto" 5000000 Expenses.UTILITIES
                 (Some "Pago de servicios") Fixtures.today Fixtures.now Fixtures.now]>
          Fixtures.expenses))
  ∧ (Expenses.req_user bad = Some 1
     ∧ ¬ Ledger.acceptable (Expenses.req_today bad) (Expenses.req_data bad)
     ∧ ∃ error errors,
         Expenses.create Fixtures.expenses bad
         = (HTTP_400_BAD_REQUEST (error :: errors), Fixtures.expenses)).
Proof.
  intros good bad. split.
  - assert (Hok : Ledger.acceptable (Expenses.req_today good) (Expenses.req_data good)).
    { split_and!.
      - eexists. split; [reflexivity |].
        split; [vm_compute; discriminate |].
        split; [vm_compute; lia | vm_compute; reflexivity].
      - eexists. split; [reflexivity |]. split; [lia |].
        intros Hlarge. vm_compute in Hlarge. discriminate.
      - by exists Expenses.UTILITIES.
      - intros d [= <-]. vm_compute. reflexivity.
      - eexists. split; [reflexivity | reflexivity]. }
    split; [reflexivity |]. split; [exact Hok |].
    destruct (create_accepts_exactly Fixtures.expenses good 1 eq_refl) as [Hcreate _].
    destruct (Hcreate Hok) as (t & a & c & d & Ht & Ha & Hc & Hd & Hresult).
    injection Ht as <-. injection Ha as <-. injection Hd as <-.
    destruct c; try discriminate Hc. exact Hresult.
  - assert (Hno : ¬ Ledger.acceptable (Expenses.req_today bad) (Expenses.req_data bad)).
    { intros (_ & _ & _ & _ & (d & Hd & Hle)). injection Hd as <-.
      vm_compute in Hle. by destruct Hle. }
    split; [reflexivity |]. split; [exact Hno |].
    destruct (create_accepts_exactly Fixtures.expenses bad 1 eq_refl) as [_ Hrefuse].
    exact (Hrefuse Hno).
Defined.

(** ** The application [expenses]: the life of a row *)

Section Rows.

Import Expenses Ledger.

Variable icontains : string → string → bool.

Lemma is_valid_field_errors partial today data error errors :
  field_errors partial today data = error :: errors →
  is_valid partial today data = inl (error :: errors).
Proof.
  unfold is_valid, to_internal_value, field_errors. by intros ->.
Qed.

(** X7.  The rows that a creation or a full update writes are well formed
    on the day of the request: the title is not empty, has at most 200
    characters (whatever the number of bytes of their encoding) and no
    U+0000, the amount is between 0.02 and 99,999,999.99, the date is not
    in the future, and an amount above 1,000,000 comes with a description
    that is not empty. *)
Theorem written_rows_are_well_formed table request r :
  req_user request = Some r →
  (∀ pk e table',
     create table request = (HTTP_201_CREATED (Detail pk e), table') →
     well_formed (req_today request) e ∧ has_null (title e) = false
     ∧ user e = r)
  ∧ (∀ key pk e table',
       expense_detail icontains PUT table request key
       = (HTTP_200_OK (Detail pk e), table') →
       well_formed (req_today request) e ∧ has_null (title e) = false
       ∧ user e = r).
Proof.
  intros Hauth.
  assert (Hattrs : ∀ attrs,
    is_valid false (req_today request) (req_data request) = inr attrs →
    ∃ t a c d,
      attrs = {| a_title := Some t; a_amount := Some a; a_category := Some c;
                 a_description :=
                   (fmap py_strip : option string → option string)
                     <$> d_description (req_data request);
                 a_date := Some d |}
      ∧ t ≠ "" ∧ (py_len t ≤ 200)%nat ∧ has_null t = false
      ∧ 2 ≤ a < 10 ^ 10
      ∧ d ≤ req_today request
      ∧ (a > LARGE_AMOUNT →
         ∃ s, d_description (req_data request) = Some (Some s) ∧ py_strip s ≠ "")).
  { intros attrs Hvalid.
    pose proof (is_valid_acceptable _ _ _ Hvalid) as Hok.
    destruct (acceptable_is_valid _ _ Hok)
      as (t & a & c & d & Ht & Ha & Hc & Hd & Hvalid').
    rewrite Hvalid in Hvalid'. injection Hvalid' as ->.
    destruct Hok as ((t' & Ht' & ? & ? & ?) & (a' & Ha' & ? & ?) & _ & _
                     & (d' & Hd' & ?)).
    simplify_eq. exists (py_strip t'), a', c, d'. split_and!; done || lia. }
  split.
  - intros pk e table'. unfold create. rewrite Hauth.
    destruct (is_valid _ _ _) as [errors | attrs] eqn:Hvalid; [done |].
    destruct (Hattrs attrs eq_refl)
      as (t & a & c & d & -> & Ht & Hlen & Hnull & Ha & Hd & Hdesc).
    simpl. intros [= <- <- <-]. split; [| done].
    unfold well_formed. simpl. split_and!; try done; try lia.
    intros Hlarge. destruct (Hdesc Hlarge) as (s & -> & Hs). simpl.
    by destruct (py_strip s).
  - intros key pk e table'. simpl. unfold update. rewrite Hauth.
    destruct (get_object_cases icontains table request r key)
      as [-> | (instance & -> & Hstored & Howner)]; [done |].
    destruct (is_valid _ _ _) as [errors | attrs] eqn:Hvalid; [done |].
    destruct (Hattrs attrs eq_refl)
      as (t & a & c & d & -> & Ht & Hlen & Hnull & Ha & Hd & Hdesc).
    intros [= <- <- <-]. split; [| done].
    unfold well_formed. simpl. split_and!; try done; try lia.
    intros Hlarge. destruct (Hdesc Hlarge) as (s & -> & Hs). simpl.
    by destruct (py_strip s).
Qed.

(** X8.  A full update asks for the whole body.  When the body of a PUT on
    an expense of the caller lacks one of [title], [amount], [category] and
    [date], the answer is 400, the errors name every one of these keys that
    is missing, and the row stays as it was. *)
Theorem put_needs_the_whole_body table request r pk e :
  req_user request = Some r →
  req_query request = no_params →
  table !! pk = Some e → user e = r →
  d_title (req_data request) = None ∨ d_amount (req_data request) = None
  ∨ d_category (req_data request) = None ∨ d_date (req_data request) = None →
  ∃ errors,
    expense_detail icontains PUT table request pk
    = (HTTP_400_BAD_REQUEST errors, table)
    ∧ (d_title (req_data request) = None →
       ("title", "This field is required.") ∈ errors)
    ∧ (d_amount (req_data request) = None →
       ("amount", "This field is required.") ∈ errors)
    ∧ (d_category (req_data request) = None →
       ("category", "This field is required.") ∈ errors)
    ∧ (d_date (req_data request) = None →
       ("date", "This field is required.") ∈ errors).
Proof.
  intros Hauth Hquery Hstored Howner Hmissing.
  simpl. unfold update. rewrite Hauth.
  rewrite (get_object_no_params icontains table request r pk e) by done.
  set (errors := field_errors false (req_today request) (req_data request)).
  assert (Hin :
    (d_title (req_data request) = None →
     ("title", "This field is required.") ∈ errors)
    ∧ (d_amount (req_data request) = None →
       ("amount", "This field is required.") ∈ errors)
    ∧ (d_category (req_data request) = None →
       ("category", "This field is required.") ∈ errors)
    ∧ (d_date (req_data request) = None →
       ("date", "This field is required.") ∈ errors)).
  { unfold errors, field_errors. repeat split; intros ->; simpl;
      rewrite ?elem_of_app, ?elem_of_cons; auto 10. }
  destruct errors as [| error rest] eqn:Herrors.
  - exfalso. destruct Hin as (Ht & Ha & Hc & Hd).
    destruct Hmissing as [H | [H | [H | H]]];
      [apply Ht in H | apply Ha in H | apply Hc in H | apply Hd in H];
      by apply elem_of_nil in H.
  - rewrite (is_valid_field_errors _ _ _ error rest Herrors). eauto.
Qed.

(** X9.  A partial update writes what the body has and keeps the rest.  For
    a PATCH on an expense [e] of the caller whose body passes the
    validation, the answer is 200 and the row stored afterwards has the
    title, amount, category, description and date of the body where the
    body has the key, and those of [e] where it has not; the owner and the
    time of creation are those of [e], and the time of the last update is
    the time of the request.  A body without any key always passes. *)
Theorem partial_update_writes_the_body table request r pk e :
  req_user request = Some r →
  req_query request = no_params →
  table !! pk = Some e → user e = r →
  (∀ attrs,
     is_valid true (req_today request) (req_data request) = inr attrs →
     let data := req_data request in
     let e' :=
       {| user := user e;
          title := from_option py_strip (title e) (d_title data);
          amount := default (amount e) (d_amount data);
          category := default (category e) (d_category data ≫= category_of_code);
          description :=
            match d_description data with
            | Some d => py_strip <$> d
            | None => description e
            end;
          date := default (date e) (d_date data);
          created_at := created_at e;
          updated_at := req_now request |} in
     expense_detail icontains PATCH table request pk
     = (HTTP_200_OK (Detail pk e'), <[pk := e']> table))
  ∧ (∀ u, req_data request = mkExpenseData u None None None None None →
          is_valid true (req_today request) (req_data request)
          = inr (mkAttrs None None None None None)).
Proof.
  intros Hauth Hquery Hstored Howner. split.
  - intros attrs Hvalid data e'. simpl. unfold update. rewrite Hauth.
    rewrite (get_object_no_params icontains table request r pk e) by done.
    rewrite Hvalid.
    apply is_valid_attrs in Hvalid as [Hattrs _].
    apply to_internal_value_attrs in Hattrs as ->.
    assert (Heq : update_instance e (req_now request)
                    {| a_title := py_strip <$> d_title (req_data request);
                       a_amount := d_amount (req_data request);
                       a_category := d_category (req_data request) ≫= category_of_code;
                       a_description :=
                         (fmap py_strip : option string → option string)
                           <$> d_description (req_data request);
                       a_date := d_date (req_data request) |} = e').
    { unfold update_instance, e', data. simpl.
      by destruct (d_title (req_data request)),
                  (d_description (req_data request)). }
    by rewrite Heq.
  - by intros u ->.
Qed.

(** X10.  The rule on large amounts is not kept by partial updates.  A PATCH
    whose body has no [amount] is never refused by the rule; so on an
    expense of the caller with an amount above 1,000,000, a PATCH whose body
    passes the fields and blanks the description is answered 200, and the
    row stored afterwards has the large amount and no description. *)
Theorem partial_update_can_blank_the_description table request r pk e attrs :
  req_user request = Some r →
  req_query request = no_params →
  table !! pk = Some e → user e = r →
  amount e > LARGE_AMOUNT →
  d_amount (req_data request) = None →
  d_description (req_data request) ∈ [Some None; Some (Some "")] →
  to_internal_value true (req_today request) (req_data request) = inr attrs →
  is_valid true (req_today request) (req_data request) = inr attrs
  ∧ ∃ e',
      expense_detail icontains PATCH table request pk
      = (HTTP_200_OK (Detail pk e'), <[pk := e']> table)
      ∧ amount e' = amount e
      ∧ py_not_str (description e') = true
      ∧ ¬ well_formed (req_today request) e'.
Proof.
  intros Hauth Hquery Hstored Howner Hlarge Hamount Hdesc Hattrs.
  pose proof (to_internal_value_attrs _ _ _ _ Hattrs) as Hshape.
  assert (Hvalid : is_valid true (req_today request) (req_data request) = inr attrs).
  { unfold is_valid. rewrite Hattrs. unfold validate.
    by rewrite Hshape, Hamount. }
  split; [exact Hvalid |].
  simpl. unfold update. rewrite Hauth.
  rewrite (get_object_no_params icontains table request r pk e) by done.
  rewrite Hvalid. eexists. split; [done |].
  rewrite Hshape, Hamount. simpl.
  assert (Hempty : py_not_str
            (default (description e)
               ((fmap py_strip : option string → option string)
                  <$> d_description (req_data request))) = true).
  { repeat (apply elem_of_cons in Hdesc as [-> | Hdesc]); try done.
    by apply elem_of_nil in Hdesc. }
  split; [done |]. split; [exact Hempty |].
  intros (_ & _ & _ & _ & Hrule). simpl in Hrule.
  specialize (Hrule Hlarge). congruence.
Qed.

End Rows.

(** [test_create_expense_success] and [test_update_expense]: the rows they
    write. *)
Lemma written_rows_are_well_formed_witness :
  let created := Expenses.mkExpense 1 "Nuevo Gasto" 5000000 Expenses.UTILITIES
                   None Fixtures.today Fixtures.now Fixtures.now in
  let request :=
    Fixtures.request_of 1 Expenses.no_params Fixtures.small_without_description in
  Expenses.req_user request = Some 1
  ∧ Expenses.create Fixtures.expenses request
    = (HTTP_201_CREATED (Expenses.Detail 4 created), <[4 := created]> Fixtures.expenses)
  ∧ Ledger.well_formed Fixtures.today created
  ∧ has_null (Expenses.title created) = false
  ∧ Expenses.user created = 1.
Proof.
  intros created request.
  assert (Hcreate : Expenses.create Fixtures.expenses request
                    = (HTTP_201_CREATED (Expenses.Detail 4 created),
                       <[4 := created]> Fixtures.expenses))
    by (vm_compute; reflexivity).
  split; [reflexivity |]. split; [exact Hcreate |].
  exact (proj1 (written_rows_are_well_formed Fixtures.contains Fixtures.expenses
                  request 1 eq_refl) 4 created _ Hcreate).
Defined.

(** A PUT without [date] and without [category]. *)
Lemma put_needs_the_whole_body_witness :
  let request :=
    Fixtures.request_of 1 Expenses.no_params
      (Expenses.mkExpenseData None (Some "Gasto Actualizado") (Some 1500000)
         None None None) in
  Expenses.req_user request = Some 1
  ∧ Expenses.req_query request = Expenses.no_params
  ∧ Fixtures.expenses !! 1 = Some Fixtures.expense1
  ∧ Expenses.user Fixtures.expense1 = 1
  ∧ Expenses.d_date (Expenses.req_data request) = None
  ∧ ∃ errors,
      Expenses.expense_detail Fixtures.contains PUT Fixtures.expenses request 1
      = (HTTP_400_BAD_REQUEST errors, Fixtures.expenses)
      ∧ ("category", "This field is required.") ∈ errors
      ∧ ("date", "This field is required.") ∈ errors.
Proof.
  intros request. repeat (split; [reflexivity |]).
  destruct (put_needs_the_whole_body Fixtures.contains Fixtures.expenses request
              1 1 Fixtures.expense1 eq_refl eq_refl eq_refl eq_refl
              (or_intror (or_intror (or_intror eq_refl))))
    as (errors & Hput & _ & _ & Hcategory & Hdate).
  exists errors. split; [exact Hput |].
  split; [exact (Hcategory eq_refl) | exact (Hdate eq_refl)].
Defined.

(** [test_partial_update_expense]: a PATCH with a title only. *)
Lemma partial_update_writes_the_body_witness :
  let request :=
    Fixtures.request_of 1 Expenses.no_params
      (Expenses.mkExpenseData None (Some "Título Modificado") None None None None) in
  let updated := Expenses.mkExpense 1 "Título Modificado" 1000000 Expenses.GROCERIES
                   None Fixtures.today Fixtures.now Fixtures.now in
  Expenses.req_user request = Some 1
  ∧ Expenses.req_query request = Expenses.no_params
  ∧ Fixtures.expenses !! 1 = Some Fixtures.expense1
  ∧ Expenses.user Fixtures.expense1 = 1
  ∧ Expenses.is_valid true (Expenses.req_today request) (Expenses.req_data request)
    = inr (Expenses.mkAttrs (Some "Título Modificado") None None None None)
  ∧ Expenses.expense_detail Fixtures.contains PATCH Fixtures.expenses request 1
    = (HTTP_200_OK (Expenses.Detail 1 updated), <[1 := updated]> Fixtures.expenses).
Proof.
  intros request updated.
  assert (Hvalid :
    Expenses.is_valid true (Expenses.req_today request) (Expenses.req_data request)
    = inr (Expenses.mkAttrs (Some "Título Modificado") None None None None))
    by (vm_compute; reflexivity).
  repeat (split; [first [reflexivity | exact Hvalid] |]).
  exact (proj1 (partial_update_writes_the_body Fixtures.contains Fixtures.expenses
                  request 1 1 Fixtures.expense1 eq_refl eq_refl eq_refl eq_refl)
           _ Hvalid).
Defined.

(** An expense of 2,000,000.00 with a description, and a PATCH that sends an
    empty description. *)
Lemma partial_update_can_blank_the_description_witness :
  let large := Expenses.mkExpense 1 "Computador" 200000000 Expenses.ELECTRONICS
                 (Some "Portátil") Fixtures.today Fixtures.now Fixtures.now in
  let table : gmap Z Expenses.Expense := <[1 := large]> ∅ in
  let request :=
    Fixtures.request_of 1 Expenses.no_params
      (Expenses.mkExpenseData None None None None (Some (Some "")) None) in
  let blanked := Expenses.mkExpense 1 "Computador" 200000000 Expenses.ELECTRONICS
                   (Some "") Fixtures.today Fixtures.now Fixtures.now in
  Expenses.req_user request = Some 1
  ∧ Expenses.req_query request = Expenses.no_params
  ∧ table !! 1 = Some large
  ∧ Expenses.user large = 1
  ∧ Expenses.amount large > Expenses.LARGE_AMOUNT
  ∧ Expenses.d_amount (Expenses.req_data request) = None
  ∧ Expenses.to_internal_value true (Expenses.req_today request)
      (Expenses.req_data request)
    = inr (Expenses.mkAttrs None None None (Some (Some "")) None)
  ∧ Ledger.well_formed Fixtures.today large
  ∧ Expenses.expense_detail Fixtures.contains PATCH table request 1
    = (HTTP_200_OK (Expenses.Detail 1 blanked), <[1 := blanked]> table)
  ∧ ¬ Ledger.well_formed Fixtures.today blanked.
Proof.
  intros large table request blanked.
  assert (Hattrs :
    Expenses.to_internal_value true (Expenses.req_today request)
      (Expenses.req_data request)
    = inr (Expenses.mkAttrs None None None (Some (Some "")) None))
    by (vm_compute; reflexivity).
  assert (Hwf : Ledger.well_formed Fixtures.today large).
  { unfold Ledger.well_formed. simpl.
    split_and!; [discriminate | vm_compute; lia | lia | lia | lia | done]. }
  do 6 (split; [reflexivity |]). split; [exact Hattrs |]. split; [exact Hwf |].
  destruct (partial_update_can_blank_the_description Fixtures.contains table request
              1 1 large _ eq_refl eq_refl eq_refl eq_refl eq_refl eq_refl
              (list_elem_of_further _ _ _ (list_elem_of_here _ _)) Hattrs)
    as (_ & e' & Hpatch & _ & _ & Hnot).
  assert (He' : e' = blanked).
  { assert (Hrun : Expenses.expense_detail Fixtures.contains PATCH table request 1
                   = (HTTP_200_OK (Expenses.Detail 1 blanked), <[1 := blanked]> table))
      by (vm_compute; reflexivity).
    rewrite Hpatch in Hrun. by injection Hrun as ->. }
  split; [rewrite <- He'; exact Hpatch | rewrite <- He'; exact Hnot].
Defined.

(** ** The application [expenses]: how the operations compose *)

Section Composition.

Import Expenses.

Context {database : Database}.

Variable icontains : string → string → bool.

Lemma get_object_missing table request u pk :
  table !! pk = None →
  get_object icontains table request u pk = inl HTTP_404_NOT_FOUND.
Proof.
  intros Hnone.
  destruct (get_object_cases icontains table request u pk)
    as [-> | (instance & _ & Hstored & _)]; [done | congruence].
Qed.

Lemma update_instance_twice instance now attrs :
  update_instance (update_instance instance now attrs) now attrs
  = update_instance instance now attrs.
Proof.
  unfold update_instance. simpl.
  by destruct (a_title attrs), (a_amount attrs), (a_category attrs),
              (a_description attrs), (a_date attrs).
Qed.

(** Writing a row that is not of [r] over nothing, or over a row that is not
    of [r], does not change what [r] owns; nor does deleting such a row. *)
Lemma filter_user_insert_other (table : gmap Z Expense) r pk e :
  user e ≠ r → (∀ e0, table !! pk = Some e0 → user e0 ≠ r) →
  filter_user r (<[pk := e]> table) = filter_user r table.
Proof.
  intros He Hold. unfold filter_user. by apply map_filter_insert_not'.
Qed.

Lemma filter_user_delete_other (table : gmap Z Expense) r pk :
  (∀ e0, table !! pk = Some e0 → user e0 ≠ r) →
  filter_user r (delete pk table) = filter_user r table.
Proof.
  intros Hold. unfold filter_user. by apply map_filter_delete_not.
Qed.

(** X11.  An expense that was created can be read back and deleted.  After a
    creation answered 201 with key [pk] and row [e], every row stored
    before is still stored, the creator's GET on [pk] (without query
    parameters) answers 200 with [e], and the creator's DELETE on [pk]
    answers 204 and gives back the table as it was before the creation. *)
Theorem create_then_retrieve_and_destroy table request r pk e table' :
  req_user request = Some r →
  req_query request = no_params →
  expense_list icontains POST table request
  = (HTTP_201_CREATED (Detail pk e), table') →
  (∀ k e0, table !! k = Some e0 → table' !! k = Some e0)
  ∧ expense_detail icontains GET table' request pk
    = (HTTP_200_OK (Detail pk e), table')
  ∧ expense_detail icontains DELETE table' request pk
    = (HTTP_204_NO_CONTENT, table).
Proof.
  intros Hauth Hquery. simpl. unfold create, retrieve, destroy. rewrite Hauth.
  destruct (is_valid _ _ _) as [errors | attrs]; [done |].
  destruct (create_instance _ _ _) as [new |] eqn:Hnew; [| done].
  intros [= <- <- <-].
  assert (Huser : user new = r).
  { unfold create_instance in Hnew.
    destruct (a_title attrs), (a_amount attrs), (a_category attrs),
      (a_date attrs); simpl in Hnew; try discriminate.
    by injection Hnew as <-. }
  pose proof (next_pk_fresh table) as Hfresh.
  rewrite (get_object_no_params icontains _ request r (next_pk table) new Hquery)
    by (by rewrite ?lookup_insert_eq).
  split; [| split]; [| done |].
  - intros k e0 Hk. rewrite lookup_insert_ne; [done |]. congruence.
  - by rewrite delete_insert_id.
Qed.

(** X12.  A DELETE either finds nothing (404, the table stays as it is) or
    removes exactly the row of the caller under that key (204); it finds
    the row whenever the row is the caller's and the request has no query
    parameters.  After the removal every GET, PUT, PATCH and DELETE on the
    key, by anybody, answers 404. *)
Theorem destroy_removes_the_row table request r pk :
  req_user request = Some r →
  (expense_detail icontains DELETE table request pk = (HTTP_404_NOT_FOUND, table)
   ∨ ∃ e, table !! pk = Some e ∧ user e = r
          ∧ expense_detail icontains DELETE table request pk
            = (HTTP_204_NO_CONTENT, delete pk table))
  ∧ (req_query request = no_params →
     ∀ e, table !! pk = Some e → user e = r →
          expense_detail icontains DELETE table request pk
          = (HTTP_204_NO_CONTENT, delete pk table))
  ∧ (∀ method request' u,
       req_user request' = Some u → method ∈ [GET; PUT; PATCH; DELETE] →
       expense_detail icontains method (delete pk table) request' pk
       = (HTTP_404_NOT_FOUND, delete pk table)).
Proof.
  intros Hauth. split; [| split].
  - simpl. unfold destroy. rewrite Hauth.
    destruct (get_object_cases icontains table request r pk)
      as [-> | (instance & -> & Hstored & Howner)]; [by left |].
    right. by exists instance.
  - intros Hquery e Hstored Howner. simpl. unfold destroy. rewrite Hauth.
    by rewrite (get_object_no_params icontains table request r pk e).
  - intros method request' u Hauth' Hmethod.
    assert (Hgone : get_object icontains (delete pk table) request' u pk
                    = inl HTTP_404_NOT_FOUND)
      by apply get_object_missing, lookup_delete_eq.
    destruct method; simpl; unfold retrieve, update, destroy;
      rewrite ?Hauth', ?Hgone; try done.
    exfalso.
    repeat (apply elem_of_cons in Hmethod as [Heq | Hmethod]; [discriminate |]).
    by apply elem_of_nil in Hmethod.
Qed.

(** X13.  PUT and PATCH are idempotent: when an update (without query
    parameters) is answered 200, sending the same request again at the same
    time is answered 200 with the same row and leaves the table as the
    first one left it. *)
Theorem update_is_idempotent table request r pk method body table' :
  req_user request = Some r →
  req_query request = no_params →
  method ∈ [PUT; PATCH] →
  expense_detail icontains method table request pk = (HTTP_200_OK body, table') →
  expense_detail icontains method table' request pk = (HTTP_200_OK body, table').
Proof.
  intros Hauth Hquery Hmethod.
  assert (Hupdate : ∀ partial,
    update icontains partial table request pk = (HTTP_200_OK body, table') →
    update icontains partial table' request pk = (HTTP_200_OK body, table')).
  { intros partial. unfold update. rewrite Hauth.
    destruct (get_object_cases icontains table request r pk)
      as [-> | (instance & -> & Hstored & Howner)]; [done |].
    destruct (is_valid _ _ _) as [errors | attrs]; [done |].
    intros [= <- <-].
    rewrite (get_object_no_params icontains _ request r pk
               (update_instance instance (req_now request) attrs) Hquery)
      by (by rewrite ?lookup_insert_eq).
    by rewrite update_instance_twice, insert_insert_eq. }
  repeat (apply elem_of_cons in Hmethod as [-> | Hmethod]; [by apply Hupdate |]).
  by apply elem_of_nil in Hmethod.
Qed.

(** X14.  A query parameter on the URL of an update can make the updated row
    unreachable for the same URL: a PATCH on /expenses/pk/?category=c that
    is answered 200 and moves the expense to another category is answered
    404 when it is sent again. *)
Theorem update_under_a_filter_is_not_idempotent table request r pk c e table' :
  req_user request = Some r →
  q_category (req_query request) = Some c →
  expense_detail icontains PATCH table request pk
  = (HTTP_200_OK (Detail pk e), table') →
  category e ≠ c →
  expense_detail icontains PATCH table' request pk = (HTTP_404_NOT_FOUND, table').
Proof.
  intros Hauth Hquery. simpl. unfold update. rewrite Hauth.
  destruct (get_object_cases icontains table request r pk)
    as [-> | (instance & -> & Hstored & Howner)]; [done |].
  destruct (is_valid _ _ _) as [errors | attrs]; [done |].
  intros [= <- <-] Hcategory.
  assert (Hgone : get_object icontains
            (<[pk := update_instance instance (req_now request) attrs]> table)
            request r pk = inl HTTP_404_NOT_FOUND).
  { unfold get_object.
    destruct (filter_queryset _ _ _ !! pk) as [obj |] eqn:Hlook; [| done].
    apply filter_queryset_selects in Hlook as (Hobj & Hcat & _).
    apply filter_user_lookup in Hobj as [Hobj _].
    rewrite lookup_insert_eq in Hobj. injection Hobj as <-.
    by destruct Hcategory, (Hcat c Hquery). }
  by rewrite Hgone.
Qed.

(** X15.  What a user owns is changed by that user only.  Whatever request
    somebody else (or nobody) sends to the list, detail or statistics
    routes, the expenses of [r] in the table afterwards are those before;
    so a listing and the statistics of [r] are answered the same before and
    after. *)
Theorem other_users_change_nothing_of_mine table request r table' :
  req_user request ≠ Some r →
  (∃ method, table' = (expense_list icontains method table request).2)
  ∨ (∃ method pk, table' = (expense_detail icontains method table request pk).2)
  ∨ table' = (stats table request).2 →
  get_queryset r table' = get_queryset r table
  ∧ ∀ mine, req_user mine = Some r →
      (list_ icontains table' mine).1 = (list_ icontains table mine).1
      ∧ (stats table' mine).1 = (stats table mine).1.
Proof.
  intros Hother Hroute.
  assert (Hsame : get_queryset r table' = get_queryset r table).
  { unfold get_queryset.
    destruct Hroute as [[method ->] | [(method & pk & ->) | ->]].
    - destruct method; simpl; try done.
      + unfold list_. by destruct (req_user request).
      + unfold create. destruct (req_user request) as [u |] eqn:Hauth; [| done].
        destruct (is_valid _ _ _) as [errors | attrs]; [done |].
        destruct (create_instance _ _ _) as [new |] eqn:Hnew; [| done].
        simpl. apply filter_user_insert_other.
        * unfold create_instance in Hnew.
          destruct (a_title attrs), (a_amount attrs), (a_category attrs),
            (a_date attrs); simpl in Hnew; try discriminate.
          injection Hnew as <-. simpl. congruence.
        * intros e0. by rewrite next_pk_fresh.
    - destruct method; simpl; try done;
        unfold retrieve, update, destroy;
        (destruct (req_user request) as [u |] eqn:Hauth; [| done]);
        (destruct (get_object_cases icontains table request u pk)
           as [-> | (instance & -> & Hstored & Howner)]; [done |]);
        try done.
      + destruct (is_valid _ _ _) as [errors | attrs]; [done |]. simpl.
        apply filter_user_insert_other; [simpl; congruence |].
        intros e0. rewrite Hstored. intros [= <-]. congruence.
      + destruct (is_valid _ _ _) as [errors | attrs]; [done |]. simpl.
        apply filter_user_insert_other; [simpl; congruence |].
        intros e0. rewrite Hstored. intros [= <-]. congruence.
      + simpl. apply filter_user_delete_other.
        intros e0. rewrite Hstored. intros [= <-]. congruence.
    - unfold stats. destruct (req_user request); [| done].
      by destruct (ExpenseStatsSerializer _). }
  split; [exact Hsame |].
  intros mine Hmine. unfold list_, stats. rewrite Hmine, Hsame. split; [done |].
  by destruct (ExpenseStatsSerializer _).
Qed.

End Composition.

(** [test_create_expense_success], followed by a GET and a DELETE of the new
    expense. *)
Lemma create_then_retrieve_and_destroy_witness :
  let created := Expenses.mkExpense 1 "Nuevo Gasto" 5000000 Expenses.UTILITIES
                   None Fixtures.today Fixtures.now Fixtures.now in
  let request :=
    Fixtures.request_of 1 Expenses.no_params Fixtures.small_without_description in
  let table' := <[4 := created]> Fixtures.expenses in
  Expenses.req_user request = Some 1
  ∧ Expenses.req_query request = Expenses.no_params
  ∧ Expenses.expense_list Fixtures.contains POST Fixtures.expenses request
    = (HTTP_201_CREATED (Expenses.Detail 4 created), table')
  ∧ Expenses.expense_detail Fixtures.contains GET table' request 4
    = (HTTP_200_OK (Expenses.Detail 4 created), table')
  ∧ Expenses.expense_detail Fixtures.contains DELETE table' request 4
    = (HTTP_204_NO_CONTENT, Fixtures.expenses).
Proof.
  intros created request table'.
  assert (Hcreate :
    Expenses.expense_list Fixtures.contains POST Fixtures.expenses request
    = (HTTP_201_CREATED (Expenses.Detail 4 created), table'))
    by (vm_compute; reflexivity).
  split; [reflexivity |]. split; [reflexivity |]. split; [exact Hcreate |].
  exact (proj2 (create_then_retrieve_and_destroy Fixtures.contains Fixtures.expenses
                  request 1 4 created table' eq_refl eq_refl Hcreate)).
Defined.

(** [test_delete_expense]: the first user deletes the first expense. *)
Lemma destroy_removes_the_row_witness :
  let request := Fixtures.request_of 1 Expenses.no_params Fixtures.no_data in
  Expenses.req_user request = Some 1
  ∧ Expenses.expense_detail Fixtures.contains DELETE Fixtures.expenses request 1
    = (HTTP_204_NO_CONTENT, delete 1 Fixtures.expenses)
  ∧ Expenses.expense_detail Fixtures.contains GET (delete 1 Fixtures.expenses) request 1
    = (HTTP_404_NOT_FOUND, delete 1 Fixtures.expenses).
Proof.
  intros request.
  destruct (destroy_removes_the_row Fixtures.contains Fixtures.expenses request 1 1
              eq_refl) as (_ & Hfound & Hgone).
  split; [reflexivity |]. split.
  - exact (Hfound eq_refl Fixtures.expense1 eq_refl eq_refl).
  - exact (Hgone GET request 1 eq_refl (list_elem_of_here _ _)).
Defined.

(** [test_partial_update_expense], sent twice. *)
Lemma update_is_idempotent_witness :
  let request :=
    Fixtures.request_of 1 Expenses.no_params
      (Expenses.mkExpenseData None (Some "Título Modificado") None None None None) in
  let updated := Expenses.mkExpense 1 "Título Modificado" 1000000 Expenses.GROCERIES
                   None Fixtures.today Fixtures.now Fixtures.now in
  let table' := <[1 := updated]> Fixtures.expenses in
  Expenses.req_user request = Some 1
  ∧ Expenses.req_query request = Expenses.no_params
  ∧ PATCH ∈ [PUT; PATCH]
  ∧ Expenses.expense_detail Fixtures.contains PATCH Fixtures.expenses request 1
    = (HTTP_200_OK (Expenses.Detail 1 updated), table')
  ∧ Expenses.expense_detail Fixtures.contains PATCH table' request 1
    = (HTTP_200_OK (Expenses.Detail 1 updated), table').
Proof.
  intros request updated table'.
  assert (Hmethod : PATCH ∈ [PUT; PATCH])
    by apply list_elem_of_further, list_elem_of_here.
  assert (Hfirst :
    Expenses.expense_detail Fixtures.contains PATCH Fixtures.expenses request 1
    = (HTTP_200_OK (Expenses.Detail 1 updated), table'))
    by (vm_compute; reflexivity).
  split; [reflexivity |]. split; [reflexivity |]. split; [exact Hmethod |].
  split; [exact Hfirst |].
  exact (update_is_idempotent Fixtures.contains Fixtures.expenses request 1 1 PATCH
           _ table' eq_refl eq_refl Hmethod Hfirst).
Defined.

(** A PATCH on /expenses/1/?category=GROCERIES that moves the expense to
    leisure, sent twice. *)
Lemma update_under_a_filter_is_not_idempotent_witness :
  let query := Expenses.mkQueryParams (Some Expenses.GROCERIES) None None None None
                 None [] in
  let request :=
    Fixtures.request_of 1 query
      (Expenses.mkExpenseData None None None (Some "LEISURE") None None) in
  let moved := Expenses.mkExpense 1 "Gasto 1" 1000000 Expenses.LEISURE
                 None Fixtures.today Fixtures.now Fixtures.now in
  let table' := <[1 := moved]> Fixtures.expenses in
  Expenses.req_user request = Some 1
  ∧ Expenses.q_category (Expenses.req_query request) = Some Expenses.GROCERIES
  ∧ Expenses.expense_detail Fixtures.contains PATCH Fixtures.expenses request 1
    = (HTTP_200_OK (Expenses.Detail 1 moved), table')
  ∧ Expenses.category moved ≠ Expenses.GROCERIES
  ∧ Expenses.expense_detail Fixtures.contains PATCH table' request 1
    = (HTTP_404_NOT_FOUND, table').
Proof.
  intros query request moved table'.
  assert (Hfirst :
    Expenses.expense_detail Fixtures.contains PATCH Fixtures.expenses request 1
    = (HTTP_200_OK (Expenses.Detail 1 moved), table'))
    by (vm_compute; reflexivity).
  assert (Hmoved : Expenses.category moved ≠ Expenses.GROCERIES) by discriminate.
  split; [reflexivity |]. split; [reflexivity |]. split; [exact Hfirst |].
  split; [exact Hmoved |].
  exact (update_under_a_filter_is_not_idempotent Fixtures.contains Fixtures.expenses
           request 1 1 Expenses.GROCERIES moved table' eq_refl eq_refl Hfirst Hmoved).
Defined.

(** The second user deletes the third expense; the first user's statistics
    are what they were. *)
Lemma other_users_change_nothing_of_mine_witness :
  let request := Fixtures.request_of 2 Expenses.no_params Fixtures.no_data in
  let mine := Fixtures.request_of 1 Expenses.no_params Fixtures.no_data in
  let table' :=
    (Expenses.expense_detail Fixtures.contains DELETE Fixtures.expenses request 3).2 in
  Expenses.req_user request ≠ Some 1
  ∧ table' = delete 3 Fixtures.expenses
  ∧ Expenses.get_queryset 1 table' = Expenses.get_queryset 1 Fixtures.expenses
  ∧ (Expenses.stats table' mine).1 = (Expenses.stats Fixtures.expenses mine).1.
Proof.
  intros request mine table'.
  assert (Hother : Expenses.req_user request ≠ Some 1) by discriminate.
  destruct (other_users_change_nothing_of_mine Fixtures.contains Fixtures.expenses
              request 1 table' Hother
              (or_intror (or_introl (ex_intro _ DELETE (ex_intro _ 3 eq_refl)))))
    as [Hsame Hviews].
  split; [exact Hother |]. split; [vm_compute; reflexivity |].
  split; [exact Hsame |]. exact (proj2 (Hviews mine eq_refl)).
Defined.

(** ** The application [expenses]: what the statistics can render *)

Section StatisticsBounds.

Import Expenses Ledger.

Context {database : Database}.

(** X16.  The statistics are answered as long as the total can be rendered
    with ten digits.  When no expense of the caller has a negative amount:
    if their total is below 100,000,000.00 the answer is 200, with that
    total and an average between zero and the total; if the total is
    100,000,000.00 or more the serializer fails and the answer is 500. *)
Theorem stats_answers_unless_the_total_overflows table request r :
  req_user request = Some r →
  (∀ pk e, table !! pk = Some e → user e = r → 0 ≤ amount e) →
  let total := amount_total (get_queryset r table) in
  (total < 10 ^ 10 →
   ∃ data, stats table request = (HTTP_200_OK (Statistics data), table)
           ∧ data_total_amount data = total
           ∧ 0 ≤ data_average_amount data ≤ total)
  ∧ (10 ^ 10 ≤ total →
     stats table request = (HTTP_500_INTERNAL_SERVER_ERROR, table)).
Proof.
  intros Hauth Hrows total.
  assert (Htotal : 0 ≤ total).
  { apply amount_total_nonneg. intros pk e Hlook.
    apply filter_user_lookup in Hlook as [Hstored Howner]. eauto. }
  split.
  - intros Hsmall. by apply stats_renders.
  - intros Hlarge.
    unfold stats, ExpenseStatsSerializer. rewrite Hauth, compute_stats_total.
    fold total.
    assert (Hfails : DecimalField_to_representation (inject_Z total) = None).
    { unfold DecimalField_to_representation. rewrite round_half_even_inject_Z.
      by rewrite decide_False by lia. }
    by rewrite Hfails.
Qed.

(** The codes of the choices and their names, as [models.py] has them. *)
Lemma CATEGORY_CHOICES_dict_eq :
  CATEGORY_CHOICES_dict
  = [("GROCERIES", "Comestibles"); ("LEISURE", "Entretenimiento");
     ("ELECTRONICS", "Electrónicos"); ("UTILITIES", "Servicios Públicos");
     ("CLOTHING", "Ropa"); ("HEALTH", "Salud"); ("OTHERS", "Otros")].
Proof. reflexivity. Qed.

Lemma category_display_choice code name :
  (code, name) ∈ CATEGORY_CHOICES_dict → category_display code = name.
Proof.
  rewrite CATEGORY_CHOICES_dict_eq. intros Hin.
  repeat (apply elem_of_cons in Hin as [[= -> ->] | Hin]; [reflexivity |]).
  by apply elem_of_nil in Hin.
Qed.

Lemma category_display_other code :
  code ∉ CATEGORY_CHOICES_dict.*1 → category_display code = code.
Proof.
  rewrite CATEGORY_CHOICES_dict_eq. unfold category_display.
  rewrite CATEGORY_CHOICES_dict_eq. simpl. intros Hnot.
  rewrite !bool_decide_eq_false_2
    by (intros <-; apply Hnot; rewrite !elem_of_cons; auto 10).
  done.
Qed.

(** X17.  [get_category_display_custom] looks the stored code up in the
    choices: for each of the seven codes it gives the name of the choice,
    and for any other value of the column it gives the value back as it
    is.  Under the name of each of the seven categories, [by_category] has
    the sum of the amounts of the caller's expenses of that category. *)
Theorem by_category_is_keyed_by_display_name table r :
  (∀ code name,
     (code, name) ∈ [("GROCERIES", "Comestibles"); ("LEISURE", "Entretenimiento");
                     ("ELECTRONICS", "Electrónicos");
                     ("UTILITIES", "Servicios Públicos"); ("CLOTHING", "Ropa");
                     ("HEALTH", "Salud"); ("OTHERS", "Otros")] →
     category_display code = name)
  ∧ (∀ code,
       code ∉ ["GROCERIES"; "LEISURE"; "ELECTRONICS"; "UTILITIES"; "CLOTHING";
               "HEALTH"; "OTHERS"] →
       category_display code = code)
  ∧ (∀ e,
       by_category (compute_stats (get_queryset r table))
         !! get_category_display_custom e
       = Some (amount_total (filter_category (category e) (filter_user r table)))).
Proof.
  split_and!.
  - intros code name. rewrite <- CATEGORY_CHOICES_dict_eq.
    apply category_display_choice.
  - intros code Hnot. apply category_display_other.
    by rewrite CATEGORY_CHOICES_dict_eq.
  - intros e. unfold compute_stats. simpl.
    apply stats_by_category_lookup.
    unfold get_category_display_custom.
    destruct (category e); simpl; unfold CATEGORY_CHOICES;
      rewrite !elem_of_cons; auto 10.
Qed.

End StatisticsBounds.

(** Two expenses of 60,000,000.00 of one user: the statistics fail. *)
Lemma stats_answers_unless_the_total_overflows_witness :
  let expense := Expenses.mkExpense 1 "Apartamento" 6000000000 Expenses.OTHERS
                   (Some "Cuota") Fixtures.today Fixtures.now Fixtures.now in
  let table : gmap Z Expenses.Expense := <[2 := expense]> (<[1 := expense]> ∅) in
  let request := Fixtures.request_of 1 Expenses.no_params Fixtures.no_data in
  Expenses.req_user request = Some 1
  ∧ (∀ pk e, table !! pk = Some e → Expenses.user e = 1 → 0 ≤ Expenses.amount e)
  ∧ 10 ^ 10 ≤ Expenses.amount_total (Expenses.get_queryset 1 table)
  ∧ Expenses.stats table request = (HTTP_500_INTERNAL_SERVER_ERROR, table).
Proof.
  intros expense table request.
  assert (Hrows : ∀ pk e, table !! pk = Some e → Expenses.user e = 1 →
                          0 ≤ Expenses.amount e).
  { intros pk e Hlook _. revert pk e Hlook.
    apply (bool_decide_unpack (map_Forall (λ _ e, 0 ≤ Expenses.amount e) table)).
    vm_compute. exact I. }
  assert (Hlarge : 10 ^ 10 ≤ Expenses.amount_total (Expenses.get_queryset 1 table))
    by (vm_compute; discriminate).
  split; [reflexivity |]. split; [exact Hrows |]. split; [exact Hlarge |].
  exact (proj2 (stats_answers_unless_the_total_overflows table request 1 eq_refl Hrows)
           Hlarge).
Defined.

(** ** The application [users]: accounts *)

Section AccountViews.

Import Users Accounts.

Variable valid_email : string → bool.
Variable validate_password : string → bool.
Variable normalize_email : string → string.
Variable make_password : string → string.
Variable check_password_hash : string → string → bool.
Variable cfg : Tokens.Settings.

Lemma email_taken_false table exclude value :
  email_taken table exclude value = false ↔
  ∀ pk user, table !! pk = Some user → Some pk ≠ exclude → email user ≠ value.
Proof.
  unfold email_taken. rewrite bool_decide_eq_false. split.
  - intros Hempty pk user Hlook Hpk Hemail. apply Hempty. intros Hfilter.
    assert (Hin : filter (λ kv : Z * CustomUser,
                            Some kv.1 ≠ exclude ∧ email kv.2 = value) table !! pk
                  = Some user) by (by apply map_lookup_filter_Some).
    by rewrite Hfilter, lookup_empty in Hin.
  - intros Hnone Hne. apply Hne. apply map_empty_filter.
    intros pk user Hlook [Hpk Hemail]. by apply (Hnone pk user).
Qed.

Lemma emails_unique_insert table pk user :
  emails_unique table →
  (∀ k other, table !! k = Some other → k ≠ pk → email other ≠ email user) →
  emails_unique (<[pk := user]> table).
Proof.
  intros Hunique Hfresh k1 k2 u1 u2 H1 H2 Heq.
  destruct (decide (k1 = pk)) as [-> | Hk1], (decide (k2 = pk)) as [-> | Hk2];
    [done | | |].
  - rewrite lookup_insert_eq in H1. rewrite lookup_insert_ne in H2 by done.
    injection H1 as <-. by destruct (Hfresh k2 u2 H2 Hk2).
  - rewrite lookup_insert_eq in H2. rewrite lookup_insert_ne in H1 by done.
    injection H2 as <-. by destruct (Hfresh k1 u1 H1 Hk1).
  - rewrite lookup_insert_ne in H1, H2 by done. by apply (Hunique k1 k2 u1 u2).
Qed.

(** Writing a row back with the email it had keeps the emails unique. *)
Lemma emails_unique_insert_same table pk old user :
  emails_unique table → table !! pk = Some old → email user = email old →
  emails_unique (<[pk := user]> table).
Proof.
  intros Hunique Hold Hemail. apply emails_unique_insert; [done |].
  intros k other Hk Hne Heq. apply Hne.
  apply (Hunique k pk other old Hk Hold). congruence.
Qed.

Lemma create_user_unique table now email password extra_fields pk user table' :
  emails_unique table →
  create_user normalize_email make_password table now email password extra_fields
  = inr (pk, user, table') →
  emails_unique table'.
Proof.
  intros Hunique. unfold create_user, save_new. case_decide; [done |].
  destruct (email_taken _ _ _) eqn:Htaken; [done |]. intros [= <- <- <-].
  apply emails_unique_insert; [done |]. simpl.
  intros k other Hk _. by apply (proj1 (email_taken_false _ _ _) Htaken k other).
Qed.

(** An email that the profile serializer accepts is the email of no other
    row. *)
Lemma to_internal_value_email_free table pk partial data attrs s :
  to_internal_value valid_email table pk partial data = inr attrs →
  a_email attrs = Some s →
  email_taken table (Some pk) s = false.
Proof.
  unfold to_internal_value, email_field. intros Hattrs.
  destruct (char_field 254 partial (d_email data)) as [| v | msg] eqn:Hemail.
  - destruct (char_field 150 _ (d_first_name data)),
      (char_field 150 _ (d_last_name data)), (is_active_field _);
      simpl in Hattrs; try discriminate; by injection Hattrs as <-.
  - destruct (valid_email v), (email_taken table (Some pk) v) eqn:Htaken,
      (char_field 150 _ (d_first_name data)),
      (char_field 150 _ (d_last_name data)), (is_active_field _);
      simpl in Hattrs; try discriminate; injection Hattrs as <-; simpl;
      by intros [= <-].
  - simpl in Hattrs. discriminate.
Qed.

(** X18.  No operation makes two accounts share an email.  When the emails
    of the table are pairwise different, they still are after
    [create_user] and [create_superuser], after any request to the profile
    route, after a registration and after a change of password. *)
Theorem emails_stay_unique db :
  emails_unique (users db) →
  (∀ now email password extra_fields pk user table',
     create_user normalize_email make_password (users db) now email password
       extra_fields = inr (pk, user, table')
     ∨ create_superuser normalize_email make_password (users db) now email password
         extra_fields = inr (pk, user, table') →
     emails_unique table')
  ∧ (∀ method request,
       emails_unique (UserProfileView valid_email method (users db) request).2)
  ∧ (∀ now data,
       emails_unique
         (users (RegisterView_create valid_email validate_password normalize_email
                   make_password cfg db now data).2))
  ∧ (∀ now request_user data,
       emails_unique
         (users (ChangePasswordView_post validate_password make_password
                   check_password_hash db now request_user data).2)).
Proof.
  intros Hunique. split_and!.
  - intros now email password extra_fields pk user table' [Hcreate | Hcreate].
    + by eapply create_user_unique.
    + unfold create_superuser in Hcreate.
      repeat case_match; try discriminate. by eapply create_user_unique.
  - intros method request.
    assert (Hupdate : ∀ partial,
              emails_unique (update valid_email partial (users db) request).2).
    { intros partial. unfold update.
      destruct (get_object _ _) as [[pk me] |] eqn:Hme; [| done].
      destruct (to_internal_value _ _ _ _ _) as [errors | attrs] eqn:Hattrs; [done |].
      simpl. unfold get_object in Hme.
      destruct (req_user request) as [k |]; [| done]. simpl in Hme.
      destruct (users db !! k) as [stored |] eqn:Hstored; [| done].
      injection Hme as -> ->.
      destruct (a_email attrs) as [s |] eqn:Hemail.
      - apply emails_unique_insert; [done |]. simpl. rewrite Hemail. simpl.
        intros k other Hk Hne.
        apply (proj1 (email_taken_false _ _ _)
                 (to_internal_value_email_free _ _ _ _ _ _ Hattrs Hemail) k other Hk).
        congruence.
      - apply (emails_unique_insert_same _ _ me); [done | done |].
        simpl. by rewrite Hemail. }
    destruct method; simpl; try done.
    unfold retrieve. by destruct (get_object _ _) as [[] |].
  - intros now data. unfold RegisterView_create.
    destruct (register_to_internal_value _ _ _ _) as [errors | attrs]; [done |].
    destruct (RegisterSerializer_validate _) as [errors | validated]; [done |].
    destruct (RegisterSerializer_create _ _ _ _ _) as [| [[pk user] table]] eqn:Hcreate;
      [done |].
    simpl. by eapply create_user_unique.
  - intros now request_user data. unfold ChangePasswordView_post.
    destruct (request_user ≫= _) as [[pk user] |] eqn:Hme; [| done].
    destruct (change_password_to_internal_value _ _) as [errors | attrs]; [done |].
    destruct (ChangePasswordSerializer_validate _) as [errors | validated]; [done |].
    destruct (negb _); [done |]. simpl.
    destruct request_user as [k |]; [| done]. simpl in Hme.
    destruct (users db !! k) as [stored |] eqn:Hstored; [| done].
    injection Hme as -> ->.
    by apply (emails_unique_insert_same _ _ user).
Qed.

(** [User.objects.get(email=value)] over a table with unique emails. *)
Lemma objects_get_Got table value pk user :
  emails_unique table → table !! pk = Some user → email user = value →
  objects_get table value = Got pk user.
Proof.
  intros Hunique Hlook Hemail. unfold objects_get.
  assert (Hfilter : filter (λ kv : Z * CustomUser, email kv.2 = value) table
                    = {[pk := user]}).
  { apply map_eq. intros k. apply option_eq. intros other.
    rewrite map_lookup_filter_Some, lookup_singleton_Some. simpl. split.
    - intros [Hk Hother].
      assert (k = pk) as -> by (apply (Hunique k pk other user); congruence).
      split; congruence.
    - by intros [<- <-]. }
  by rewrite Hfilter, map_to_list_singleton.
Qed.

Lemma objects_get_DoesNotExist table value :
  (∀ pk user, table !! pk = Some user → email user ≠ value) →
  objects_get table value = DoesNotExist.
Proof.
  intros Hnone. unfold objects_get.
  assert (Hfilter : filter (λ kv : Z * CustomUser, email kv.2 = value) table = ∅).
  { apply map_empty_filter. intros pk user Hlook. simpl. by apply (Hnone pk). }
  by rewrite Hfilter, map_to_list_empty.
Qed.

(** The login of an email that no account has, and of the email of an
    account. *)
Lemma LoginView_post_unknown db now data username password :
  login_to_internal_value valid_email data = inr (username, password) →
  (∀ pk user, users db !! pk = Some user → email user ≠ username) →
  LoginView_post valid_email check_password_hash cfg db now data
  = (HTTP_401_UNAUTHORIZED, db).
Proof.
  intros Hbody Hnone. unfold LoginView_post, authenticate. rewrite Hbody.
  by rewrite (objects_get_DoesNotExist _ _ Hnone).
Qed.

Lemma LoginView_post_known db now data username password pk user :
  emails_unique (users db) →
  login_to_internal_value valid_email data = inr (username, password) →
  users db !! pk = Some user → email user = username →
  LoginView_post valid_email check_password_hash cfg db now data
  = if negb (is_active user) then (HTTP_403_FORBIDDEN, db)
    else if check_password check_password_hash user password then
      let issued := Tokens.issue cfg (tokens db) now pk in
      (HTTP_200_OK {| data_user := (pk, user); data_refresh := issued.1.2;
                      data_access := issued.1.1 |},
       {| users := users db; tokens := issued.2 |})
    else (HTTP_401_UNAUTHORIZED, db).
Proof.
  intros Hunique Hbody Hlook Hemail. unfold LoginView_post, authenticate.
  rewrite Hbody, (objects_get_Got _ _ pk user Hunique Hlook Hemail).
  by destruct (is_active user), (check_password _ _ _).
Qed.

(** X19.  What a login answers, for a body that passes the fields and a
    table with unique emails.  No account with the email: 401.  An account
    that is not active: 403, whatever the password.  An active account:
    200 for this account when the password is the account's, 401 when it is
    not.  The table of users is never changed, and only a 200 changes the
    state of the token service. *)
Theorem login_outcomes db now data username password :
  emails_unique (users db) →
  login_to_internal_value valid_email data = inr (username, password) →
  let login := LoginView_post valid_email check_password_hash cfg db now data in
  ((∀ pk user, users db !! pk = Some user → email user ≠ username) →
   login = (HTTP_401_UNAUTHORIZED, db))
  ∧ (∀ pk user,
       users db !! pk = Some user → email user = username →
       (is_active user = false → login = (HTTP_403_FORBIDDEN, db))
       ∧ (is_active user = true →
          check_password check_password_hash user password = false →
          login = (HTTP_401_UNAUTHORIZED, db))
       ∧ (is_active user = true →
          check_password check_password_hash user password = true →
          ∃ auth db', login = (HTTP_200_OK auth, db')
                      ∧ data_user auth = (pk, user)
                      ∧ users db' = users db))
  ∧ users login.2 = users db
  ∧ ((∀ auth, login.1 ≠ HTTP_200_OK auth) → login.2 = db).
Proof.
  intros Hunique Hbody login. subst login. split_and!.
  - intros Hnone. by eapply LoginView_post_unknown.
  - intros pk user Hlook Hemail.
    rewrite (LoginView_post_known db now data username password pk user) by done.
    split_and!.
    + by intros ->.
    + by intros -> ->.
    + intros -> ->. simpl. eexists _, _. by split_and!.
  - unfold LoginView_post. rewrite Hbody.
    destruct (objects_get _ _) as [| | pk user] eqn:Hget; try done; simpl.
    + unfold authenticate. by rewrite Hget.
    + destruct (is_active user) eqn:Hactive; [| done]. simpl.
      unfold authenticate. rewrite Hget, Hactive.
      by destruct (check_password _ _ _).
  - unfold LoginView_post. rewrite Hbody.
    destruct (objects_get _ _) as [| | pk user] eqn:Hget; try done; simpl.
    + unfold authenticate. by rewrite Hget.
    + destruct (is_active user) eqn:Hactive; [| done]. simpl.
      unfold authenticate. rewrite Hget, Hactive.
      destruct (check_password _ _ _); [| done]. simpl.
      intros Hnot. by edestruct Hnot.
Qed.

Lemma required_char_field_accepted data s :
  required_char_field data = Accepted s → s ≠ "".
Proof.
  unfold required_char_field, ProhibitNullCharactersValidator.
  destruct data as [raw |]; [| done].
  case_decide; [done |]. destruct (has_null _); [done |]. by intros [= <-].
Qed.

(** An email that the registration serializer accepts is not empty and is
    the email of no row. *)
Lemma register_to_internal_value_email table data attrs :
  register_to_internal_value valid_email validate_password table data = inr attrs →
  v_email attrs ≠ "" ∧ email_taken table None (v_email attrs) = false.
Proof.
  unfold register_to_internal_value.
  destruct (register_email_field _ _ _) as [| e | ?] eqn:Hemail; try done.
  destruct (new_password_field _ _) as [| p | ?]; try done.
  destruct (required_char_field _) as [| p2 | ?]; try done.
  destruct (char_field 150 false (r_first_name data)) as [| f | ?]; try done.
  destruct (char_field 150 false (r_last_name data)) as [| l | ?]; try done.
  intros [= <-]. simpl.
  unfold register_email_field, required_email_field in Hemail.
  destruct (required_char_field (r_email data)) as [| s | ?] eqn:Hfield; try done.
  destruct (negb (valid_email s)); [done |].
  destruct (email_taken table None s) eqn:Htaken; [done |].
  injection Hemail as <-. split; [| done].
  by apply (required_char_field_accepted (r_email data)).
Qed.

Lemma RegisterView_create_attrs db now data attrs :
  register_to_internal_value valid_email validate_password (users db) data
  = inr attrs →
  v_password attrs = v_password2 attrs →
  RegisterView_create valid_email validate_password normalize_email make_password
    cfg db now data
  = if email_taken (users db) None (normalize_email (v_email attrs))
    then (HTTP_500_INTERNAL_SERVER_ERROR, db)
    else
      let pk := next_pk (users db) in
      let issued := Tokens.issue cfg (tokens db) now pk in
      (HTTP_201_CREATED
         {| data_user := (pk, registered normalize_email make_password now attrs);
            data_refresh := issued.1.2; data_access := issued.1.1 |},
       {| users := <[pk := registered normalize_email make_password now attrs]> (users db);
          tokens := issued.2 |}).
Proof.
  intros Hattrs Hsame.
  destruct (register_to_internal_value_email _ _ _ Hattrs) as [Hemail _].
  unfold RegisterView_create. rewrite Hattrs.
  unfold RegisterSerializer_validate. rewrite decide_False by (by intros []).
  unfold RegisterSerializer_create, create_user, save_new.
  rewrite decide_False by done. simpl.
  by destruct (email_taken _ _ _).
Qed.

(** X20.  What a registration answers.  A body that fails the fields or has
    two different passwords is answered 400.  A body that passes is
    answered 201, and stores an active account without staff or superuser
    rights under a new key, with the normalized email and the hash of the
    password, unless the normalized email is the email of an account: the
    unique validator has compared the email as it was typed, the insertion
    fails and the answer is 500.  Nothing but a 201 changes the database. *)
Theorem register_outcome db now data :
  let register :=
    RegisterView_create valid_email validate_password normalize_email make_password
      cfg db now data in
  ((∀ auth, register.1 ≠ HTTP_201_CREATED auth) → register.2 = db)
  ∧ (∀ errors,
       register_to_internal_value valid_email validate_password (users db) data
       = inl errors →
       register = (HTTP_400_BAD_REQUEST errors, db))
  ∧ (∀ attrs,
       register_to_internal_value valid_email validate_password (users db) data
       = inr attrs →
       (v_password attrs ≠ v_password2 attrs →
        register
        = (HTTP_400_BAD_REQUEST [("password", "Las contraseñas no coinciden.")], db))
       ∧ (v_password attrs = v_password2 attrs →
          email_taken (users db) None (normalize_email (v_email attrs)) = true →
          register = (HTTP_500_INTERNAL_SERVER_ERROR, db))
       ∧ (v_password attrs = v_password2 attrs →
          email_taken (users db) None (normalize_email (v_email attrs)) = false →
          users db !! next_pk (users db) = None
          ∧ ∃ auth db',
              register = (HTTP_201_CREATED auth, db')
              ∧ data_user auth
                = (next_pk (users db),
                   registered normalize_email make_password now attrs)
              ∧ users db'
                = <[next_pk (users db) :=
                      registered normalize_email make_password now attrs]>
                    (users db))).
Proof.
  intros register. split_and!.
  - subst register. unfold RegisterView_create.
    destruct (register_to_internal_value _ _ _ _) as [errors | attrs]; [done |].
    destruct (RegisterSerializer_validate _) as [errors | validated]; [done |].
    destruct (RegisterSerializer_create _ _ _ _ _) as [| [[pk user] table]]; [done |].
    simpl. intros Hnot. by edestruct Hnot.
  - intros errors Herrors. subst register. unfold RegisterView_create.
    by rewrite Herrors.
  - intros attrs Hattrs. split_and!.
    + intros Hdiffer. subst register. unfold RegisterView_create.
      rewrite Hattrs. unfold RegisterSerializer_validate.
      by rewrite decide_True.
    + intros Hsame Htaken. subst register.
      by rewrite (RegisterView_create_attrs db now data attrs Hattrs Hsame), Htaken.
    + intros Hsame Hfree. split; [apply next_pk_fresh |]. subst register.
      rewrite (RegisterView_create_attrs db now data attrs Hattrs Hsame), Hfree.
      eexists _, _. by split_and!.
Qed.

(** X21.  Logging in after a registration.  With a hasher that recognises
    the passwords it has hashed, the account that a registration has
    stored logs in with the normalized email and the password of the
    registration.  With the email as it was typed, when normalization has
    changed it, the login is answered 401. *)
Theorem register_then_login db now data attrs auth db' later body :
  emails_unique (users db) →
  (∀ raw, check_password_hash raw (make_password raw) = true) →
  register_to_internal_value valid_email validate_password (users db) data
  = inr attrs →
  RegisterView_create valid_email validate_password normalize_email make_password
    cfg db now data = (HTTP_201_CREATED auth, db') →
  let login := LoginView_post valid_email check_password_hash cfg db' later body in
  (login_to_internal_value valid_email body
   = inr (normalize_email (v_email attrs), v_password attrs) →
   ∃ auth' db'', login = (HTTP_200_OK auth', db'')
                 ∧ data_user auth' = data_user auth)
  ∧ (login_to_internal_value valid_email body
     = inr (v_email attrs, v_password attrs) →
     normalize_email (v_email attrs) ≠ v_email attrs →
     login = (HTTP_401_UNAUTHORIZED, db')).
Proof.
  intros Hunique Hhasher Hattrs Hregister login.
  destruct (register_to_internal_value_email _ _ _ Hattrs) as [_ Htyped].
  assert (Hsame : v_password attrs = v_password2 attrs).
  { unfold RegisterView_create in Hregister. rewrite Hattrs in Hregister.
    unfold RegisterSerializer_validate in Hregister.
    destruct (decide (v_password attrs ≠ v_password2 attrs)) as [| Heq]; [done |].
    by destruct (decide (v_password attrs = v_password2 attrs)). }
  rewrite (RegisterView_create_attrs db now data attrs Hattrs Hsame) in Hregister.
  destruct (email_taken _ _ (normalize_email _)) eqn:Hfree; [done |].
  simpl in Hregister. injection Hregister as <- <-.
  set (pk := next_pk (users db)).
  set (user := registered normalize_email make_password now attrs).
  assert (Hunique' : emails_unique (<[pk := user]> (users db))).
  { apply emails_unique_insert; [done |]. simpl. intros k other Hk _.
    by apply (proj1 (email_taken_false _ _ _) Hfree k other). }
  split.
  - intros Hbody. subst login.
    match goal with
    | |- context [LoginView_post _ _ _ ?d _ _] =>
        rewrite (LoginView_post_known d later body _ _ pk user
                   Hunique' Hbody (lookup_insert_eq _ _ _) eq_refl)
    end.
    simpl. unfold check_password. simpl. rewrite Hhasher.
    eexists _, _. by split.
  - intros Hbody Hchanged. subst login.
    match goal with
    | |- LoginView_post _ _ _ ?d _ _ = _ =>
        apply (LoginView_post_unknown d later body _ _ Hbody)
    end.
    simpl. intros k other Hk.
    destruct (decide (k = pk)) as [-> | Hne].
    + rewrite lookup_insert_eq in Hk. by injection Hk as <-.
    + rewrite lookup_insert_ne in Hk by done.
      by apply (proj1 (email_taken_false _ _ _) Htyped k other).
Qed.

(** X22.  Logging in after a change of password.  A change answered 200 was
    made with the current password of the caller; it leaves the other
    accounts and the state of the token service as they were, so no token
    issued before is revoked by it.  With a hasher that recognises the
    passwords it has hashed, the caller, when active, then logs in with the
    new password. *)
Theorem change_password_then_login db now pk user data attrs db' later body :
  emails_unique (users db) →
  (∀ raw, check_password_hash raw (make_password raw) = true) →
  users db !! pk = Some user →
  is_active user = true →
  change_password_to_internal_value validate_password data = inr attrs →
  ChangePasswordView_post validate_password make_password check_password_hash
    db now (Some pk) data = (HTTP_200_OK (), db') →
  login_to_internal_value valid_email body
  = inr (email user, v_new_password attrs) →
  check_password check_password_hash user (v_old_password attrs) = true
  ∧ tokens db' = tokens db
  ∧ (∀ k, k ≠ pk → users db' !! k = users db !! k)
  ∧ ∃ auth db'',
      LoginView_post valid_email check_password_hash cfg db' later body
      = (HTTP_200_OK auth, db'')
      ∧ (data_user auth).1 = pk.
Proof.
  intros Hunique Hhasher Hlook Hactive Hattrs Hchange Hbody.
  unfold ChangePasswordView_post in Hchange. simpl in Hchange.
  rewrite Hlook in Hchange. simpl in Hchange. rewrite Hattrs in Hchange.
  destruct (ChangePasswordSerializer_validate attrs) as [errors | validated]
    eqn:Hvalid; [done |].
  assert (validated = attrs) as ->.
  { unfold ChangePasswordSerializer_validate in Hvalid.
    case_decide; congruence. }
  destruct (check_password _ user _) eqn:Hold; [| done].
  simpl in Hchange. injection Hchange as <-. simpl.
  split; [done |]. split; [done |].
  split; [by intros k Hk; rewrite lookup_insert_ne |].
  set (user' := {| email := email user;
                   password := make_password (v_new_password attrs);
                   first_name := first_name user; last_name := last_name user;
                   is_active := is_active user; is_staff := is_staff user;
                   is_superuser := is_superuser user;
                   date_joined := date_joined user; updated_at := now |}).
  assert (Hunique' : emails_unique (<[pk := user']> (users db)))
    by (by apply (emails_unique_insert_same _ _ user)).
  match goal with
  | |- context [LoginView_post _ _ _ ?d _ _] =>
      rewrite (LoginView_post_known d later body _ _ pk user'
                 Hunique' Hbody (lookup_insert_eq _ _ _) eq_refl)
  end.
  simpl. rewrite Hactive. simpl. unfold check_password. simpl. rewrite Hhasher.
  eexists _, _. by split.
Qed.

Lemma to_internal_value_is_active table pk partial data attrs :
  to_internal_value valid_email table pk partial data = inr attrs →
  a_is_active attrs = d_is_active data.
Proof.
  unfold to_internal_value, is_active_field. intros Hattrs.
  destruct (email_field _ _ _ _ _), (char_field 150 _ (d_first_name data)),
    (char_field 150 _ (d_last_name data)), (d_is_active data);
    simpl in Hattrs; try discriminate; by injection Hattrs as <-.
Qed.

(** X23.  [is_active] is a writable field of the profile: a user can
    deactivate the own account.  After a PUT or PATCH of the profile with
    [is_active] false that is answered 200, every login with the email of
    the account is answered 403, whatever the password. *)
Theorem self_deactivation_locks_out table request method pk me table' st later
    body password :
  emails_unique table →
  method ∈ [PUT; PATCH] →
  req_user request = Some pk →
  d_is_active (req_data request) = Some false →
  UserProfileView valid_email method table request = (HTTP_200_OK (pk, me), table') →
  login_to_internal_value valid_email body = inr (email me, password) →
  is_active me = false
  ∧ LoginView_post valid_email check_password_hash cfg
      {| users := table'; tokens := st |} later body
    = (HTTP_403_FORBIDDEN, {| users := table'; tokens := st |}).
Proof.
  intros Hunique Hmethod Hauth Hflag Hupdate Hbody.
  assert (Hstored : emails_unique table' ∧ table' !! pk = Some me
                    ∧ is_active me = false).
  { assert (Hcase : ∃ partial,
              update valid_email partial table request
              = (HTTP_200_OK (pk, me), table')).
    { repeat (apply elem_of_cons in Hmethod as [-> | Hmethod]; [by eexists |]).
      by apply elem_of_nil in Hmethod. }
    destruct Hcase as [partial Hcase]. unfold update in Hcase.
    destruct (get_object table request) as [[k stored] |] eqn:Hme; [| done].
    destruct (to_internal_value _ _ _ _ _) as [errors | attrs] eqn:Hattrs; [done |].
    injection Hcase as -> <- <-.
    unfold get_object in Hme. rewrite Hauth in Hme. simpl in Hme.
    destruct (table !! pk) as [old |] eqn:Hold; [| done].
    injection Hme as <-.
    split; [| split].
    - destruct (a_email attrs) as [s |] eqn:Hemail.
      + apply emails_unique_insert; [done |]. simpl. rewrite Hemail. simpl.
        intros k other Hk Hne.
        apply (proj1 (email_taken_false _ _ _)
                 (to_internal_value_email_free _ _ _ _ _ _ Hattrs Hemail) k other Hk).
        congruence.
      + apply (emails_unique_insert_same _ _ old); [done | done |].
        simpl. by rewrite Hemail.
    - apply lookup_insert_eq.
    - simpl. by rewrite (to_internal_value_is_active _ _ _ _ _ Hattrs), Hflag. }
  destruct Hstored as (Hunique' & Hlook & Hinactive). split; [done |].
  rewrite (LoginView_post_known {| users := table'; tokens := st |} later body
             _ _ pk me Hunique' Hbody Hlook eq_refl).
  by rewrite Hinactive.
Qed.

End AccountViews.

(** The two users of the tests have different emails. *)
Lemma users_emails_unique : Accounts.emails_unique Fixtures.users.
Proof.
  unfold Fixtures.users. apply emails_unique_insert.
  - apply emails_unique_insert.
    + intros pk1 pk2 user1 user2 Hlook. by rewrite lookup_empty in Hlook.
    + intros k other Hlook. by rewrite lookup_empty in Hlook.
  - intros k other Hlook Hne.
    apply lookup_insert_Some in Hlook as [[<- <-] | [_ Hlook]]; [discriminate |].
    by rewrite lookup_empty in Hlook.
Qed.

(** [test_update_profile], with a new email: the emails stay unique. *)
Lemma emails_stay_unique_witness :
  let db := Accounts.mkDatabase Fixtures.users Fixtures.issued in
  let request := Users.mkRequest (Some 1) Fixtures.new_email Fixtures.now in
  Accounts.emails_unique (Accounts.users db)
  ∧ Accounts.emails_unique
      (Users.UserProfileView Fixtures.simple_email PATCH Fixtures.users request).2.
Proof.
  intros db request. split; [exact users_emails_unique |].
  destruct (emails_stay_unique Fixtures.simple_email Fixtures.validate_password
              Fixtures.normalize_email Fixtures.make_password
              Fixtures.check_password_hash Fixtures.settings db
              users_emails_unique) as (_ & Hprofile & _).
  exact (Hprofile PATCH request).
Defined.

(** [test_login_success]. *)
Lemma login_outcomes_witness :
  let db := Accounts.mkDatabase Fixtures.users Fixtures.issued in
  let data := Accounts.mkLoginData (Some "user1@example.com") (Some "Password123!") in
  Accounts.emails_unique (Accounts.users db)
  ∧ Accounts.login_to_internal_value Fixtures.simple_email data
    = inr ("user1@example.com", "Password123!")
  ∧ ∃ auth db',
      Accounts.LoginView_post Fixtures.simple_email Fixtures.check_password_hash
        Fixtures.settings db Fixtures.now data
      = (HTTP_200_OK auth, db')
      ∧ Accounts.data_user auth = (1, Fixtures.user1)
      ∧ Accounts.users db' = Accounts.users db.
Proof.
  intros db data.
  assert (Hbody : Accounts.login_to_internal_value Fixtures.simple_email data
                  = inr ("user1@example.com", "Password123!"))
    by (vm_compute; reflexivity).
  split; [exact users_emails_unique |]. split; [exact Hbody |].
  destruct (login_outcomes Fixtures.simple_email Fixtures.check_password_hash
              Fixtures.settings db Fixtures.now data _ _
              users_emails_unique Hbody) as (_ & Hknown & _).
  destruct (Hknown 1 Fixtures.user1 eq_refl eq_refl) as (_ & _ & Hok).
  exact (Hok eq_refl eq_refl).
Defined.

(** A registration with the email of the first user, its domain in upper
    case: the unique validator lets it through and the insertion fails. *)
Lemma register_outcome_witness :
  let db := Accounts.mkDatabase Fixtures.users Fixtures.issued in
  let data :=
    Accounts.mkRegisterData (Some "user1@EXAMPLE.COM") (Some "Password123!")
      (Some "Password123!") (Some "Otro") (Some "Usuario") in
  let attrs :=
    Accounts.mkRegisterAttrs "user1@EXAMPLE.COM" "Password123!" "Password123!"
      "Otro" "Usuario" in
  Accounts.register_to_internal_value Fixtures.simple_email
    Fixtures.validate_password (Accounts.users db) data = inr attrs
  ∧ Fixtures.normalize_email "user1@EXAMPLE.COM" = Users.email Fixtures.user1
  ∧ Accounts.RegisterView_create Fixtures.simple_email Fixtures.validate_password
      Fixtures.normalize_email Fixtures.make_password Fixtures.settings
      db Fixtures.now data
    = (HTTP_500_INTERNAL_SERVER_ERROR, db).
Proof.
  intros db data attrs.
  assert (Hattrs :
    Accounts.register_to_internal_value Fixtures.simple_email
      Fixtures.validate_password (Accounts.users db) data = inr attrs)
    by (vm_compute; reflexivity).
  split; [exact Hattrs |]. split; [reflexivity |].
  destruct (register_outcome Fixtures.simple_email Fixtures.validate_password
              Fixtures.normalize_email Fixtures.make_password Fixtures.settings
              db Fixtures.now data) as (_ & _ & Hvalid).
  destruct (Hvalid attrs Hattrs) as (_ & Htaken & _).
  apply Htaken; [reflexivity | vm_compute; reflexivity].
Defined.

(** [test_register_success] with a domain in upper case, then two logins. *)
Lemma register_then_login_witness :
  let db := Accounts.mkDatabase Fixtures.users Fixtures.issued in
  let data :=
    Accounts.mkRegisterData (Some "nuevo@EXAMPLE.COM") (Some "Password123!")
      (Some "Password123!") (Some "Nuevo") (Some "Usuario") in
  let attrs :=
    Accounts.mkRegisterAttrs "nuevo@EXAMPLE.COM" "Password123!" "Password123!"
      "Nuevo" "Usuario" in
  let typed := Accounts.mkLoginData (Some "nuevo@EXAMPLE.COM") (Some "Password123!") in
  let normalized :=
    Accounts.mkLoginData (Some "nuevo@example.com") (Some "Password123!") in
  Accounts.emails_unique (Accounts.users db)
  ∧ (∀ raw, Fixtures.check_password_hash raw (Fixtures.make_password raw) = true)
  ∧ Accounts.register_to_internal_value Fixtures.simple_email
      Fixtures.validate_password (Accounts.users db) data = inr attrs
  ∧ ∃ auth db',
      Accounts.RegisterView_create Fixtures.simple_email Fixtures.validate_password
        Fixtures.normalize_email Fixtures.make_password Fixtures.settings
        db Fixtures.now data
      = (HTTP_201_CREATED auth, db')
      ∧ Accounts.LoginView_post Fixtures.simple_email Fixtures.check_password_hash
          Fixtures.settings db' (Fixtures.now + 60) typed
        = (HTTP_401_UNAUTHORIZED, db')
      ∧ ∃ auth' db'',
          Accounts.LoginView_post Fixtures.simple_email Fixtures.check_password_hash
            Fixtures.settings db' (Fixtures.now + 60) normalized
          = (HTTP_200_OK auth', db'')
          ∧ Accounts.data_user auth' = Accounts.data_user auth.
Proof.
  intros db data attrs typed normalized.
  assert (Hhasher : ∀ raw, Fixtures.check_password_hash raw
                             (Fixtures.make_password raw) = true)
    by (intros raw; apply bool_decide_eq_true_2; reflexivity).
  assert (Hattrs :
    Accounts.register_to_internal_value Fixtures.simple_email
      Fixtures.validate_password (Accounts.users db) data = inr attrs)
    by (vm_compute; reflexivity).
  split; [exact users_emails_unique |]. split; [exact Hhasher |].
  split; [exact Hattrs |].
  destruct (Accounts.RegisterView_create Fixtures.simple_email
              Fixtures.validate_password Fixtures.normalize_email
              Fixtures.make_password Fixtures.settings db Fixtures.now data)
    as [response db'] eqn:Hregister.
  assert (Hcreated : ∃ auth, response = HTTP_201_CREATED auth).
  { vm_compute in Hregister. injection Hregister as <- _. by eexists. }
  destruct Hcreated as [auth ->]. exists auth, db'. split; [reflexivity |].
  split.
  - apply (proj2 (register_then_login Fixtures.simple_email
                    Fixtures.validate_password Fixtures.normalize_email
                    Fixtures.make_password Fixtures.check_password_hash
                    Fixtures.settings db Fixtures.now data attrs auth db'
                    (Fixtures.now + 60) typed
                    users_emails_unique Hhasher Hattrs Hregister)).
    + vm_compute; reflexivity.
    + discriminate.
  - apply (proj1 (register_then_login Fixtures.simple_email
                    Fixtures.validate_password Fixtures.normalize_email
                    Fixtures.make_password Fixtures.check_password_hash
                    Fixtures.settings db Fixtures.now data attrs auth db'
                    (Fixtures.now + 60) normalized
                    users_emails_unique Hhasher Hattrs Hregister)).
    vm_compute; reflexivity.
Defined.

(** [test_change_password_success], then a login with the new password. *)
Lemma change_password_then_login_witness :
  let db := Accounts.mkDatabase Fixtures.users Fixtures.issued in
  let data :=
    Accounts.mkChangePasswordData (Some "Password123!") (Some "NuevaClave456!")
      (Some "NuevaClave456!") in
  let attrs :=
    Accounts.mkChangePasswordAttrs "Password123!" "NuevaClave456!" "NuevaClave456!" in
  let body := Accounts.mkLoginData (Some "user1@example.com") (Some "NuevaClave456!") in
  Accounts.emails_unique (Accounts.users db)
  ∧ (∀ raw, Fixtures.check_password_hash raw (Fixtures.make_password raw) = true)
  ∧ Accounts.users db !! 1 = Some Fixtures.user1
  ∧ Users.is_active Fixtures.user1 = true
  ∧ Accounts.change_password_to_internal_value Fixtures.validate_password data
    = inr attrs
  ∧ Accounts.login_to_internal_value Fixtures.simple_email body
    = inr (Users.email Fixtures.user1, Accounts.v_new_password attrs)
  ∧ ∃ db',
      Accounts.ChangePasswordView_post Fixtures.validate_password
        Fixtures.make_password Fixtures.check_password_hash db Fixtures.now
        (Some 1) data = (HTTP_200_OK (), db')
      ∧ ∃ auth db'',
          Accounts.LoginView_post Fixtures.simple_email Fixtures.check_password_hash
            Fixtures.settings db' (Fixtures.now + 60) body
          = (HTTP_200_OK auth, db'')
          ∧ (Accounts.data_user auth).1 = 1.
Proof.
  intros db data attrs body.
  assert (Hhasher : ∀ raw, Fixtures.check_password_hash raw
                             (Fixtures.make_password raw) = true)
    by (intros raw; apply bool_decide_eq_true_2; reflexivity).
  assert (Hattrs :
    Accounts.change_password_to_internal_value Fixtures.validate_password data
    = inr attrs) by (vm_compute; reflexivity).
  assert (Hbody :
    Accounts.login_to_internal_value Fixtures.simple_email body
    = inr (Users.email Fixtures.user1, Accounts.v_new_password attrs))
    by (vm_compute; reflexivity).
  split; [exact users_emails_unique |]. split; [exact Hhasher |].
  split; [reflexivity |]. split; [reflexivity |].
  split; [exact Hattrs |]. split; [exact Hbody |].
  destruct (Accounts.ChangePasswordView_post Fixtures.validate_password
              Fixtures.make_password Fixtures.check_password_hash db Fixtures.now
              (Some 1) data) as [response db'] eqn:Hchange.
  assert (Hok : response = HTTP_200_OK ()).
  { vm_compute in Hchange. by injection Hchange as <- _. }
  subst response. exists db'. split; [reflexivity |].
  exact (proj2 (proj2 (proj2
           (change_password_then_login Fixtures.simple_email
              Fixtures.validate_password Fixtures.make_password
              Fixtures.check_password_hash Fixtures.settings
              db Fixtures.now 1 Fixtures.user1 data attrs db' (Fixtures.now + 60)
              body users_emails_unique Hhasher eq_refl eq_refl Hattrs Hchange
              Hbody)))).
Defined.

(** The first user sets [is_active] to false, and tries to log in. *)
Lemma self_deactivation_locks_out_witness :
  let request :=
    Users.mkRequest (Some 1)
      (Users.mkProfileData None None None None None None (Some false))
      Fixtures.now in
  let me :=
    Users.mkCustomUser "user1@example.com" (Fixtures.make_password "Password123!")
      "User" "One" false false false Fixtures.now Fixtures.now in
  let table' := <[1 := me]> Fixtures.users in
  let body := Accounts.mkLoginData (Some "user1@example.com") (Some "Password123!") in
  Accounts.emails_unique Fixtures.users
  ∧ PATCH ∈ [PUT; PATCH]
  ∧ Users.req_user request = Some 1
  ∧ Users.d_is_active (Users.req_data request) = Some false
  ∧ Users.UserProfileView Fixtures.simple_email PATCH Fixtures.users request
    = (HTTP_200_OK (1, me), table')
  ∧ Accounts.login_to_internal_value Fixtures.simple_email body
    = inr (Users.email me, "Password123!")
  ∧ Accounts.LoginView_post Fixtures.simple_email Fixtures.check_password_hash
      Fixtures.settings (Accounts.mkDatabase table' Fixtures.issued)
      (Fixtures.now + 60) body
    = (HTTP_403_FORBIDDEN, Accounts.mkDatabase table' Fixtures.issued).
Proof.
  intros request me table' body.
  assert (Hmethod : PATCH ∈ [PUT; PATCH])
    by apply list_elem_of_further, list_elem_of_here.
  assert (Hupdate :
    Users.UserProfileView Fixtures.simple_email PATCH Fixtures.users request
    = (HTTP_200_OK (1, me), table')) by (vm_compute; reflexivity).
  assert (Hbody :
    Accounts.login_to_internal_value Fixtures.simple_email body
    = inr (Users.email me, "Password123!")) by (vm_compute; reflexivity).
  split; [exact users_emails_unique |]. split; [exact Hmethod |].
  split; [reflexivity |]. split; [reflexivity |]. split; [exact Hupdate |].
  split; [exact Hbody |].
  exact (proj2 (self_deactivation_locks_out Fixtures.simple_email
                  Fixtures.check_password_hash Fixtures.settings
                  Fixtures.users request PATCH 1 me table' Fixtures.issued
                  (Fixtures.now + 60) body "Password123!"
                  users_emails_unique Hmethod eq_refl eq_refl Hupdate Hbody)).
Defined.

(** ** The application [expenses]: a full update and the description *)

Section FullUpdate.

Import Expenses Ledger.

Variable icontains : string → string → bool.

(** X24.  A full update is not a replacement of the row: [description] is
    not a required field, and a PUT whose body is acceptable and has no key
    [description] is answered 200 and keeps the stored description, while
    the title, amount, category and date become those of the body. *)
Theorem full_update_keeps_an_omitted_description table request r pk e :
  req_user request = Some r →
  req_query request = no_params →
  table !! pk = Some e → user e = r →
  acceptable (req_today request) (req_data request) →
  d_description (req_data request) = None →
  ∃ t a c d,
    d_title (req_data request) = Some t
    ∧ d_amount (req_data request) = Some a
    ∧ d_category (req_data request) = Some (category_code c)
    ∧ d_date (req_data request) = Some d
    ∧ let e' := {| user := user e; title := py_strip t; amount := a;
                   category := c; description := description e; date := d;
                   created_at := created_at e;
                   updated_at := req_now request |} in
      expense_detail icontains PUT table request pk
      = (HTTP_200_OK (Detail pk e'), <[pk := e']> table).
Proof.
  intros Hauth Hquery Hstored Howner Hok Hdesc.
  destruct (acceptable_is_valid _ _ Hok)
    as (t & a & c & d & Ht & Ha & Hc & Hd & Hvalid).
  exists t, a, c, d. split_and!; try done.
  simpl. unfold update. rewrite Hauth.
  rewrite (get_object_no_params icontains table request r pk e) by done.
  rewrite Hvalid, Hdesc. done.
Qed.

End FullUpdate.

(** [test_update_expense]: a PUT without description on an expense that has
    one. *)
Lemma full_update_keeps_an_omitted_description_witness :
  let request :=
    Fixtures.request_of 1 Expenses.no_params
      (Expenses.mkExpenseData None (Some "Gasto Actualizado") (Some 1500000)
         (Some "LEISURE") None (Some Fixtures.today)) in
  let updated := Expenses.mkExpense 1 "Gasto Actualizado" 1500000 Expenses.LEISURE
                   (Some "Compra del mes") Fixtures.today Fixtures.now Fixtures.now in
  Expenses.req_user request = Some 1
  ∧ Expenses.req_query request = Expenses.no_params
  ∧ Fixtures.described_only !! 1 = Some Fixtures.described
  ∧ Expenses.user Fixtures.described = 1
  ∧ Ledger.acceptable (Expenses.req_today request) (Expenses.req_data request)
  ∧ Expenses.d_description (Expenses.req_data request) = None
  ∧ Expenses.expense_detail Fixtures.contains PUT Fixtures.described_only request 1
    = (HTTP_200_OK (Expenses.Detail 1 updated), <[1 := updated]> Fixtures.described_only).
Proof.
  intros request updated.
  assert (Hok : Ledger.acceptable (Expenses.req_today request)
                  (Expenses.req_data request)).
  { split_and!.
    - eexists. split; [reflexivity |].
      split; [vm_compute; discriminate |].
      split; [vm_compute; lia | vm_compute; reflexivity].
    - eexists. split; [reflexivity |]. split; [lia |].
      intros Hlarge. vm_compute in Hlarge. discriminate.
    - by exists Expenses.LEISURE.
    - intros d Hd. discriminate Hd.
    - eexists. split; [reflexivity |]. simpl. lia. }
  do 4 (split; [reflexivity |]). split; [exact Hok |]. split; [reflexivity |].
  destruct (full_update_keeps_an_omitted_description Fixtures.contains
              Fixtures.described_only request 1 1 Fixtures.described
              eq_refl eq_refl eq_refl eq_refl Hok eq_refl)
    as (t & a & c & d & Ht & Ha & Hc & Hd & Hput).
  injection Ht as <-. injection Ha as <-. injection Hd as <-.
  assert (c = Expenses.LEISURE) as -> by (by destruct c).
  exact Hput.
Defined.
